(** * Recommendation front-end: API aggregation layer

    A shallow embedding of the three TypeScript modules that make up the
    aggregation layer of the repository:

    - [utils/image-utils.ts]      the URL cache and the image URL builders,
    - the Wikipedia service       ([searchWikipedia], [getWikipediaContent],
                                   [getWikipediaRecommendations]),
    - the Knowledge Graph service ([searchEntities], [determineCategory],
                                   [convertToRecommendationItem], ...).

    Conventions of the embedding.

    - A JavaScript string is a [string]: the sequence of the bytes of its
      UTF-8 encoding.  The strings that come from outside (arguments,
      replies of the network) are well-formed text: a string with a lone
      surrogate, on which [encodeURIComponent] raises a [URIError], has no
      UTF-8 encoding and is outside the model, so [encodeURIComponent] is
      a total function here.  The one ill-formed string the code makes
      itself is an extract cut inside a surrogate pair; it goes to the
      features of an item and never to [encodeURIComponent].
    - Lengths and positions are counted in UTF-16 code units, as
      JavaScript counts them ([JsString.substring0]); [toLowerCase]
      lower-cases every character whose lower case holds an ASCII letter,
      which is what the keyword tests of the code can see.
    - A JavaScript number that the code uses as a count, an identifier or a
      time stamp is a [Z]: an integer, of magnitude below [10^21], so that
      a template literal prints it in plain decimal ([pretty]).
    - A field the code reads through [?.], [||] or a truthiness test is an
      [option]: [None] is an absent ([undefined] / [null]) field.
    - The module-level [Map]s, the environment, the clock, the network log
      and the console form one explicit [World]; every function of the code
      that touches them is a state-and-exception computation [Js A].
    - The network is an oracle: a function from the index of the request
      and its URL to the reply. *)

From stdpp Require Import gmap strings list fin_maps pretty.
From Stdlib Require Import ZArith Ascii String Lia.

Open Scope string_scope.
Open Scope Z_scope.

(* ===================================================================== *)
(** ** JavaScript string primitives                                       *)
(* ===================================================================== *)

Module JsString.

Definition code (c : ascii) : N := N_of_ascii c.

Definition is_digit (c : ascii) : bool := ((48 <=? code c) && (code c <=? 57))%N.
Definition is_upper (c : ascii) : bool := ((65 <=? code c) && (code c <=? 90))%N.
Definition is_lower (c : ascii) : bool := ((97 <=? code c) && (code c <=? 122))%N.
Definition is_alnum (c : ascii) : bool := is_digit c || is_upper c || is_lower c.

(** [\w] of a JavaScript regular expression: [[A-Za-z0-9_]]. *)
Definition is_word (c : ascii) : bool := is_alnum c || Ascii.eqb c "_".

Definition lower_ascii (c : ascii) : ascii :=
  if is_upper c then ascii_of_N (code c + 32) else c.

(** The UTF-8 bytes [C4 B0] of U+0130, capital I with dot above. *)
Definition is_dotted_I (c1 c2 : ascii) : bool :=
  ((code c1 =? 196) && (code c2 =? 176))%N.

(** The UTF-8 bytes [E2 84 AA] of U+212A, the Kelvin sign. *)
Definition is_kelvin (c1 c2 c3 : ascii) : bool :=
  ((code c1 =? 226) && (code c2 =? 132) && (code c3 =? 170))%N.

(** [s.toLowerCase()], as far as ASCII letters go.  The letters [A-Z]
    become [a-z]; U+212A becomes [k]; U+0130 becomes [i] followed by
    U+0307 (bytes [CC 87]).  These are all the characters whose lower
    case holds an ASCII letter.  Every other character is left as it is:
    its lower case is made of non-ASCII characters again, so no search
    for an ASCII keyword tells the two apart. *)
Fixpoint toLowerCase (s : string) : string :=
  match s with
  | EmptyString => EmptyString
  | String c1 s1 =>
      match s1 with
      | EmptyString => String (lower_ascii c1) EmptyString
      | String c2 s2 =>
          if is_dotted_I c1 c2 then
            String "i" (String (ascii_of_N 204) (String (ascii_of_N 135)
                                                   (toLowerCase s2)))
          else
            match s2 with
            | EmptyString => String (lower_ascii c1) (toLowerCase s1)
            | String c3 s3 =>
                if is_kelvin c1 c2 c3 then String "k" (toLowerCase s3)
                else String (lower_ascii c1) (toLowerCase s1)
            end
      end
  end.

(** [s.startsWith(p)] *)
Fixpoint startsWith (p s : string) : bool :=
  match p, s with
  | EmptyString, _ => true
  | String _ _, EmptyString => false
  | String a p', String b s' => Ascii.eqb a b && startsWith p' s'
  end.

(** [s.includes(t)] *)
Fixpoint includes (s t : string) : bool :=
  startsWith t s ||
  match s with
  | EmptyString => false
  | String _ s' => includes s' t
  end.

(** [xs.join(sep)] *)
Fixpoint join (sep : string) (xs : list string) : string :=
  match xs with
  | [] => ""
  | [x] => x
  | x :: xs' => x +:+ sep +:+ join sep xs'
  end.

(** The rest of [s] after the literal [p], when [s] starts with [p]. *)
Fixpoint after (p s : string) : option string :=
  match p, s with
  | EmptyString, _ => Some s
  | String _ _, EmptyString => None
  | String a p', String b s' => if Ascii.eqb a b then after p' s' else None
  end.

(** The longest prefix of [s] whose characters all satisfy [cls], and
    what follows it: a greedy [cls*]. *)
Fixpoint span (cls : ascii -> bool) (s : string) : string * string :=
  match s with
  | EmptyString => (EmptyString, EmptyString)
  | String c s' =>
      if cls c then let '(run, rest) := span cls s' in (String c run, rest)
      else (EmptyString, s)
  end.

(** The regular expression [lit(cls+)] tried at the start of [s]:
    the captured group. *)
Definition match_here (lit : string) (cls : ascii -> bool) (s : string)
  : option string :=
  match after lit s with
  | Some rest =>
      match fst (span cls rest) with
      | EmptyString => None
      | run => Some run
      end
  | None => None
  end.

(** [s.match(/lit(cls+)/)]: the group of the leftmost match. *)
Fixpoint match_first (lit : string) (cls : ascii -> bool) (s : string)
  : option string :=
  match match_here lit cls s with
  | Some g => Some g
  | None =>
      match s with
      | EmptyString => None
      | String _ s' => match_first lit cls s'
      end
  end.

(** [type.replace(/^[a-z]+:/, "")] *)
Definition strip_namespace (s : string) : string :=
  match span is_lower s with
  | (String _ _, String ":" rest) => rest
  | _ => s
  end.

Definition hex_digit (n : N) : ascii :=
  ascii_of_N (if (n <? 10)%N then 48 + n else 55 + n).

Definition percent (c : ascii) : string :=
  String "%" (String (hex_digit (code c / 16))
             (String (hex_digit (code c mod 16)) EmptyString)).

(** The characters [encodeURIComponent] leaves alone. *)
Definition unreserved (c : ascii) : bool :=
  is_alnum c ||
  existsb (Ascii.eqb c) ["-"; "_"; "."; "!"; "~"; "*"; "'"; "("; ")"]%char.

(** [encodeURIComponent(s)]: every byte of the UTF-8 encoding of [s] that
    is not an unreserved character becomes [%XX]. *)
Fixpoint encodeURIComponent (s : string) : string :=
  match s with
  | EmptyString => EmptyString
  | String c s' =>
      (if unreserved c then String c EmptyString else percent c)
      +:+ encodeURIComponent s'
  end.

(** The UTF-8 sequence that the lead byte [c] opens: its number of bytes
    and the number of UTF-16 code units of its character (two for a
    character beyond U+FFFF, which JavaScript holds as a surrogate
    pair). *)
Definition utf8_width (c : ascii) : nat * nat :=
  if (code c <? 192)%N then (1, 1)%nat
  else if (code c <? 224)%N then (2, 1)%nat
  else if (code c <? 240)%N then (3, 1)%nat
  else (4, 2)%nat.

(** The high surrogate of the character whose four UTF-8 bytes start with
    [b0 b1 b2], written as the three bytes [ED A0..AF xx] of generalized
    UTF-8: what is left of the character when a cut falls inside its
    surrogate pair. *)
Definition high_surrogate (b0 b1 b2 : ascii) : string :=
  let top := ((code b0 mod 8) * 256 + (code b1 mod 64) * 4 + (code b2 mod 64) / 16)%N in
  let h := (55232 + top)%N in
  String (ascii_of_N 237)
    (String (ascii_of_N (128 + (h / 64) mod 64))
       (String (ascii_of_N (128 + h mod 64)) EmptyString)).

(** The first [n] UTF-16 code units of [s]; [copy] bytes of the current
    character are still to be copied. *)
Fixpoint take_units (n copy : nat) (s : string) : string :=
  match s with
  | EmptyString => EmptyString
  | String c s' =>
      match copy with
      | S k => String c (take_units n k s')
      | O =>
          let '(w, u) := utf8_width c in
          if (u <=? n)%nat then String c (take_units (n - u) (w - 1) s')
          else
            match n with
            | O => EmptyString
            | S _ =>
                match s' with
                | String b1 (String b2 _) => high_surrogate c b1 b2
                | _ => EmptyString
                end
            end
      end
  end.

(** The number of UTF-16 code units of [s]. *)
Fixpoint count_units (copy : nat) (s : string) : nat :=
  match s with
  | EmptyString => O
  | String c s' =>
      match copy with
      | S k => count_units k s'
      | O => let '(w, u) := utf8_width c in (u + count_units (w - 1) s')%nat
      end
  end.

(** [s.length] *)
Definition length16 (s : string) : nat := count_units 0 s.

(** [s.substring(0, n)] *)
Definition substring0 (n : nat) (s : string) : string := take_units n 0 s.

(** Truthiness of a string-valued field: present and not empty. *)
Definition truthy (o : option string) : bool :=
  match o with
  | Some (String _ _) => true
  | _ => false
  end.

(** [a || b] where [b] is a string. *)
Definition or_else (a : option string) (b : string) : string :=
  match a with
  | Some (String c s) => String c s
  | _ => b
  end.

(** [a || b] where [b] may itself be absent. *)
Definition or_opt (a b : option string) : option string :=
  if truthy a then a else b.

End JsString.

(* ===================================================================== *)
(** ** JavaScript [Map]: keys in insertion order                          *)
(* ===================================================================== *)

Module JsMap.
Section Ordered.
Context {V : Type}.

(** The entries, oldest first; [keys()] iterates them in this order. *)
Definition t := list (string * V).

Fixpoint get (k : string) (m : t) : option V :=
  match m with
  | [] => None
  | (k', v) :: m' => if String.eqb k k' then Some v else get k m'
  end.

Definition has (k : string) (m : t) : bool :=
  match get k m with Some _ => true | None => false end.

(** [set] keeps the position of a key that is already there. *)
Fixpoint set (k : string) (v : V) (m : t) : t :=
  match m with
  | [] => [(k, v)]
  | (k', v') :: m' =>
      if String.eqb k k' then (k', v) :: m' else (k', v') :: set k v m'
  end.

Fixpoint delete (k : string) (m : t) : t :=
  match m with
  | [] => []
  | (k', v') :: m' =>
      if String.eqb k k' then m' else (k', v') :: delete k m'
  end.

Definition size (m : t) : Z := Z.of_nat (List.length m).

Definition keys (m : t) : list string := map fst m.
End Ordered.
Arguments t : clear implicits.
End JsMap.


(* ===================================================================== *)
(** ** Data model                                                         *)
(* ===================================================================== *)

(** [KnowledgeGraphEntity.detailedDescription] *)
Record DetailedDescription := {
  dd_articleBody : option string;
  dd_url : option string;
}.

(** [KnowledgeGraphEntity.image] *)
Record EntityImage := {
  img_contentUrl : option string;
  img_url : option string;
}.

(** [KnowledgeGraphEntity], as it arrives in the JSON of the API: the
    interface declares ["@type"] as required, the data may lack it. *)
Record KnowledgeGraphEntity := {
  ent_id : string;                                   (* "@id" *)
  ent_name : string;
  ent_type : option (list string);                   (* "@type" *)
  ent_description : option string;
  ent_detailedDescription : option DetailedDescription;
  ent_image : option EntityImage;
  ent_url : option string;
}.

(** An element of [KnowledgeGraphResponse.itemListElement]. *)
Record ListItem := { result : option KnowledgeGraphEntity }.

(** An element of the Wikipedia search result list. *)
Record SearchResult := { sr_pageid : Z; sr_title : string }.

(** [page.thumbnail] of the Wikipedia content reply. *)
Record Thumbnail := { source : option string }.

(** A page object of the Wikipedia content reply. *)
Record WikiPage := {
  pageid : Z;
  title : string;
  extract : option string;
  thumbnail : option Thumbnail;
}.

(** [data.query] of a Wikipedia reply. *)
Record Query := {
  search : option (list SearchResult);
  pages : option (gmap string WikiPage);
}.

(** A parsed JSON reply: the fields the clients read, each possibly
    absent. *)
Record Body := {
  itemListElement : option (list (option ListItem));
  b_query : option Query;                            (* data.query *)
}.

(** What [fetch] resolves to. [json = None]: [response.json()] rejects. *)
Record Response := {
  ok : bool;
  statusText : string;
  json : option Body;
}.

(** The reply of the network to one request: the time it took and the
    response, [None] when [fetch] itself rejects. *)
Record Reply := {
  elapsed : Z;
  arrived : option Response;
}.

(** The argument of [getWikipediaContent]: declared a number, called with
    a string by the Knowledge Graph client. *)
Inductive PageId :=
| NumId (n : Z)
| StrId (s : string).

(** [`${pageId}`] *)
Definition pageId_str (p : PageId) : string :=
  match p with
  | NumId n => pretty n
  | StrId s => s
  end.

(** [apiData] of a recommendation item. *)
Inductive ApiData :=
| KnowledgeGraphData (id : string) (entityTypes : list string)
| WikipediaData (id : Z) (extract : option string).

(** The recommendation item both clients build. [imageUrl = None] is an
    [undefined] image URL. *)
Record RecommendationItem := {
  name : string;
  reason : string;
  features : list string;
  imageUrl : option string;
  officialUrl : string;
  apiData : ApiData;
}.

(** An element of the [images] array handed to [getSpotifyImageUrl]. *)
Inductive ImageElem :=
| ElNull
| ElUndefined
| ElObject (url : option string).

(* ===================================================================== *)
(** ** The world and the monad of effects                                 *)
(* ===================================================================== *)

Record World := mkWorld {
  (** [process.env.GOOGLE_KNOWLEDGE_GRAPH_API_KEY] *)
  env_apiKey : option string;
  (** [Date.now()] *)
  clock : Z;
  (** [urlCache] of image-utils *)
  urlCache : JsMap.t string;
  (** [searchCache] of the Knowledge Graph service *)
  kg_searchCache : gmap string (list KnowledgeGraphEntity);
  (** [searchCache] of the Wikipedia service: data and time stamp *)
  wp_searchCache : gmap string (list SearchResult * Z);
  (** [contentCache] of the Wikipedia service: data and time stamp *)
  wp_contentCache : gmap string (option WikiPage * Z);
  (** the URLs handed to [fetch] so far, oldest first *)
  requests : list string;
  (** the lines written by [console.log] and [console.error] *)
  console : list string;
  (** the network: reply to the [i]-th request, for its URL *)
  network : nat -> string -> Reply;
}.

Inductive JsError :=
| TypeError (msg : string)
| SyntaxError (msg : string)
| Error (msg : string).

Definition error_message (e : JsError) : string :=
  match e with
  | TypeError m => "TypeError: " +:+ m
  | SyntaxError m => "SyntaxError: " +:+ m
  | Error m => "Error: " +:+ m
  end.

Inductive Outcome (A : Type) :=
| Returned (a : A)
| Thrown (e : JsError).
Arguments Returned {A} a.
Arguments Thrown {A} e.

(** A computation of the program: it runs in a world, returns or throws,
    and leaves a world. *)
Definition Js (A : Type) : Type := World -> Outcome A * World.

Definition ret {A} (a : A) : Js A := fun w => (Returned a, w).

Definition throw {A} (e : JsError) : Js A := fun w => (Thrown e, w).

Definition bind {A B} (m : Js A) (k : A -> Js B) : Js B :=
  fun w =>
    match m w with
    | (Returned a, w') => k a w'
    | (Thrown e, w') => (Thrown e, w')
    end.

(** [try { m } catch (error) { h error }] *)
Definition try_catch {A} (m : Js A) (h : JsError -> Js A) : Js A :=
  fun w =>
    match m w with
    | (Returned a, w') => (Returned a, w')
    | (Thrown e, w') => h e w'
    end.

Declare Scope js_scope.
Delimit Scope js_scope with js.
Notation "x <- m ;; k" := (bind m (fun x => k))
  (at level 100, m at next level, right associativity) : js_scope.
Notation "m ;; k" := (bind m (fun _ => k))
  (at level 100, right associativity) : js_scope.
Open Scope js_scope.

Definition gets {A} (f : World -> A) : Js A := fun w => (Returned (f w), w).

Definition modify (f : World -> World) : Js unit := fun w => (Returned tt, f w).

Definition with_clock (t : Z) (w : World) : World :=
  mkWorld (env_apiKey w) t (urlCache w) (kg_searchCache w) (wp_searchCache w)
          (wp_contentCache w) (requests w) (console w) (network w).

Definition with_urlCache (c : JsMap.t string) (w : World) : World :=
  mkWorld (env_apiKey w) (clock w) c (kg_searchCache w) (wp_searchCache w)
          (wp_contentCache w) (requests w) (console w) (network w).

Definition with_kg_searchCache (c : gmap string (list KnowledgeGraphEntity))
  (w : World) : World :=
  mkWorld (env_apiKey w) (clock w) (urlCache w) c (wp_searchCache w)
          (wp_contentCache w) (requests w) (console w) (network w).

Definition with_wp_searchCache (c : gmap string (list SearchResult * Z))
  (w : World) : World :=
  mkWorld (env_apiKey w) (clock w) (urlCache w) (kg_searchCache w) c
          (wp_contentCache w) (requests w) (console w) (network w).

Definition with_wp_contentCache (c : gmap string (option WikiPage * Z))
  (w : World) : World :=
  mkWorld (env_apiKey w) (clock w) (urlCache w) (kg_searchCache w)
          (wp_searchCache w) c (requests w) (console w) (network w).

Definition with_requests (r : list string) (w : World) : World :=
  mkWorld (env_apiKey w) (clock w) (urlCache w) (kg_searchCache w)
          (wp_searchCache w) (wp_contentCache w) r (console w) (network w).

Definition with_console (c : list string) (w : World) : World :=
  mkWorld (env_apiKey w) (clock w) (urlCache w) (kg_searchCache w)
          (wp_searchCache w) (wp_contentCache w) (requests w) c (network w).

(** [console.log(label, ...)] and [console.error(label, ...)] *)
Definition console_log (line : string) : Js unit :=
  modify (fun w => with_console (console w ++ [line]) w).

(** [fetch(url)] up to the point where the caller awaits: the request is
    on the wire; its index in the log is returned. *)
Definition fetch_issue (url : string) : Js nat :=
  fun w => (Returned (List.length (requests w)),
            with_requests (requests w ++ [url]) w).

(** The awaited [fetch] resumes: time has passed, the promise is settled. *)
Definition fetch_await (i : nat) (url : string) : Js Response :=
  fun w =>
    let r := network w i url in
    let w' := with_clock (clock w + elapsed r) w in
    match arrived r with
    | Some resp => (Returned resp, w')
    | None => (Thrown (TypeError "fetch failed"), w')
    end.

(** [await fetch(url)] *)
Definition fetch (url : string) : Js Response :=
  i <- fetch_issue url ;; fetch_await i url.

(** [await response.json()] *)
Definition response_json (r : Response) : Js Body :=
  match json r with
  | Some b => ret b
  | None => throw (SyntaxError "Unexpected token in JSON")
  end.

(* ===================================================================== *)
(** ** utils/image-utils.ts                                               *)
(* ===================================================================== *)

Module ImageUtils.
Import JsString.

Definition placeholder : string := "/placeholder.svg?height=400&width=400".

(** [urlCache.set(key, value)] *)
Definition urlCache_set (key value : string) : Js unit :=
  modify (fun w => with_urlCache (JsMap.set key value (urlCache w)) w).

(** The common tail of the four builders: [urlCache.has(cacheKey)] then
    [urlCache.get(cacheKey)!], else store the new URL and return it. *)
Definition cached (cacheKey : string) (fresh : string) : Js string :=
  cache <- gets urlCache ;;
  if JsMap.has cacheKey cache then
    ret (default "" (JsMap.get cacheKey cache))
  else
    (urlCache_set cacheKey fresh ;; ret fresh).

Definition getProxiedImageUrl (originalUrl : option string) : Js string :=
  match originalUrl with
  | Some (String _ _ as originalUrl) =>
      let cacheKey := "proxy_" +:+ originalUrl in
      cached cacheKey ("/api/image-proxy?url=" +:+ encodeURIComponent originalUrl)
  | _ => ret placeholder
  end.

(** [size = None]: the argument is omitted and defaults to ["w500"]. *)
Definition getTMDbImageUrl (path : option string) (size : option string)
  : Js string :=
  let size := default "w500" size in
  match path with
  | Some (String _ _ as path) =>
      let cacheKey := "tmdb_" +:+ path +:+ "_" +:+ size in
      cached cacheKey ("https://image.tmdb.org/t/p/" +:+ size +:+ path)
  | _ => ret placeholder
  end.

(** [images = None]: [undefined].  Reading [.url] of a first element that
    is [null] or [undefined] throws. *)
Definition getSpotifyImageUrl (images : option (list ImageElem)) : Js string :=
  match images with
  | None => ret placeholder
  | Some [] => ret placeholder
  | Some (ElNull :: _) =>
      throw (TypeError "Cannot read properties of null (reading 'url')")
  | Some (ElUndefined :: _) =>
      throw (TypeError "Cannot read properties of undefined (reading 'url')")
  | Some (ElObject url :: _) =>
      match url with
      | Some (String _ _ as imageUrl) =>
          let cacheKey := "spotify_" +:+ imageUrl in
          cached cacheKey imageUrl
      | _ => ret placeholder
      end
  end.

Definition getWikipediaImageUrl (entityId : option string) : Js string :=
  match entityId with
  | Some (String _ _ as entityId) =>
      let cacheKey := "wiki_" +:+ entityId in
      let wikimediaUrl :=
        "https://commons.wikimedia.org/wiki/Special:FilePath/" +:+ entityId
        +:+ "?width=800" in
      cached cacheKey ("/api/image-proxy?url=" +:+ encodeURIComponent wikimediaUrl)
  | _ => ret placeholder
  end.

(** [maxSize = None]: the argument is omitted and defaults to [100].
    [keysIterator.next().value] of an empty map is [undefined], and
    deleting it changes nothing. *)
Definition limitCacheSize (maxSize : option Z) : Js unit :=
  let maxSize := default 100 maxSize in
  cache <- gets urlCache ;;
  if JsMap.size cache >? maxSize then
    match JsMap.keys cache with
    | oldestKey :: _ =>
        modify (fun w => with_urlCache (JsMap.delete oldestKey (urlCache w)) w)
    | [] => ret tt
    end
  else ret tt.

End ImageUtils.

(* ===================================================================== *)
(** ** Array helpers                                                      *)
(* ===================================================================== *)

(** [xs.slice(0, end)]: a negative [end] counts from the end of [xs]. *)
Definition slice0 {A} (end_ : Z) (xs : list A) : list A :=
  if end_ <? 0
  then take (Z.to_nat (Z.max (Z.of_nat (List.length xs) + end_) 0)) xs
  else take (Z.to_nat end_) xs.

(** Running one computation per element, in order. *)
Fixpoint mapM {A B} (f : A -> Js B) (xs : list A) : Js (list B) :=
  match xs with
  | [] => ret []
  | x :: xs' => y <- f x ;; ys <- mapM f xs' ;; ret (y :: ys)
  end.

(** [o?.f]: the field [f] of [o], absent when [o] is. *)
Definition chain {A B} (o : option A) (f : A -> option B) : option B :=
  match o with
  | Some a => f a
  | None => None
  end.

(** [xs.filter((item) => item !== null)] *)
Fixpoint drop_null {A} (xs : list (option A)) : list A :=
  match xs with
  | [] => []
  | Some x :: xs' => x :: drop_null xs'
  | None :: xs' => drop_null xs'
  end.

(* ===================================================================== *)
(** ** The Wikipedia service                                              *)
(* ===================================================================== *)

Module Wikipedia.
Import JsString.

Definition CACHE_TTL : Z := 24 * 60 * 60 * 1000.

Definition WIKIPEDIA_API_BASE_URL : string := "https://ja.wikipedia.org/w/api.php".

Definition search_url (query : string) (limit : Z) : string :=
  WIKIPEDIA_API_BASE_URL +:+ "?action=query&list=search&srsearch="
  +:+ encodeURIComponent query +:+ "&format=json&srlimit=" +:+ pretty limit
  +:+ "&origin=*".

Definition content_url (pageId : PageId) : string :=
  WIKIPEDIA_API_BASE_URL
  +:+ "?action=query&prop=extracts|pageimages&exintro=1&explaintext=1&pageids="
  +:+ pageId_str pageId +:+ "&format=json&pithumbsize=500&origin=*".

Definition search_key (query : string) (limit : Z) : string :=
  "search_" +:+ query +:+ "_" +:+ pretty limit.

Definition content_key (pageId : PageId) : string :=
  "content_" +:+ pageId_str pageId.

(** The cache check that opens [searchWikipedia]: the data of an entry
    younger than [CACHE_TTL]; an older entry is deleted. *)
Definition searchCache_check (cacheKey : string)
  : Js (option (list SearchResult)) :=
  cache <- gets wp_searchCache ;;
  match cache !! cacheKey with
  | Some (data, timestamp) =>
      now <- gets clock ;;
      if now - timestamp <? CACHE_TTL then ret (Some data)
      else
        (modify (fun w => with_wp_searchCache (delete cacheKey (wp_searchCache w)) w) ;;
         ret None)
  | None => ret None
  end.

(** [limit = None]: the argument is omitted and defaults to [5]. *)
Definition searchWikipedia (query : string) (limit : option Z)
  : Js (list SearchResult) :=
  let limit := default 5 limit in
  let cacheKey := search_key query limit in
  hit <- searchCache_check cacheKey ;;
  match hit with
  | Some data => ret data
  | None =>
      try_catch
        (response <- fetch (search_url query limit) ;;
         if negb (ok response) then
           throw (Error ("Failed to search Wikipedia: " +:+ statusText response))
         else
           data <- response_json response ;;
           match b_query data with
           | None =>
               throw (TypeError "Cannot read properties of undefined (reading 'search')")
           | Some q =>
               let results := default [] (search q) in
               now <- gets clock ;;
               modify (fun w =>
                 with_wp_searchCache
                   (<[cacheKey := (results, now)]> (wp_searchCache w)) w) ;;
               ret results
           end)
        (fun error =>
           console_log ("Error searching Wikipedia: " +:+ error_message error) ;;
           ret [])
  end.

(** Where a call of [getWikipediaContent] stands when it first yields:
    settled from the cache, or waiting for the request it has issued. *)
Inductive Started :=
| Ready (data : option WikiPage)
| Awaiting (i : nat).

(** [getWikipediaContent] from its entry to its first [await]: the cache
    check and, on a miss, the call of [fetch]. *)
Definition getWikipediaContent_start (pageId : PageId) : Js Started :=
  let cacheKey := content_key pageId in
  cache <- gets wp_contentCache ;;
  hit <- match cache !! cacheKey with
         | Some (data, timestamp) =>
             now <- gets clock ;;
             if now - timestamp <? CACHE_TTL then ret (Some data)
             else
               (modify (fun w =>
                  with_wp_contentCache (delete cacheKey (wp_contentCache w)) w) ;;
                ret None)
         | None => ret None
         end ;;
  match hit with
  | Some data => ret (Ready data)
  | None => i <- fetch_issue (content_url pageId) ;; ret (Awaiting i)
  end.

(** [getWikipediaContent] from the settled [fetch] to its return. *)
Definition getWikipediaContent_resume (pageId : PageId) (i : nat)
  : Js (option WikiPage) :=
  let cacheKey := content_key pageId in
  try_catch
    (response <- fetch_await i (content_url pageId) ;;
     if negb (ok response) then
       throw (Error ("Failed to get Wikipedia content: " +:+ statusText response))
     else
       data <- response_json response ;;
       match b_query data with
       | None =>
           throw (TypeError "Cannot read properties of undefined (reading 'pages')")
       | Some q =>
           match pages q with
           | None => throw (TypeError "Cannot read properties of undefined")
           | Some ps =>
               let page := ps !! pageId_str pageId in
               now <- gets clock ;;
               modify (fun w =>
                 with_wp_contentCache
                   (<[cacheKey := (page, now)]> (wp_contentCache w)) w) ;;
               ret page
           end
       end)
    (fun error =>
       console_log ("Error getting Wikipedia content: " +:+ error_message error) ;;
       ret None).

Definition settle (pageId : PageId) (s : Started) : Js (option WikiPage) :=
  match s with
  | Ready data => ret data
  | Awaiting i => getWikipediaContent_resume pageId i
  end.

(** [await getWikipediaContent(pageId)].  The result is [None] for [null]
    (a failed fetch) and for [undefined] (a reply without that page). *)
Definition getWikipediaContent (pageId : PageId) : Js (option WikiPage) :=
  s <- getWikipediaContent_start pageId ;; settle pageId s.

(** The object the [map] callback of [getWikipediaRecommendations] builds
    from a page. *)
Definition to_item (query : string) (content : WikiPage) : RecommendationItem :=
  {| name := title content;
     reason := "Wikipediaで「" +:+ query +:+ "」に関連する情報として見つかりました。";
     features :=
       [ match extract content with
         | Some (String _ _ as e) => substring0 100 e +:+ "..."
         | _ => "詳細情報はWikipediaをご覧ください。"
         end;
         "信頼性の高い情報源";
         "幅広いトピックをカバー" ];
     imageUrl :=
       match thumbnail content with
       | Some t => source t
       | None => Some "/placeholder.svg"
       end;
     officialUrl := "https://ja.wikipedia.org/?curid=" +:+ pretty (pageid content);
     apiData := WikipediaData (pageid content) (extract content) |}.

(** [limit = None]: the argument is omitted and defaults to [5].

    [topResults.map(async ...)] runs every callback up to its first
    [await], so all cache checks and all requests come first, in index
    order; [Promise.all] then lets every callback finish.  The callbacks
    resume here in index order, one of the schedules the event loop
    admits; the list [Promise.all] resolves to is in index order under
    every schedule. *)
Definition getWikipediaRecommendations (query : string) (limit : option Z)
  : Js (list RecommendationItem) :=
  let limit_ := default 5 limit in
  try_catch
    (searchResults <- searchWikipedia query limit ;;
     match searchResults with
     | [] => ret []
     | _ =>
         let topResults := slice0 limit_ searchResults in
         started <-
           mapM (fun result =>
                   s <- getWikipediaContent_start (NumId (sr_pageid result)) ;;
                   ret (result, s))
                topResults ;;
         recommendations <-
           mapM (fun '(result, s) =>
                   content <- settle (NumId (sr_pageid result)) s ;;
                   ret (match content with
                        | None => None
                        | Some content => Some (to_item query content)
                        end))
                started ;;
         ret (drop_null recommendations)
     end)
    (fun error =>
       console_log ("Error getting Wikipedia recommendations: "
                    +:+ error_message error) ;;
       ret []).

End Wikipedia.

(* ===================================================================== *)
(** ** The Knowledge Graph service                                        *)
(* ===================================================================== *)

Module KnowledgeGraph.
Import JsString.

Definition getApiKey : Js string :=
  apiKey <- gets env_apiKey ;;
  match apiKey with
  | Some (String _ _ as apiKey) => ret apiKey
  | _ =>
      throw (Error "Google Knowledge Graph API key is not set in environment variables")
  end.

Definition search_key (query : string) (types : list string) (limit : Z) : string :=
  query +:+ "_" +:+ join "," types +:+ "_" +:+ pretty limit.

Definition search_url (query apiKey : string) (types : list string) (limit : Z)
  : string :=
  let url :=
    "https://kgsearch.googleapis.com/v1/entities:search?query="
    +:+ encodeURIComponent query +:+ "&key=" +:+ apiKey
    +:+ "&limit=" +:+ pretty limit +:+ "&indent=true" in
  let url :=
    match types with
    | [] => url
    | _ => url +:+ "&types=" +:+ join "," (map encodeURIComponent types)
    end in
  url +:+ "&languages=ja,en".

(** [data.itemListElement.map((item) => item.result).filter((entity) => entity)] *)
Definition extract_entities (data : Body) : Js (list KnowledgeGraphEntity) :=
  match itemListElement data with
  | None => throw (TypeError "Cannot read properties of undefined (reading 'map')")
  | Some items =>
      results <-
        mapM (fun item : option ListItem =>
                match item with
                | Some item => ret (result item)
                | None =>
                    throw (TypeError "Cannot read properties of null (reading 'result')")
                end)
             items ;;
      ret (drop_null results)
  end.

(** The body of the [try] block of [searchEntities]. *)
Definition searchEntities_try (query : string) (types : list string) (limit : Z)
  : Js (list KnowledgeGraphEntity) :=
  apiKey <- getApiKey ;;
  response <- fetch (search_url query apiKey types limit) ;;
  if negb (ok response) then
    throw (Error ("Failed to search entities: " +:+ statusText response))
  else
    data <- response_json response ;;
    entities <- extract_entities data ;;
    modify (fun w =>
      with_kg_searchCache
        (<[search_key query types limit := entities]> (kg_searchCache w)) w) ;;
    ret entities.

(** [types = None], [limit = None]: the argument is omitted and defaults
    to [[]], to [10]. *)
Definition searchEntities (query : string) (types : option (list string))
  (limit : option Z) : Js (list KnowledgeGraphEntity) :=
  let types := default [] types in
  let limit := default 10 limit in
  let cacheKey := search_key query types limit in
  cache <- gets kg_searchCache ;;
  match cache !! cacheKey with
  | Some entities => ret entities
  | None =>
      try_catch
        (searchEntities_try query types limit)
        (fun error =>
           console_log ("Error searching entities: " +:+ error_message error) ;;
           ret [])
  end.

Definition music_keywords : list string :=
  ["musician"; "artist"; "musicgroup"; "band"; "music"].

Definition celebrity_keywords : list string :=
  ["actor"; "actress"; "celebrity"; "person"; "director"; "athlete"].

Definition media_keywords : list string :=
  ["movie"; "tvshow"; "tvseries"; "book"; "game"; "videogame"; "anime"].

Definition fashion_keywords : list string :=
  ["brand"; "clothing"; "fashion"; "organization"; "company"; "corporation"].

(** [typeStr.includes(k1) || typeStr.includes(k2) || ...] *)
Definition includes_any (typeStr : string) (keywords : list string) : bool :=
  existsb (includes typeStr) keywords.

(** [types.join(" ").toLowerCase()] with [types = entity["@type"] || []] *)
Definition typeStr_of (entity : KnowledgeGraphEntity) : string :=
  let types := default [] (ent_type entity) in
  toLowerCase (join " " types).

Definition determineCategory (entity : KnowledgeGraphEntity) : string :=
  let typeStr := typeStr_of entity in
  if includes_any typeStr music_keywords then "artists"
  else if includes_any typeStr celebrity_keywords then "celebrities"
  else if includes_any typeStr media_keywords then "media"
  else if includes_any typeStr fashion_keywords then "fashion"
  else "celebrities".

(** [/wikidata\.org\/entity\/(Q\d+)/] captures the [Q] and the digits
    after it; [/\/m\/([a-zA-Z0-9_]+)/] captures the word after [/m/]. *)
Definition extractWikidataId (entityId : string) : option string :=
  match entityId with
  | EmptyString => None
  | _ =>
      match match_first "wikidata.org/entity/Q" is_digit entityId with
      | Some digits => Some ("Q" +:+ digits)
      | None =>
          match match_first "/m/" is_word entityId with
          | Some freebase => Some freebase
          | None => None
          end
      end
  end.

(** [wikipediaContent?.thumbnail?.source] *)
Definition thumbnail_source (content : option WikiPage) : option string :=
  chain (chain content thumbnail) source.

Definition getKnowledgeGraphImageUrl (entity : KnowledgeGraphEntity) : Js string :=
  match chain (ent_image entity) img_contentUrl with
  | Some (String _ _ as contentUrl) =>
      console_log ("Knowledge Graph Image URL (contentUrl): " +:+ contentUrl) ;;
      ImageUtils.getProxiedImageUrl (Some contentUrl)
  | _ =>
      match chain (ent_image entity) img_url with
      | Some (String _ _ as url) =>
          console_log ("Knowledge Graph Image URL (url): " +:+ url) ;;
          ImageUtils.getProxiedImageUrl (Some url)
      | _ =>
          match extractWikidataId (ent_id entity) with
          | Some (String _ _ as wikidataId) =>
              wikipediaContent <- Wikipedia.getWikipediaContent (StrId wikidataId) ;;
              match thumbnail_source wikipediaContent with
              | Some (String _ _ as src) =>
                  console_log ("Wikipedia Image URL: " +:+ src) ;;
                  ImageUtils.getProxiedImageUrl (Some src)
              | _ => ret ImageUtils.placeholder
              end
          | _ => ret ImageUtils.placeholder
          end
      end
  end.

(** [xs.filter(Boolean)] on strings: the empty string is the falsy one. *)
Definition filter_Boolean (xs : list string) : list string :=
  List.filter (fun s => negb (String.eqb s "")) xs.

Definition features_of (types : list string) (url : option string) : list string :=
  filter_Boolean
    (map strip_namespace (take 3 types)
     ++ [if truthy url then "公式サイトあり" else ""]).

Definition convertToRecommendationItem (entity : KnowledgeGraphEntity)
  : Js RecommendationItem :=
  imageUrl <- getKnowledgeGraphImageUrl entity ;;
  match ent_type entity with
  | None =>
      throw (TypeError "Cannot read properties of undefined (reading 'slice')")
  | Some types =>
      ret {| name := ent_name entity;
             reason :=
               or_else (chain (ent_detailedDescription entity) dd_articleBody)
                 (or_else (ent_description entity)
                    (ent_name entity +:+ "に関する情報です。"));
             features := features_of types (ent_url entity);
             imageUrl := Some imageUrl;
             officialUrl :=
               or_else (ent_url entity)
                 (or_else (chain (ent_detailedDescription entity) dd_url) "#");
             apiData := KnowledgeGraphData (ent_id entity) types |}
  end.

End KnowledgeGraph.

(* ===================================================================== *)
(** ** Notions used by the statements                                     *)
(* ===================================================================== *)

(** [k] occurs in [s]. *)
Definition contains (s k : string) : Prop :=
  exists a b, s = a +:+ k +:+ b.

(** One of the keywords occurs in [s]. *)
Definition contains_one_of (s : string) (keywords : list string) : Prop :=
  exists k, In k keywords /\ contains s k.

(** A computation that always returns. *)
Definition returns {A} (m : Js A) : Prop :=
  forall w, exists a w', m w = (Returned a, w').

(** Every URL stored in the cache is a non-empty string. *)
Definition nonempty_values (m : JsMap.t string) : Prop :=
  Forall (fun kv => snd kv <> "") m.

(** The error [getApiKey] throws. *)
Definition missing_key_error : JsError :=
  Error "Google Knowledge Graph API key is not set in environment variables".

(** The pages the [map] callbacks of [getWikipediaRecommendations] get
    from their calls [getWikipediaContent(result.pageid)], by index. *)
Definition contents_of (topResults : list SearchResult)
  : Js (list (option WikiPage)) :=
  started <-
    mapM (fun result =>
            s <- Wikipedia.getWikipediaContent_start (NumId (sr_pageid result)) ;;
            ret (result, s))
         topResults ;;
  mapM (fun '(result, s) => Wikipedia.settle (NumId (sr_pageid result)) s) started.

(** A computation that leaves the URL cache alone. *)
Definition keeps_urlCache {A} (m : Js A) : Prop :=
  forall w, urlCache (snd (m w)) = urlCache w.

(* ===================================================================== *)
(** ** Sample worlds                                                      *)
(* ===================================================================== *)

(** A world with nothing in it: no key, empty caches, a dead network. *)
Definition empty_world : World :=
  mkWorld None 0 [] ∅ ∅ ∅ [] []
          (fun _ _ => {| elapsed := 0; arrived := None |}).

(** The URL cache after three distinct images went through the proxy
    builder, one after the other. *)
Definition three_entries : World :=
  snd ((ImageUtils.getProxiedImageUrl (Some "a") ;;
        ImageUtils.getProxiedImageUrl (Some "b") ;;
        ImageUtils.getProxiedImageUrl (Some "c")) empty_world).

(** An entity with an identifier, a name and the given type tags, and
    nothing else. *)
Definition bare_entity (id : string) (types : option (list string))
  : KnowledgeGraphEntity :=
  {| ent_id := id; ent_name := "X"; ent_type := types;
     ent_description := None; ent_detailedDescription := None;
     ent_image := None; ent_url := None |}.

(** An entity the Knowledge Graph knows: a Freebase id in its ["@id"],
    no Wikidata id, no image. *)
Definition miku : KnowledgeGraphEntity :=
  {| ent_id := "kg:/m/0dl567"; ent_name := "Hatsune Miku";
     ent_type := Some ["Thing"; "MusicGroup"];
     ent_description := Some "Virtual singer"; ent_detailedDescription := None;
     ent_image := None; ent_url := None |}.

(** A 2xx reply with the given JSON body, after 20 ms. *)
Definition ok_reply (body : Body) : Reply :=
  {| elapsed := 20;
     arrived := Some {| ok := true; statusText := "OK"; json := Some body |} |}.

(** A 503 reply, after 20 ms. *)
Definition unavailable : Reply :=
  {| elapsed := 20;
     arrived := Some {| ok := false; statusText := "Service Unavailable";
                        json := None |} |}.

Definition kg_search_miku : string :=
  "https://kgsearch.googleapis.com/v1/entities:search?query=miku&key=KEY&limit=1&indent=true&languages=ja,en".

(** A world with an API key whose network answers the search for
    ["miku"] with two items, the second without a result, and every other
    request with a 503. *)
Definition kg_world : World :=
  mkWorld (Some "KEY") 1000 [] ∅ ∅ ∅ [] []
    (fun _ url =>
       if String.eqb url kg_search_miku then
         ok_reply {| itemListElement := Some [Some {| result := Some miku |};
                                              Some {| result := None |}];
                     b_query := None |}
       else unavailable).

Definition three_results : list SearchResult :=
  [ {| sr_pageid := 1; sr_title := "A" |};
    {| sr_pageid := 2; sr_title := "B" |};
    {| sr_pageid := 3; sr_title := "C" |} ].

Definition pages_reply (key : string) (page : WikiPage) : Reply :=
  ok_reply {| itemListElement := None;
              b_query := Some {| search := None;
                                 pages := Some {[ key := page ]} |} |}.

Definition page1 : WikiPage :=
  {| pageid := 1; title := "A"; extract := Some "First page.";
     thumbnail := Some {| source := Some "https://upload.example/1.png" |} |}.

(** A page whose thumbnail object carries no [source]. *)
Definition page3 : WikiPage :=
  {| pageid := 3; title := "C"; extract := None;
     thumbnail := Some {| source := None |} |}.

(** A Wikipedia that finds three pages for every search, serves the
    first and the third of them and a page filed under the key
    ["0dl567"], and answers every other request with a 503. *)
Definition wiki_network (i : nat) (url : string) : Reply :=
  if JsString.includes url "list=search" then
    ok_reply {| itemListElement := None;
                b_query := Some {| search := Some three_results; pages := None |} |}
  else if JsString.includes url "pageids=1&" then pages_reply "1" page1
  else if JsString.includes url "pageids=3&" then pages_reply "3" page3
  else if JsString.includes url "pageids=0dl567&" then pages_reply "0dl567" page1
  else unavailable.

Definition wiki_world : World :=
  mkWorld None 1000 [] ∅ ∅ ∅ [] [] wiki_network.

(** The world after a first search for ["miku"], at a later time [t]. *)
Definition searched_at (t : Z) : World :=
  with_clock t (snd (Wikipedia.searchWikipedia "miku" None wiki_world)).

(* ===================================================================== *)
(** ** Notions for the URL cache                                          *)
(* ===================================================================== *)

(** A call of one of the four URL builders of image-utils. *)
Inductive BuilderCall :=
| Proxied (originalUrl : option string)
| TMDb (path : option string) (size : option string)
| Spotify (images : option (list ImageElem))
| WikipediaImage (entityId : option string).

Definition call (b : BuilderCall) : Js string :=
  match b with
  | Proxied originalUrl => ImageUtils.getProxiedImageUrl originalUrl
  | TMDb path size => ImageUtils.getTMDbImageUrl path size
  | Spotify images => ImageUtils.getSpotifyImageUrl images
  | WikipediaImage entityId => ImageUtils.getWikipediaImageUrl entityId
  end.

(** The URL the proxy builder computes for [url] on a miss. *)
Definition proxied (url : string) : string :=
  "/api/image-proxy?url=" +:+ JsString.encodeURIComponent url.

(** The Wikimedia Commons URL [getWikipediaImageUrl] builds for an id. *)
Definition commons (entityId : string) : string :=
  "https://commons.wikimedia.org/wiki/Special:FilePath/" +:+ entityId
  +:+ "?width=800".

(** What the builders maintain about [urlCache]: the keys are distinct,
    and an entry under a proxy, Spotify or Wikipedia key holds the URL
    that the builder of that key computes. *)
Definition cache_ok (m : JsMap.t string) : Prop :=
  NoDup (JsMap.keys m) /\
  forall k v,
    JsMap.get k m = Some v ->
    (forall u, k = "proxy_" +:+ u -> v = proxied u) /\
    (forall u, k = "spotify_" +:+ u -> v = u) /\
    (forall id, k = "wiki_" +:+ id -> v = proxied (commons id)).

(** Like [kg_world], with a network that gives the answer of the search
    for ["miku"] to every request. *)
Definition kg_world_any : World :=
  mkWorld (Some "KEY") 1000 [] ∅ ∅ ∅ [] []
    (fun _ _ =>
       ok_reply {| itemListElement := Some [Some {| result := Some miku |};
                                            Some {| result := None |}];
                   b_query := None |}).

(* ===================================================================== *)
(** ** Notions for the Knowledge Graph client                             *)
(* ===================================================================== *)

(** Every character of [s] is in the class [cls]. *)
Fixpoint all_chars (cls : ascii -> bool) (s : string) : bool :=
  match s with
  | EmptyString => true
  | String c s' => cls c && all_chars cls s'
  end.

(** [s] starts with a character of the class [cls]. *)
Definition starts_in (cls : ascii -> bool) (s : string) : bool :=
  match s with
  | EmptyString => false
  | String c _ => cls c
  end.

Definition not_space (c : ascii) : bool := negb (Ascii.eqb c " ").

(** One type tag, lower-cased, contains one of the keywords. *)
Definition tag_matches (keywords : list string) (tag : string) : bool :=
  existsb (JsString.includes (JsString.toLowerCase tag)) keywords.

(** Some type tag of the list matches the keyword group. *)
Definition some_tag_matches (keywords : list string) (types : list string) : bool :=
  existsb (tag_matches keywords) types.

(** An entity with a canonical URL, an image whose [contentUrl] is empty
    and whose [url] is not, and a tag that is only a namespace prefix. *)
Definition miku_with_image : KnowledgeGraphEntity :=
  {| ent_id := "kg:/m/0dl567"; ent_name := "Hatsune Miku";
     ent_type := Some ["schema:Thing"; "MusicGroup"; "x:"];
     ent_description := None; ent_detailedDescription := None;
     ent_image := Some {| img_contentUrl := Some "";
                          img_url := Some "https://img.example/m.png" |};
     ent_url := Some "https://miku.example" |}.

(** The world after a first fetch of the content of page 1, at a later
    time [t]. *)
Definition fetched_at (t : Z) : World :=
  with_clock t (snd (Wikipedia.getWikipediaContent (NumId 1) wiki_world)).

(** A Wikipedia that answers every request with a reply holding page 1
    only, whatever page was asked for. *)
Definition wrong_page_world : World :=
  mkWorld None 1000 [] ∅ ∅ ∅ [] [] (fun _ _ => pages_reply "1" page1).

(** The same world, with a network on which every [fetch] rejects. *)
Definition offline (w : World) : World :=
  mkWorld (env_apiKey w) (clock w) (urlCache w) (kg_searchCache w)
          (wp_searchCache w) (wp_contentCache w) (requests w) (console w)
          (fun _ _ => {| elapsed := 0; arrived := None |}).

(** A Wikipedia whose search finds the same page twice. *)
Definition twice_world : World :=
  mkWorld None 1000 [] ∅ ∅ ∅ [] []
    (fun _ url =>
       if JsString.includes url "list=search" then
         ok_reply {| itemListElement := None;
                     b_query := Some {| search := Some [ {| sr_pageid := 1; sr_title := "A" |};
                                                          {| sr_pageid := 1; sr_title := "A" |} ];
                                        pages := None |} |}
       else pages_reply "1" page1).

(** A page with a Japanese extract of 73 characters (219 bytes of
    UTF-8). *)
Definition page_ja : WikiPage :=
  {| pageid := 9; title := "初音ミク";
     extract := Some "初音ミクは、クリプトン・フューチャー・メディアから発売されている音声合成・デスクトップミュージック用のボーカル音源、およびそのキャラクターである。";
     thumbnail := None |}.

(** After the prefix [pre] of [s] comes the literal [lit] and then a
    character of the class [cls]: the regular expression [lit(cls+)]
    matches at that place. *)
Definition occurs_at (lit : string) (cls : ascii -> bool) (s pre : string) : Prop :=
  exists c rest, cls c = true /\ s = pre +:+ lit +:+ String c rest.

(** [g] is the group of the leftmost match of [lit(cls+)] in [s]: the
    longest run of characters of the class after the literal, at the
    first place where the expression matches. *)
Definition leftmost_group (lit : string) (cls : ascii -> bool) (s g : string) : Prop :=
  exists pre rest,
    s = pre +:+ lit +:+ g +:+ rest /\
    g <> "" /\ all_chars cls g = true /\ starts_in cls rest = false /\
    forall pre', occurs_at lit cls s pre' ->
                 (String.length pre <= String.length pre')%nat.

(** The same entity under its Wikidata identifier. *)
Definition miku_wikidata : KnowledgeGraphEntity :=
  {| ent_id := "http://www.wikidata.org/entity/Q552863"; ent_name := "Hatsune Miku";
     ent_type := Some ["Thing"; "MusicGroup"];
     ent_description := Some "Virtual singer"; ent_detailedDescription := None;
     ent_image := None; ent_url := None |}.

(** An entity whose identifier holds neither kind of id. *)
Definition anonymous_entity : KnowledgeGraphEntity :=
  {| ent_id := "kg:/g/11b6"; ent_name := "Hatsune Miku";
     ent_type := Some ["Thing"]; ent_description := None;
     ent_detailedDescription := None; ent_image := None; ent_url := None |}.

(** Every character of [s] has all the bytes of its UTF-8 encoding, [copy]
    bytes of the current character being still to come: no character is
    cut short by the end of the string. *)
Fixpoint utf8_complete (copy : nat) (s : string) : bool :=
  match s with
  | EmptyString => Nat.eqb copy 0
  | String c s' =>
      match copy with
      | S k => utf8_complete k s'
      | O => utf8_complete (fst (JsString.utf8_width c) - 1) s'
      end
  end.

(* ===================================================================== *)
(** * Properties                                                          *)
(* ===================================================================== *)

(** ** The monad *)

Lemma bind_returned {A B} (m : Js A) (k : A -> Js B) w a w' :
  m w = (Returned a, w') -> bind m k w = k a w'.
Proof. intros H. unfold bind. now rewrite H. Qed.

Lemma bind_thrown {A B} (m : Js A) (k : A -> Js B) w e w' :
  m w = (Thrown e, w') -> bind m k w = (Thrown e, w').
Proof. intros H. unfold bind. now rewrite H. Qed.

Lemma try_catch_returned {A} (m : Js A) h w a w' :
  m w = (Returned a, w') -> try_catch m h w = (Returned a, w').
Proof. intros H. unfold try_catch. now rewrite H. Qed.

Lemma try_catch_thrown {A} (m : Js A) h w e w' :
  m w = (Thrown e, w') -> try_catch m h w = h e w'.
Proof. intros H. unfold try_catch. now rewrite H. Qed.

Lemma returns_ret {A} (a : A) : returns (ret a).
Proof. intros w. now exists a, w. Qed.

Lemma returns_bind {A B} (m : Js A) (k : A -> Js B) :
  returns m -> (forall a, returns (k a)) -> returns (bind m k).
Proof.
  intros Hm Hk w. destruct (Hm w) as (a & w1 & E).
  destruct (Hk a w1) as (b & w2 & E2).
  exists b, w2. now rewrite (bind_returned _ _ _ _ _ E).
Qed.

Lemma returns_try_catch {A} (m : Js A) h :
  (forall e, returns (h e)) -> returns (try_catch m h).
Proof.
  intros Hh w. unfold try_catch.
  destruct (m w) as [[a | e] w1]; [now exists a, w1 | apply Hh].
Qed.

Lemma returns_mapM {A B} (f : A -> Js B) (xs : list A) :
  (forall x, returns (f x)) -> returns (mapM f xs).
Proof.
  intros Hf. induction xs as [| x xs IH]; simpl.
  - apply returns_ret.
  - apply returns_bind; [apply Hf |]. intros y.
    apply returns_bind; [apply IH |]. intros ys. apply returns_ret.
Qed.


(** ** The ordered map *)

Module JsMapFacts.

Lemma has_get {V} (k : string) (m : JsMap.t V) :
  JsMap.has k m = true <-> exists v, JsMap.get k m = Some v.
Proof.
  unfold JsMap.has. destruct (JsMap.get k m) as [v |].
  - split; [eauto | auto].
  - split; [discriminate | intros [v H]; discriminate].
Qed.

Lemma has_keys {V} (k : string) (m : JsMap.t V) :
  JsMap.has k m = true <-> In k (JsMap.keys m).
Proof.
  unfold JsMap.has. induction m as [| [k' v] m IH]; simpl.
  - split; [discriminate | tauto].
  - destruct (String.eqb_spec k k') as [-> | Hne].
    + split; auto.
    + rewrite IH. split; [auto | intros [E | H]; [congruence | exact H]].
Qed.

Lemma keys_set {V} (k : string) (v : V) (m : JsMap.t V) :
  JsMap.keys (JsMap.set k v m) =
  if JsMap.has k m then JsMap.keys m else (JsMap.keys m ++ [k])%list.
Proof.
  unfold JsMap.has. induction m as [| [k' v'] m IH]; simpl; [reflexivity |].
  destruct (String.eqb_spec k k') as [-> | Hne]; simpl; [reflexivity |].
  rewrite IH. now destruct (JsMap.get k m).
Qed.

(** [set] keeps the keys distinct, as a [Map] does. *)
Lemma set_NoDup {V} (k : string) (v : V) (m : JsMap.t V) :
  NoDup (JsMap.keys m) -> NoDup (JsMap.keys (JsMap.set k v m)).
Proof.
  intros H. rewrite keys_set. destruct (JsMap.has k m) eqn:E; [exact H |].
  apply NoDup_app. split; [exact H |]. split.
  - intros x Hx [-> | []]%list_elem_of_In. apply list_elem_of_In in Hx.
    apply has_keys in Hx. congruence.
  - apply NoDup_singleton.
Qed.

Lemma delete_head {V} (k : string) (v : V) (rest : JsMap.t V) :
  JsMap.delete k ((k, v) :: rest) = rest.
Proof. simpl. now rewrite String.eqb_refl. Qed.

Lemma head_not_in_rest {V} (k : string) (v : V) (rest : JsMap.t V) :
  NoDup (JsMap.keys ((k, v) :: rest)) -> JsMap.has k rest = false.
Proof.
  intros H. apply NoDup_cons in H as [Hnin _].
  destruct (JsMap.has k rest) eqn:E; [| reflexivity].
  apply has_keys in E. exfalso. apply Hnin. now apply list_elem_of_In.
Qed.

Lemma get_nonempty (k : string) (m : JsMap.t string) v :
  nonempty_values m -> JsMap.get k m = Some v -> v <> "".
Proof.
  unfold nonempty_values. induction m as [| [k' v'] m IH]; simpl; [discriminate |].
  intros H. apply Forall_cons in H as [Hv Hm].
  destruct (String.eqb k k'); [intros [= <-]; exact Hv | now apply IH].
Qed.

Lemma set_nonempty (k v : string) (m : JsMap.t string) :
  v <> "" -> nonempty_values m -> nonempty_values (JsMap.set k v m).
Proof.
  unfold nonempty_values. intros Hv. induction m as [| [k' v'] m IH]; simpl.
  - intros _. now repeat constructor.
  - intros H. apply Forall_cons in H as [Hv' Hm].
    destruct (String.eqb k k'); constructor; simpl; auto.
Qed.

End JsMapFacts.

(** ** The URL cache and the URL builders *)

Section ImageUtilsFacts.
Import ImageUtils JsMapFacts.

Lemma cached_spec (cacheKey fresh : string) (w : World) :
  exists u w',
    cached cacheKey fresh w = (Returned u, w') /\
    (JsMap.get cacheKey (urlCache w) = Some u /\ w' = w \/
     JsMap.has cacheKey (urlCache w) = false /\ u = fresh /\
     w' = with_urlCache (JsMap.set cacheKey fresh (urlCache w)) w).
Proof.
  unfold cached, bind, gets, urlCache_set, modify, ret. simpl.
  destruct (JsMap.has cacheKey (urlCache w)) eqn:E.
  - apply has_get in E as [v Hv]. exists v, w. rewrite Hv. simpl. auto.
  - exists fresh, (with_urlCache (JsMap.set cacheKey fresh (urlCache w)) w). auto.
Qed.

Lemma cached_nonempty (cacheKey fresh : string) (w : World) :
  nonempty_values (urlCache w) -> fresh <> "" ->
  exists u w',
    cached cacheKey fresh w = (Returned u, w') /\ u <> "" /\
    nonempty_values (urlCache w').
Proof.
  intros Hinv Hfresh.
  destruct (cached_spec cacheKey fresh w) as (u & w' & E & [[Hg ->] | (_ & -> & ->)]).
  - exists u, w. eauto using get_nonempty.
  - eexists _, _. split; [exact E |]. split; [exact Hfresh |].
    simpl. now apply set_nonempty.
Qed.

(** The builders keep the keys of the cache distinct. *)
Lemma cached_NoDup (cacheKey fresh : string) (w : World) :
  NoDup (JsMap.keys (urlCache w)) ->
  NoDup (JsMap.keys (urlCache (snd (cached cacheKey fresh w)))).
Proof.
  intros Hnd.
  destruct (cached_spec cacheKey fresh w) as (u & w' & -> & [[_ ->] | (_ & _ & ->)]).
  - exact Hnd.
  - simpl. now apply set_NoDup.
Qed.

Lemma append_nonempty (a b : string) : a <> "" -> a +:+ b <> "".
Proof. destruct a; [congruence | discriminate]. Qed.

(** On the well-formed strings of the model the proxy builder returns,
    and its URL is not empty as long as the cache holds no empty URL,
    which it then still does not. *)
Lemma getProxiedImageUrl_total (originalUrl : option string) (w : World) :
  nonempty_values (urlCache w) ->
  exists u w',
    getProxiedImageUrl originalUrl w = (Returned u, w') /\ u <> "" /\
    nonempty_values (urlCache w').
Proof.
  intros Hinv. unfold getProxiedImageUrl.
  destruct originalUrl as [[| c s] |];
    try (exists placeholder, w; repeat split; [discriminate | exact Hinv]).
  apply cached_nonempty; [exact Hinv | discriminate].
Qed.

Lemma getTMDbImageUrl_total (path size : option string) (w : World) :
  nonempty_values (urlCache w) ->
  exists u w',
    getTMDbImageUrl path size w = (Returned u, w') /\ u <> "" /\
    nonempty_values (urlCache w').
Proof.
  intros Hinv. unfold getTMDbImageUrl.
  destruct path as [[| c s] |];
    try (exists placeholder, w; repeat split; [discriminate | exact Hinv]).
  apply cached_nonempty; [exact Hinv | discriminate].
Qed.

Lemma getWikipediaImageUrl_total (entityId : option string) (w : World) :
  nonempty_values (urlCache w) ->
  exists u w',
    getWikipediaImageUrl entityId w = (Returned u, w') /\ u <> "" /\
    nonempty_values (urlCache w').
Proof.
  intros Hinv. unfold getWikipediaImageUrl.
  destruct entityId as [[| c s] |];
    try (exists placeholder, w; repeat split; [discriminate | exact Hinv]).
  apply cached_nonempty; [exact Hinv | discriminate].
Qed.

(** The Spotify builder is total as soon as the first element of the
    array is an object. *)
Lemma getSpotifyImageUrl_object_total (url : option string)
  (rest : list ImageElem) (w : World) :
  nonempty_values (urlCache w) ->
  exists u w',
    getSpotifyImageUrl (Some (ElObject url :: rest)) w = (Returned u, w') /\
    u <> "" /\ nonempty_values (urlCache w').
Proof.
  intros Hinv. unfold getSpotifyImageUrl.
  destruct url as [[| c s] |];
    try (exists placeholder, w; repeat split; [discriminate | exact Hinv]).
  apply cached_nonempty; [exact Hinv | discriminate].
Qed.

End ImageUtilsFacts.

Section LimitCacheSize.
Import ImageUtils JsMapFacts.

Lemma limitCacheSize_run (maxSize : option Z) (w : World) :
  limitCacheSize maxSize w =
  (Returned tt,
   if JsMap.size (urlCache w) >? default 100 maxSize
   then with_urlCache (tail (urlCache w)) w
   else w).
Proof.
  unfold limitCacheSize, bind, gets, modify, ret. simpl.
  destruct (JsMap.size (urlCache w) >? default 100 maxSize); [| reflexivity].
  destruct w as [k c u kg ws wc rq co nw]. simpl.
  destruct u as [| [k0 v0] rest]; simpl; [reflexivity |].
  now rewrite String.eqb_refl.
Qed.

(** C1, as the code has it.  One call of [limitCacheSize] on a cache that
    holds more than [maxSize] entries deletes the first entry in iteration
    order, and only that one (an empty cache has none to delete); on a
    cache within [maxSize] it changes nothing.  It does not go on until the
    size is [maxSize].  So [limitCacheSize(1)] on a cache of three entries
    leaves two entries, and the first one inserted is not among them. *)
Theorem limitCacheSize_deletes_one (maxSize : option Z) (w : World) :
  NoDup (JsMap.keys (urlCache w)) ->
  exists w',
    limitCacheSize maxSize w = (Returned tt, w') /\
    (JsMap.size (urlCache w) <= default 100 maxSize -> w' = w) /\
    (JsMap.size (urlCache w) > default 100 maxSize ->
       w' = with_urlCache (tail (urlCache w)) w /\
       forall k v rest,
         urlCache w = (k, v) :: rest ->
         urlCache w' = rest /\
         JsMap.size (urlCache w') = JsMap.size (urlCache w) - 1 /\
         JsMap.has k (urlCache w') = false) /\
    (maxSize = Some 1 -> JsMap.size (urlCache w) = 3 ->
       JsMap.size (urlCache w') = 2 /\
       forall k, head (JsMap.keys (urlCache w)) = Some k ->
                 JsMap.has k (urlCache w') = false).
Proof.
  intros Hnd. eexists. split; [apply limitCacheSize_run |].
  assert (Hdel : forall k v rest,
             urlCache w = (k, v) :: rest ->
             urlCache (with_urlCache (tail (urlCache w)) w) = rest /\
             JsMap.size (urlCache (with_urlCache (tail (urlCache w)) w))
             = JsMap.size (urlCache w) - 1 /\
             JsMap.has k (urlCache (with_urlCache (tail (urlCache w)) w)) = false).
  { intros k v rest E. simpl. rewrite E in *. simpl tail.
    split; [reflexivity |]. split.
    - unfold JsMap.size. simpl List.length. lia.
    - now apply head_not_in_rest with v. }
  split; [| split].
  - intros Hle. destruct (Z.gtb_spec (JsMap.size (urlCache w)) (default 100 maxSize));
      [lia | reflexivity].
  - intros Hgt. destruct (Z.gtb_spec (JsMap.size (urlCache w)) (default 100 maxSize));
      [| lia]. split; [reflexivity | exact Hdel].
  - intros -> H3. simpl default. rewrite H3. simpl.
    destruct (urlCache w) as [| [k0 v0] rest] eqn:E; [discriminate |].
    destruct (Hdel k0 v0 rest eq_refl) as (Hr & Hs & Hh).
    split; [unfold JsMap.size in *; simpl in *; lia |].
    intros k [= <-]. exact Hh.
Qed.

Lemma limitCacheSize_deletes_one_witness :
  NoDup (JsMap.keys (urlCache three_entries)) /\
  exists w',
    limitCacheSize (Some 1) three_entries = (Returned tt, w') /\
    JsMap.keys (urlCache w') = ["proxy_b"; "proxy_c"].
Proof.
  assert (Hnd : NoDup (JsMap.keys (urlCache three_entries))).
  { apply (bool_decide_unpack _). vm_compute. reflexivity. }
  split; [exact Hnd |].
  destruct (limitCacheSize_deletes_one (Some 1) three_entries Hnd)
    as (w' & Hrun & _ & Hgt & _).
  exists w'. split; [exact Hrun |].
  destruct Hgt as [-> _]; [vm_compute; reflexivity |]. reflexivity.
Defined.

(** C1, as the claim states it, fails: after [limitCacheSize(1)] a cache
    of three entries holds two entries, not one. *)
Lemma limitCacheSize_three_entries_counterexample :
  JsMap.size (urlCache three_entries) = 3 /\
  JsMap.size (urlCache (snd (limitCacheSize (Some 1) three_entries))) = 2 /\
  JsMap.size (urlCache (snd (limitCacheSize (Some 1) three_entries))) <> 1.
Proof. vm_compute. repeat split; discriminate. Qed.

End LimitCacheSize.

Section SpotifyBuilder.
Import ImageUtils.

(** C4 fails at the Spotify builder.  The guard of [getSpotifyImageUrl]
    covers an absent array, an empty array and a first element without
    [url]; a first element that is [null] or [undefined] is read through
    [images[0].url] all the same, and the call throws a [TypeError]. *)
Theorem getSpotifyImageUrl_null_first_throws (rest : list ImageElem) (w : World) :
  (exists msg, getSpotifyImageUrl (Some (ElNull :: rest)) w = (Thrown (TypeError msg), w)) /\
  (exists msg, getSpotifyImageUrl (Some (ElUndefined :: rest)) w = (Thrown (TypeError msg), w)).
Proof. split; eexists; reflexivity. Qed.

End SpotifyBuilder.

(** ** Strings *)

Module JsStringFacts.
Import JsString.

Lemma startsWith_app (t b : string) : startsWith t (t +:+ b) = true.
Proof.
  induction t as [| c t IH]; simpl; [reflexivity |].
  now rewrite Ascii.eqb_refl, IH.
Qed.

Lemma includes_app (a t b : string) : includes (a +:+ t +:+ b) t = true.
Proof.
  induction a as [| c a IH]; simpl.
  - destruct (t +:+ b) eqn:E; simpl; rewrite <- E, startsWith_app; reflexivity.
  - rewrite IH. apply orb_true_r.
Qed.

Lemma app_cons (x : ascii) (a b : string) : String x a +:+ b = String x (a +:+ b).
Proof. reflexivity. Qed.

Lemma app_assoc (a b c : string) : (a +:+ b) +:+ c = a +:+ b +:+ c.
Proof.
  induction a as [| x a IH]; [reflexivity |].
  rewrite !app_cons. f_equal. exact IH.
Qed.

Lemma app_empty_r (a : string) : a +:+ "" = a.
Proof.
  induction a as [| x a IH]; [reflexivity |].
  rewrite app_cons. f_equal. exact IH.
Qed.

Lemma startsWith_prefix (t s : string) :
  startsWith t s = true -> exists b, s = t +:+ b.
Proof.
  revert s. induction t as [| c t IH]; intros s H.
  - exists s. reflexivity.
  - destruct s as [| x s]; [discriminate |]. cbn [startsWith] in H.
    apply andb_prop in H as [Hc Ht]. apply Ascii.eqb_eq in Hc as ->.
    destruct (IH s Ht) as (b & ->). exists b. reflexivity.
Qed.

(** [s.includes(t)] says that [t] occurs in [s]. *)
Lemma includes_contains (s t : string) :
  includes s t = true <-> exists a b, s = a +:+ t +:+ b.
Proof.
  split.
  - induction s as [| c s IH]; cbn [includes]; intros H.
    + rewrite orb_false_r in H. destruct (startsWith_prefix _ _ H) as (b & E).
      exists "", b. exact E.
    + apply orb_prop in H as [H | H].
      * destruct (startsWith_prefix _ _ H) as (b & E). exists "", b. exact E.
      * destruct (IH H) as (a & b & ->). exists (String c a), b. reflexivity.
  - intros (a & b & ->). apply includes_app.
Qed.

Lemma toLowerCase_unfold (s : string) :
  toLowerCase s =
  match s with
  | EmptyString => EmptyString
  | String c1 s1 =>
      match s1 with
      | EmptyString => String (lower_ascii c1) EmptyString
      | String c2 s2 =>
          if is_dotted_I c1 c2 then
            String "i" (String (ascii_of_N 204) (String (ascii_of_N 135)
                                                   (toLowerCase s2)))
          else
            match s2 with
            | EmptyString => String (lower_ascii c1) (toLowerCase s1)
            | String c3 s3 =>
                if is_kelvin c1 c2 c3 then String "k" (toLowerCase s3)
                else String (lower_ascii c1) (toLowerCase s1)
            end
      end
  end.
Proof. destruct s as [| c1 [| c2 [| c3 s3]]]; reflexivity. Qed.

Lemma not_dotted_space (c : ascii) : is_dotted_I c " " = false.
Proof. unfold is_dotted_I. apply andb_false_r. Qed.

Lemma not_kelvin_space2 (c c3 : ascii) : is_kelvin c " " c3 = false.
Proof. unfold is_kelvin. now rewrite andb_false_r. Qed.

Lemma not_kelvin_space3 (c1 c2 : ascii) : is_kelvin c1 c2 " " = false.
Proof. unfold is_kelvin. apply andb_false_r. Qed.

(** A space is lower-cased on its own. *)
Lemma toLowerCase_space_cons (s : string) :
  toLowerCase (String " " s) = String " " (toLowerCase s).
Proof.
  rewrite (toLowerCase_unfold (String " " s)).
  destruct s as [| c2 [| c3 s3]]; reflexivity.
Qed.

Lemma toLowerCase_space_aux (n : nat) :
  forall a b, (String.length a <= n)%nat ->
    toLowerCase (a +:+ String " " b)
    = toLowerCase a +:+ String " " (toLowerCase b).
Proof.
  induction n as [| n IH]; intros a b Hlen.
  - destruct a; [| cbn in Hlen; lia]. apply toLowerCase_space_cons.
  - destruct a as [| c1 [| c2 a2]].
    + apply toLowerCase_space_cons.
    + change (String c1 "" +:+ String " " b) with (String c1 (String " " b)).
      rewrite (toLowerCase_unfold (String c1 (String " " b))). cbv beta iota.
      rewrite not_dotted_space.
      change (toLowerCase (String c1 "")) with (String (lower_ascii c1) "").
      rewrite app_cons. change ("" +:+ String " " (toLowerCase b))
        with (String " " (toLowerCase b)).
      rewrite <- toLowerCase_space_cons.
      destruct b as [| c3 s3]; [reflexivity | now rewrite not_kelvin_space2].
    + cbn [String.length] in Hlen.
      change (String c1 (String c2 a2) +:+ String " " b)
        with (String c1 (String c2 (a2 +:+ String " " b))).
      rewrite (toLowerCase_unfold (String c1 (String c2 (a2 +:+ String " " b)))).
      rewrite (toLowerCase_unfold (String c1 (String c2 a2))). cbv beta iota.
      destruct (is_dotted_I c1 c2).
      * rewrite (IH a2 b) by lia. reflexivity.
      * destruct a2 as [| c3 a3].
        -- change ("" +:+ String " " b) with (String " " b). cbv beta iota.
           rewrite not_kelvin_space3.
           change (String c2 (String " " b)) with (String c2 "" +:+ String " " b).
           rewrite (IH (String c2 "") b) by (cbn; lia). reflexivity.
        -- change (String c3 a3 +:+ String " " b)
             with (String c3 (a3 +:+ String " " b)).
           cbn [String.length] in Hlen. cbv beta iota.
           destruct (is_kelvin c1 c2 c3).
           ++ rewrite (IH a3 b) by lia. reflexivity.
           ++ change (String c2 (String c3 (a3 +:+ String " " b)))
                with (String c2 (String c3 a3) +:+ String " " b).
              rewrite (IH (String c2 (String c3 a3)) b) by (cbn; lia). reflexivity.
Qed.

(** Lower-casing never reads across a space. *)
Lemma toLowerCase_space (a b : string) :
  toLowerCase (a +:+ String " " b) = toLowerCase a +:+ String " " (toLowerCase b).
Proof. now apply (toLowerCase_space_aux (String.length a)). Qed.

Lemma toLowerCase_join (tags : list string) :
  toLowerCase (join " " tags) = join " " (map toLowerCase tags).
Proof.
  induction tags as [| x [| y r] IH]; [reflexivity | reflexivity |].
  change (join " " (x :: y :: r)) with (x +:+ String " " (join " " (y :: r))).
  rewrite toLowerCase_space, IH. reflexivity.
Qed.

(** An element of a joined list is a substring of the result. *)
Lemma join_In (sep x : string) (xs : list string) :
  In x xs -> exists a b, join sep xs = a +:+ x +:+ b.
Proof.
  induction xs as [| y ys IH]; [intros [] |].
  intros [-> | Hin].
  - destruct ys as [| z zs].
    + exists "", "". simpl. now rewrite app_empty_r.
    + exists "", (sep +:+ join sep (z :: zs)). reflexivity.
  - destruct (IH Hin) as (a & b & E).
    destruct ys as [| z zs]; [destruct Hin |].
    exists (y +:+ sep +:+ a), b.
    change (join sep (y :: z :: zs)) with (y +:+ sep +:+ join sep (z :: zs)).
    now rewrite E, !app_assoc.
Qed.

(** A tag of the list shows, lower-cased, in the lower-cased join. *)
Lemma includes_lower_join (x : string) (xs : list string) :
  In x xs -> includes (toLowerCase (join " " xs)) (toLowerCase x) = true.
Proof.
  intros Hin. rewrite toLowerCase_join.
  destruct (join_In " " (toLowerCase x) (map toLowerCase xs)) as (a & b & ->).
  - now apply in_map.
  - apply includes_app.
Qed.

End JsStringFacts.

(** ** Categories *)

Section DetermineCategory.
Import KnowledgeGraph JsString JsStringFacts.

Lemma includes_any_contains (typeStr : string) (keywords : list string) :
  includes_any typeStr keywords = true <-> contains_one_of typeStr keywords.
Proof.
  unfold includes_any, contains_one_of, contains. rewrite existsb_exists.
  split; intros (k & Hin & H); exists k; (split; [exact Hin |]);
    now apply includes_contains.
Qed.

(** C6.  [determineCategory] is a total function of the type tags alone;
    it answers ["celebrities"] on absent or empty tags and ["artists"] on
    tags that hold both ["MusicGroup"] and ["Actor"].  With the tags
    joined by spaces and lower-cased, the keyword groups are tried in the
    order music, celebrity, media, fashion, and the first group of which
    a keyword occurs in that string decides; ["celebrities"] is the
    default. *)
Theorem determineCategory_first_match (entity : KnowledgeGraphEntity) :
  In (determineCategory entity) ["artists"; "celebrities"; "media"; "fashion"] /\
  (forall other, ent_type other = ent_type entity ->
                 determineCategory other = determineCategory entity) /\
  (ent_type entity = None \/ ent_type entity = Some [] ->
   determineCategory entity = "celebrities") /\
  (forall types, ent_type entity = Some types ->
                 In "MusicGroup" types -> In "Actor" types ->
                 determineCategory entity = "artists") /\
  (let typeStr := toLowerCase (join " " (default [] (ent_type entity))) in
   let music :=
     contains_one_of typeStr ["musician"; "artist"; "musicgroup"; "band"; "music"] in
   let celebrity :=
     contains_one_of typeStr
       ["actor"; "actress"; "celebrity"; "person"; "director"; "athlete"] in
   let media :=
     contains_one_of typeStr
       ["movie"; "tvshow"; "tvseries"; "book"; "game"; "videogame"; "anime"] in
   let fashion :=
     contains_one_of typeStr
       ["brand"; "clothing"; "fashion"; "organization"; "company"; "corporation"] in
   (music -> determineCategory entity = "artists") /\
   (~ music -> celebrity -> determineCategory entity = "celebrities") /\
   (~ music -> ~ celebrity -> media -> determineCategory entity = "media") /\
   (~ music -> ~ celebrity -> ~ media -> fashion ->
    determineCategory entity = "fashion") /\
   (~ music -> ~ celebrity -> ~ media -> ~ fashion ->
    determineCategory entity = "celebrities")).
Proof.
  split; [| split; [| split; [| split]]].
  - unfold determineCategory.
    repeat match goal with |- context [if ?b then _ else _] => destruct b end;
      simpl; tauto.
  - intros other E. unfold determineCategory, typeStr_of. now rewrite E.
  - intros [E | E]; unfold determineCategory, typeStr_of; rewrite E; reflexivity.
  - intros types E Hm _. unfold determineCategory.
    assert (H : includes_any (typeStr_of entity) music_keywords = true).
    { unfold includes_any, music_keywords, typeStr_of. rewrite E. simpl default.
      apply existsb_exists. exists "musicgroup". split; [simpl; tauto |].
      exact (includes_lower_join "MusicGroup" types Hm). }
    now rewrite H.
  - cbv zeta. unfold determineCategory, typeStr_of. cbv zeta.
    pose proof (includes_any_contains
                  (toLowerCase (join " " (default [] (ent_type entity))))
                  music_keywords) as Hmusic.
    pose proof (includes_any_contains
                  (toLowerCase (join " " (default [] (ent_type entity))))
                  celebrity_keywords) as Hcelebrity.
    pose proof (includes_any_contains
                  (toLowerCase (join " " (default [] (ent_type entity))))
                  media_keywords) as Hmedia.
    pose proof (includes_any_contains
                  (toLowerCase (join " " (default [] (ent_type entity))))
                  fashion_keywords) as Hfashion.
    unfold music_keywords, celebrity_keywords, media_keywords, fashion_keywords in *.
    repeat match goal with
           | H : includes_any ?s ?ks = true <-> _ |- _ => destruct (includes_any s ks)
           end;
      repeat split; intros; try reflexivity; exfalso;
      match goal with
      | H : ~ ?P, Hi : true = true <-> ?P |- _ =>
          solve [apply H; apply (proj1 Hi); reflexivity]
      | Hi : false = true <-> ?P, HP : ?P |- _ =>
          solve [apply (proj2 Hi) in HP; discriminate HP]
      end.
Qed.

Lemma determineCategory_first_match_witness :
  determineCategory (bare_entity "kg:/g/1" (Some ["MusicGroup"; "Actor"])) = "artists" /\
  determineCategory (bare_entity "kg:/g/1" None) = "celebrities" /\
  determineCategory (bare_entity "kg:/g/1" (Some ["Movie"])) = "media".
Proof.
  split; [| split].
  - destruct (determineCategory_first_match
                (bare_entity "kg:/g/1" (Some ["MusicGroup"; "Actor"])))
      as (_ & _ & _ & H & _).
    apply (H ["MusicGroup"; "Actor"]); simpl; auto.
  - destruct (determineCategory_first_match (bare_entity "kg:/g/1" None))
      as (_ & _ & H & _).
    apply H. left. reflexivity.
  - destruct (determineCategory_first_match (bare_entity "kg:/g/1" (Some ["Movie"])))
      as (_ & _ & _ & _ & H).
    cbv zeta in H. destruct H as (_ & _ & H & _).
    apply H.
    + intros Hm. apply includes_any_contains in Hm. discriminate Hm.
    + intros Hc. apply includes_any_contains in Hc. discriminate Hc.
    + exists "movie". split; [simpl; tauto |]. exists "", "". reflexivity.
Defined.

End DetermineCategory.

(** ** Knowledge Graph search *)

Section SearchEntities.
Import KnowledgeGraph JsString.

Lemma getApiKey_present (w : World) (apiKey : string) :
  env_apiKey w = Some apiKey -> apiKey <> "" ->
  getApiKey w = (Returned apiKey, w).
Proof.
  intros E Hne. unfold getApiKey, bind, gets. rewrite E.
  destruct apiKey; [congruence | reflexivity].
Qed.

Lemma getApiKey_missing (w : World) :
  truthy (env_apiKey w) = false ->
  getApiKey w = (Thrown missing_key_error, w).
Proof.
  intros E. unfold getApiKey, bind, gets.
  destruct (env_apiKey w) as [[| c s] |]; try reflexivity. discriminate.
Qed.

(** Reading the reply touches no state. *)
Lemma extract_entities_pure (data : Body) (w : World) :
  snd (extract_entities data w) = w.
Proof.
  unfold extract_entities. destruct (itemListElement data) as [items |]; [| reflexivity].
  unfold bind at 1.
  assert (H : forall w, snd (mapM (fun item : option ListItem =>
                match item with
                | Some item => ret (result item)
                | None =>
                    throw (TypeError "Cannot read properties of null (reading 'result')")
                end) items w) = w).
  { induction items as [| [it |] items IH]; intros w0; simpl; try reflexivity.
    unfold bind at 1. simpl. unfold bind at 1.
    specialize (IH w0). destruct (mapM _ items w0) as [[ys | e] w1]; simpl in *; now subst. }
  specialize (H w). destruct (mapM _ items w) as [[ys | e] w1]; simpl in *; now subst.
Qed.

Lemma extract_entities_ok (data : Body) (items : list ListItem) (w : World) :
  itemListElement data = Some (map Some items) ->
  extract_entities data w = (Returned (drop_null (map result items)), w).
Proof.
  intros E. unfold extract_entities. rewrite E. clear E.
  assert (H : forall w, mapM (fun item : option ListItem =>
                match item with
                | Some item => ret (result item)
                | None =>
                    throw (TypeError "Cannot read properties of null (reading 'result')")
                end) (map Some items) w = (Returned (map result items), w)).
  { induction items as [| it items IH]; intros w0; [reflexivity |].
    cbn [map mapM]. unfold bind at 1. cbn [ret].
    now rewrite (bind_returned _ _ _ _ _ (IH w0)). }
  now rewrite (bind_returned _ _ _ _ _ (H w)).
Qed.

(** What the [try] block does once the key is there, by the reply. *)
Lemma searchEntities_try_run (query : string) (types : list string) (limit : Z)
  (w : World) (apiKey : string) :
  env_apiKey w = Some apiKey -> apiKey <> "" ->
  let url := search_url query apiKey types limit in
  let r := network w (List.length (requests w)) url in
  let w1 := with_clock (clock w + elapsed r) (with_requests (requests w ++ [url]) w) in
  searchEntities_try query types limit w =
  match arrived r with
  | None => (Thrown (TypeError "fetch failed"), w1)
  | Some response =>
      if negb (ok response) then
        (Thrown (Error ("Failed to search entities: " +:+ statusText response)), w1)
      else
        match json response with
        | None => (Thrown (SyntaxError "Unexpected token in JSON"), w1)
        | Some data =>
            match fst (extract_entities data w1) with
            | Thrown e => (Thrown e, w1)
            | Returned entities =>
                (Returned entities,
                 with_kg_searchCache
                   (<[search_key query types limit := entities]> (kg_searchCache w1)) w1)
            end
        end
  end.
Proof.
  intros E Hne url r w1. unfold searchEntities_try.
  rewrite (bind_returned _ _ _ _ _ (getApiKey_present w apiKey E Hne)).
  unfold fetch, fetch_issue, fetch_await. unfold bind at 1. unfold bind at 1.
  simpl. fold url. fold r. fold w1.
  destruct (arrived r) as [response |]; [| reflexivity].
  destruct (ok response); simpl; [| reflexivity].
  unfold response_json. destruct (json response) as [data |]; [| reflexivity].
  unfold bind at 1. simpl. unfold bind at 1.
  pose proof (extract_entities_pure data w1) as Hp.
  destruct (extract_entities data w1) as [[entities | e] w2]; simpl in *; subst w2;
    reflexivity.
Qed.

(** A [try] block that throws has not written the cache. *)
Lemma searchEntities_try_thrown (query : string) (types : list string) (limit : Z)
  (w : World) e w1 :
  searchEntities_try query types limit w = (Thrown e, w1) ->
  kg_searchCache w1 = kg_searchCache w /\
  urlCache w1 = urlCache w /\ env_apiKey w1 = env_apiKey w.
Proof.
  destruct (truthy (env_apiKey w)) eqn:T.
  2: { unfold searchEntities_try.
       rewrite (bind_thrown _ _ _ _ _ (getApiKey_missing w T)).
       intros [= _ <-]; auto. }
  destruct (env_apiKey w) as [[| c s] |] eqn:E; try discriminate.
  assert (Hne : String c s <> "") by discriminate.
  rewrite (searchEntities_try_run query types limit w _ E Hne).
  cbv zeta. destruct (arrived _) as [response |]; [| intros [= _ <-]; auto].
  destruct (negb (ok response)); [intros [= _ <-]; auto |].
  destruct (json response) as [data |]; [| intros [= _ <-]; auto].
  destruct (fst (extract_entities data _)); [discriminate | intros [= _ <-]; auto].
Qed.

Lemma searchEntities_caught (query : string) (types : option (list string))
  (limit : option Z) (w : World) e w1 :
  kg_searchCache w !! search_key query (default [] types) (default 10 limit) = None ->
  searchEntities_try query (default [] types) (default 10 limit) w = (Thrown e, w1) ->
  searchEntities query types limit w =
  (Returned [],
   with_console (console w1 ++ ["Error searching entities: " +:+ error_message e]) w1).
Proof.
  intros Hmiss Hthrow. unfold searchEntities, bind at 1, gets. cbv zeta.
  rewrite Hmiss. now rewrite (try_catch_thrown _ _ _ _ _ Hthrow).
Qed.

(** C7.  On a cache miss, [searchEntities] returns [[]] and leaves the
    search cache as it was, with no entry under the key, whenever its
    [try] block throws: in particular when [fetch] rejects and when the
    response is not 2xx.  When the response is 2xx and carries a list of
    items, the results of the items, the falsy ones dropped, are stored
    under the key and returned. *)
Theorem searchEntities_atomic_on_failure (query : string)
  (types : option (list string)) (limit : option Z) (w : World) :
  kg_searchCache w !! search_key query (default [] types) (default 10 limit) = None ->
  (forall e w1,
     searchEntities_try query (default [] types) (default 10 limit) w = (Thrown e, w1) ->
     exists w',
       searchEntities query types limit w = (Returned [], w') /\
       kg_searchCache w' = kg_searchCache w /\
       kg_searchCache w' !! search_key query (default [] types) (default 10 limit) = None) /\
  (forall apiKey,
     env_apiKey w = Some apiKey -> apiKey <> "" ->
     let r := network w (List.length (requests w))
                (search_url query apiKey (default [] types) (default 10 limit)) in
     (arrived r = None \/
      (exists response, arrived r = Some response /\ ok response = false) ->
      exists w',
        searchEntities query types limit w = (Returned [], w') /\
        kg_searchCache w' = kg_searchCache w /\
        kg_searchCache w' !! search_key query (default [] types) (default 10 limit) = None) /\
     (forall response data items,
        arrived r = Some response -> ok response = true ->
        json response = Some data ->
        itemListElement data = Some (map Some items) ->
        exists w',
          searchEntities query types limit w
          = (Returned (drop_null (map result items)), w') /\
          kg_searchCache w'
          = <[search_key query (default [] types) (default 10 limit)
              := drop_null (map result items)]> (kg_searchCache w))).
Proof.
  intros Hmiss.
  assert (Hfail : forall e w1,
     searchEntities_try query (default [] types) (default 10 limit) w = (Thrown e, w1) ->
     exists w',
       searchEntities query types limit w = (Returned [], w') /\
       kg_searchCache w' = kg_searchCache w /\
       kg_searchCache w' !! search_key query (default [] types) (default 10 limit) = None).
  { intros e w1 Hthrow. eexists. split; [exact (searchEntities_caught _ _ _ _ _ _ Hmiss Hthrow) |].
    destruct (searchEntities_try_thrown _ _ _ _ _ _ Hthrow) as (Hc & _).
    simpl. rewrite Hc. auto. }
  split; [exact Hfail |].
  intros apiKey Hkey Hne r.
  pose proof (searchEntities_try_run query (default [] types) (default 10 limit)
                w apiKey Hkey Hne) as Hrun.
  cbv zeta in Hrun. fold r in Hrun. split.
  - intros [Hnone | (response & Hsome & Hok)].
    + rewrite Hnone in Hrun. exact (Hfail _ _ Hrun).
    + rewrite Hsome, Hok in Hrun. exact (Hfail _ _ Hrun).
  - intros response data items Hsome Hok Hjson Hitems.
    rewrite Hsome, Hok, Hjson in Hrun. cbn [negb] in Hrun.
    rewrite (extract_entities_ok data items _ Hitems) in Hrun. cbn [fst] in Hrun.
    eexists. split.
    + unfold searchEntities, bind at 1, gets. cbv zeta. rewrite Hmiss.
      exact (try_catch_returned _ _ _ _ _ Hrun).
    + reflexivity.
Qed.

Lemma searchEntities_atomic_on_failure_witness :
  kg_searchCache kg_world !! search_key "miku" [] 1 = None /\
  (exists w',
     searchEntities "miku" None (Some 1) kg_world = (Returned [miku], w') /\
     kg_searchCache w' !! search_key "miku" [] 1 = Some [miku]) /\
  (exists w',
     searchEntities "down" None (Some 1) kg_world = (Returned [], w') /\
     kg_searchCache w' = kg_searchCache kg_world).
Proof.
  split; [reflexivity |]. split.
  - destruct (searchEntities_atomic_on_failure "miku" None (Some 1) kg_world eq_refl)
      as (_ & H).
    destruct (H "KEY" eq_refl ltac:(discriminate)) as (_ & Hok).
    destruct (Hok _ _ [ {| result := Some miku |}; {| result := None |} ]
                eq_refl eq_refl eq_refl eq_refl) as (w' & Hrun & Hcache).
    exists w'. split; [exact Hrun |]. rewrite Hcache. apply lookup_insert_eq.
  - destruct (searchEntities_atomic_on_failure "down" None (Some 1) kg_world eq_refl)
      as (_ & H).
    destruct (H "KEY" eq_refl ltac:(discriminate)) as (Hfail & _).
    destruct Hfail as (w' & Hrun & Hcache & _).
    + right. eexists. split; reflexivity.
    + exists w'. split; [exact Hrun | exact Hcache].
Defined.

(** C2, as the code has it.  Without an API key in the environment (absent
    or empty) and without a cache entry for the key, [getApiKey] throws
    inside the [try] block of [searchEntities]: the error is caught there
    and logged, the call returns [[]], no request is issued and no cache
    is written.  Nothing propagates to the caller. *)
Theorem searchEntities_missing_key_caught (query : string)
  (types : option (list string)) (limit : option Z) (w : World) :
  truthy (env_apiKey w) = false ->
  kg_searchCache w !! search_key query (default [] types) (default 10 limit) = None ->
  exists w',
    searchEntities query types limit w = (Returned [], w') /\
    requests w' = requests w /\
    kg_searchCache w' = kg_searchCache w /\
    console w' = (console w ++ ["Error searching entities: "
                                +:+ error_message missing_key_error])%list.
Proof.
  intros Hkey Hmiss. eexists. split.
  - apply (searchEntities_caught _ _ _ _ missing_key_error w Hmiss).
    unfold searchEntities_try.
    exact (bind_thrown _ _ _ _ _ (getApiKey_missing w Hkey)).
  - simpl. auto.
Qed.

Lemma searchEntities_missing_key_caught_witness :
  truthy (env_apiKey empty_world) = false /\
  kg_searchCache empty_world !! search_key "q" [] 10 = None /\
  exists w',
    searchEntities "q" None None empty_world = (Returned [], w') /\
    requests w' = [].
Proof.
  split; [reflexivity |]. split; [reflexivity |].
  destruct (searchEntities_missing_key_caught "q" None None empty_world
              eq_refl eq_refl) as (w' & Hrun & Hreq & _).
  exists w'. split; [exact Hrun | exact Hreq].
Defined.

(** C2, as the claim states it, fails: with no API key and an empty cache
    the call does not throw, it returns [[]]. *)
Lemma searchEntities_missing_key_counterexample :
  env_apiKey empty_world = None /\
  kg_searchCache empty_world !! search_key "q" [] 10 = None /\
  fst (searchEntities "q" None None empty_world) = Returned [] /\
  forall e, fst (searchEntities "q" None None empty_world) <> Thrown e.
Proof. repeat split; try reflexivity. intros e. vm_compute. discriminate. Qed.

End SearchEntities.

(** ** Wikipedia search *)

Section SearchWikipedia.
Import Wikipedia JsString.

Lemma searchCache_check_miss (cacheKey : string) (w : World) :
  wp_searchCache w !! cacheKey = None ->
  searchCache_check cacheKey w = (Returned None, w).
Proof. intros E. unfold searchCache_check, bind, gets. now rewrite E. Qed.

Lemma searchCache_check_fresh (cacheKey : string) (w : World) data timestamp :
  wp_searchCache w !! cacheKey = Some (data, timestamp) ->
  clock w - timestamp < CACHE_TTL ->
  searchCache_check cacheKey w = (Returned (Some data), w).
Proof.
  intros E Hlt. unfold searchCache_check, bind, gets. rewrite E.
  destruct (Z.ltb_spec (clock w - timestamp) CACHE_TTL); [reflexivity | lia].
Qed.

Lemma searchCache_check_expired (cacheKey : string) (w : World) data timestamp :
  wp_searchCache w !! cacheKey = Some (data, timestamp) ->
  CACHE_TTL <= clock w - timestamp ->
  searchCache_check cacheKey w =
  (Returned None, with_wp_searchCache (delete cacheKey (wp_searchCache w)) w).
Proof.
  intros E Hge. unfold searchCache_check, bind, gets. rewrite E.
  destruct (Z.ltb_spec (clock w - timestamp) CACHE_TTL); [lia | reflexivity].
Qed.

(** A miss, by the reply of the network. *)
Lemma searchWikipedia_miss (query : string) (limit : option Z) (w : World) :
  wp_searchCache w !! search_key query (default 5 limit) = None ->
  let url := search_url query (default 5 limit) in
  let r := network w (List.length (requests w)) url in
  let w1 := with_clock (clock w + elapsed r) (with_requests (requests w ++ [url]) w) in
  let failed e :=
    (Returned [],
     with_console (console w1 ++ ["Error searching Wikipedia: " +:+ error_message e]) w1) in
  searchWikipedia query limit w =
  match arrived r with
  | None => failed (TypeError "fetch failed")
  | Some response =>
      if negb (ok response) then
        failed (Error ("Failed to search Wikipedia: " +:+ statusText response))
      else
        match json response with
        | None => failed (SyntaxError "Unexpected token in JSON")
        | Some data =>
            match b_query data with
            | None =>
                failed (TypeError "Cannot read properties of undefined (reading 'search')")
            | Some q =>
                (Returned (default [] (search q)),
                 with_wp_searchCache
                   (<[search_key query (default 5 limit)
                      := (default [] (search q), clock w1)]> (wp_searchCache w1)) w1)
            end
        end
  end.
Proof.
  intros Hmiss url r w1 failed. unfold searchWikipedia. cbv zeta.
  rewrite (bind_returned _ _ _ _ _ (searchCache_check_miss _ w Hmiss)).
  unfold try_catch, fetch, fetch_issue, fetch_await.
  unfold bind at 1. unfold bind at 1. simpl. fold url. fold r. fold w1.
  destruct (arrived r) as [response |]; [| reflexivity].
  destruct (ok response); simpl; [| reflexivity].
  unfold response_json. destruct (json response) as [data |]; [| reflexivity].
  unfold bind at 1. simpl.
  destruct (b_query data) as [q |]; reflexivity.
Qed.

Lemma searchWikipedia_miss_requests (query : string) (limit : option Z) (w : World) :
  wp_searchCache w !! search_key query (default 5 limit) = None ->
  requests (snd (searchWikipedia query limit w))
  = (requests w ++ [search_url query (default 5 limit)])%list.
Proof.
  intros Hmiss. rewrite (searchWikipedia_miss query limit w Hmiss). cbv zeta.
  destruct (arrived _) as [response |]; [| reflexivity].
  destruct (negb (ok response)); [reflexivity |].
  destruct (json response) as [data |]; [| reflexivity].
  destruct (b_query data); reflexivity.
Qed.

(** C8.  A cached search result is honoured exactly while
    [now - timestamp < 24h]: the call then returns the cached data and
    changes nothing, so no request is made.  From 24h on, the entry is
    deleted and the call goes on as on a miss: it behaves as it does in the
    world without the entry, and issues one request. *)
Theorem searchWikipedia_cache_ttl (query : string) (limit : option Z) (w : World)
  (data : list SearchResult) (timestamp : Z) :
  wp_searchCache w !! search_key query (default 5 limit) = Some (data, timestamp) ->
  (clock w - timestamp < 24 * 60 * 60 * 1000 ->
   searchWikipedia query limit w = (Returned data, w)) /\
  (24 * 60 * 60 * 1000 <= clock w - timestamp ->
   let evicted :=
     with_wp_searchCache
       (delete (search_key query (default 5 limit)) (wp_searchCache w)) w in
   wp_searchCache evicted !! search_key query (default 5 limit) = None /\
   searchWikipedia query limit w = searchWikipedia query limit evicted /\
   requests (snd (searchWikipedia query limit w))
   = (requests w ++ [search_url query (default 5 limit)])%list).
Proof.
  intros Hentry. split.
  - intros Hlt. unfold searchWikipedia. cbv zeta.
    now rewrite (bind_returned _ _ _ _ _
                   (searchCache_check_fresh _ w data timestamp Hentry Hlt)).
  - intros Hge evicted.
    assert (Hmiss : wp_searchCache evicted !! search_key query (default 5 limit) = None)
      by apply lookup_delete_eq.
    assert (Heq : searchWikipedia query limit w = searchWikipedia query limit evicted).
    { unfold searchWikipedia. cbv zeta.
      rewrite (bind_returned _ _ _ _ _
                 (searchCache_check_expired _ w data timestamp Hentry Hge)).
      now rewrite (bind_returned _ _ _ _ _ (searchCache_check_miss _ evicted Hmiss)). }
    split; [exact Hmiss |]. split; [exact Heq |].
    rewrite Heq. exact (searchWikipedia_miss_requests query limit evicted Hmiss).
Qed.

Lemma searchWikipedia_cache_ttl_witness :
  wp_searchCache (searched_at (1020 + 86399999)) !! search_key "miku" 5
  = Some (three_results, 1020) /\
  searchWikipedia "miku" None (searched_at (1020 + 86399999))
  = (Returned three_results, searched_at (1020 + 86399999)) /\
  requests (snd (searchWikipedia "miku" None (searched_at (1020 + 86400000))))
  = [search_url "miku" 5; search_url "miku" 5].
Proof.
  split; [reflexivity |]. split.
  - apply (searchWikipedia_cache_ttl "miku" None (searched_at (1020 + 86399999))
             three_results 1020); [reflexivity | vm_compute; reflexivity].
  - destruct (searchWikipedia_cache_ttl "miku" None (searched_at (1020 + 86400000))
                three_results 1020 eq_refl) as [_ H].
    destruct H as (_ & _ & ->); [vm_compute; discriminate | reflexivity].
Defined.

End SearchWikipedia.

Section SearchWikipediaTwice.
Import Wikipedia.

Lemma searchWikipedia_fresh (query : string) (limit : option Z) (w : World)
  data timestamp :
  wp_searchCache w !! search_key query (default 5 limit) = Some (data, timestamp) ->
  clock w - timestamp < CACHE_TTL ->
  searchWikipedia query limit w = (Returned data, w).
Proof.
  intros Hentry Hlt. unfold searchWikipedia. cbv zeta.
  now rewrite (bind_returned _ _ _ _ _
                 (searchCache_check_fresh _ w data timestamp Hentry Hlt)).
Qed.

(** Two calls in a row: when the first one is a miss that the network
    answers with a result list, a second call less than 24h after the
    result was stored returns the same list and issues no request. *)
Lemma searchWikipedia_second_call (query : string) (limit : option Z) (w : World)
  response data q (t : Z) :
  wp_searchCache w !! search_key query (default 5 limit) = None ->
  arrived (network w (List.length (requests w))
             (search_url query (default 5 limit))) = Some response ->
  ok response = true -> json response = Some data -> b_query data = Some q ->
  let results := default [] (search q) in
  let w1 := snd (searchWikipedia query limit w) in
  fst (searchWikipedia query limit w) = Returned results /\
  (t - clock w1 < CACHE_TTL ->
   searchWikipedia query limit (with_clock t w1) = (Returned results, with_clock t w1)).
Proof.
  intros Hmiss Harr Hok Hjson Hq results w1.
  pose proof (searchWikipedia_miss query limit w Hmiss) as Hrun. cbv zeta in Hrun.
  rewrite Harr, Hok, Hjson, Hq in Hrun. cbn [negb] in Hrun.
  subst w1. rewrite Hrun. cbn [fst snd]. split; [reflexivity |].
  intros Hlt.
  apply (searchWikipedia_fresh query limit _ results
           (clock w + elapsed (network w (List.length (requests w))
                                 (search_url query (default 5 limit))))).
  - cbn. apply lookup_insert_eq.
  - cbn in *. exact Hlt.
Qed.

End SearchWikipediaTwice.

(** ** Wikipedia content and recommendations *)

Section WikipediaContent.
Import Wikipedia JsString.

Lemma console_log_returns (line : string) : returns (console_log line).
Proof. intros w. now eexists _, _. Qed.

Lemma getWikipediaContent_start_run (pageId : PageId) (w : World) :
  let issue w0 :=
    (Returned (Awaiting (List.length (requests w0))),
     with_requests (requests w0 ++ [content_url pageId]) w0) in
  getWikipediaContent_start pageId w =
  match wp_contentCache w !! content_key pageId with
  | Some (data, timestamp) =>
      if clock w - timestamp <? CACHE_TTL then (Returned (Ready data), w)
      else issue (with_wp_contentCache
                    (delete (content_key pageId) (wp_contentCache w)) w)
  | None => issue w
  end.
Proof.
  cbv zeta. unfold getWikipediaContent_start, bind at 1, gets. cbv zeta.
  destruct (wp_contentCache w !! content_key pageId) as [[data timestamp] |].
  - unfold bind at 1. unfold bind at 1. simpl.
    destruct (clock w - timestamp <? CACHE_TTL); reflexivity.
  - reflexivity.
Qed.

Lemma getWikipediaContent_resume_run (pageId : PageId) (i : nat) (w : World) :
  let r := network w i (content_url pageId) in
  let w1 := with_clock (clock w + elapsed r) w in
  let failed e :=
    (Returned None,
     with_console (console w1 ++ ["Error getting Wikipedia content: "
                                  +:+ error_message e]) w1) in
  getWikipediaContent_resume pageId i w =
  match arrived r with
  | None => failed (TypeError "fetch failed")
  | Some response =>
      if negb (ok response) then
        failed (Error ("Failed to get Wikipedia content: " +:+ statusText response))
      else
        match json response with
        | None => failed (SyntaxError "Unexpected token in JSON")
        | Some data =>
            match b_query data with
            | None =>
                failed (TypeError "Cannot read properties of undefined (reading 'pages')")
            | Some q =>
                match pages q with
                | None => failed (TypeError "Cannot read properties of undefined")
                | Some ps =>
                    (Returned (ps !! pageId_str pageId),
                     with_wp_contentCache
                       (<[content_key pageId := (ps !! pageId_str pageId, clock w1)]>
                          (wp_contentCache w1)) w1)
                end
            end
        end
  end.
Proof.
  cbv zeta. unfold getWikipediaContent_resume, try_catch, fetch_await.
  unfold bind at 1.
  destruct (arrived _) as [response |]; [| reflexivity].
  destruct (ok response); simpl; [| reflexivity].
  unfold response_json. destruct (json response) as [data |]; [| reflexivity].
  unfold bind at 1. simpl.
  destruct (b_query data) as [q |]; [| reflexivity].
  destruct (pages q); reflexivity.
Qed.

Lemma getWikipediaContent_start_returns (pageId : PageId) :
  returns (getWikipediaContent_start pageId).
Proof.
  intros w. rewrite getWikipediaContent_start_run. cbv zeta.
  destruct (wp_contentCache w !! content_key pageId) as [[data timestamp] |];
    [destruct (clock w - timestamp <? CACHE_TTL) |]; eauto.
Qed.

Lemma getWikipediaContent_resume_returns (pageId : PageId) (i : nat) :
  returns (getWikipediaContent_resume pageId i).
Proof.
  apply returns_try_catch. intros e.
  apply returns_bind; [apply console_log_returns |].
  intros _. apply returns_ret.
Qed.

Lemma settle_returns (pageId : PageId) (s : Started) : returns (settle pageId s).
Proof.
  destruct s; [apply returns_ret | apply getWikipediaContent_resume_returns].
Qed.

Lemma getWikipediaContent_returns (pageId : PageId) :
  returns (getWikipediaContent pageId).
Proof.
  apply returns_bind; [apply getWikipediaContent_start_returns |].
  intros s. apply settle_returns.
Qed.

Lemma getWikipediaContent_keeps_urlCache (pageId : PageId) :
  keeps_urlCache (getWikipediaContent pageId).
Proof.
  intros w. unfold getWikipediaContent, bind.
  rewrite getWikipediaContent_start_run. cbv zeta.
  assert (Hres : forall i w0,
             urlCache (snd (getWikipediaContent_resume pageId i w0)) = urlCache w0).
  { intros i w0. rewrite getWikipediaContent_resume_run. cbv zeta.
    destruct (arrived _) as [response |]; [| reflexivity].
    destruct (negb (ok response)); [reflexivity |].
    destruct (json response) as [data |]; [| reflexivity].
    destruct (b_query data) as [q |]; [| reflexivity].
    destruct (pages q); reflexivity. }
  destruct (wp_contentCache w !! content_key pageId) as [[data timestamp] |];
    [destruct (clock w - timestamp <? CACHE_TTL) |]; simpl;
    try reflexivity; now rewrite Hres.
Qed.

Lemma searchWikipedia_returns (query : string) (limit : option Z) :
  returns (searchWikipedia query limit).
Proof.
  apply returns_bind.
  - intros w. unfold searchCache_check, bind at 1, gets.
    destruct (wp_searchCache w !! _) as [[data timestamp] |]; [| now eexists _, _].
    unfold bind, gets. destruct (_ <? _); now eexists _, _.
  - intros [data |]; [apply returns_ret |].
    apply returns_try_catch. intros e.
    apply returns_bind; [apply console_log_returns |].
    intros _. apply returns_ret.
Qed.

Lemma contents_of_returns (topResults : list SearchResult) :
  returns (contents_of topResults).
Proof.
  apply returns_bind.
  - apply returns_mapM. intros result.
    apply returns_bind; [apply getWikipediaContent_start_returns |].
    intros s. apply returns_ret.
  - intros started. apply returns_mapM. intros [result s]. apply settle_returns.
Qed.


(** Mapping a computation and then a pure function, in one pass or two. *)
Lemma mapM_then {A B C} (g : A -> Js C) (h : A -> Js B) (k : B -> C)
  (xs : list A) (w : World) :
  (forall x w, g x w = bind (h x) (fun y => ret (k y)) w) ->
  mapM g xs w = bind (mapM h xs) (fun ys => ret (map k ys)) w.
Proof.
  intros Hg. revert w. induction xs as [| x xs IH]; intros w; [reflexivity |].
  cbn [mapM]. unfold bind, ret in *. rewrite Hg.
  destruct (h x w) as [[y | e] w1]; [| reflexivity].
  rewrite IH. destruct (mapM h xs w1) as [[ys | e] w2]; reflexivity.
Qed.

Lemma drop_null_map {A B} (f : A -> B) (xs : list (option A)) :
  drop_null (map (fun x : option A =>
                    match x with None => None | Some a => Some (f a) end) xs)
  = map f (drop_null xs).
Proof.
  induction xs as [| [a |] xs IH]; simpl; [reflexivity | now f_equal | exact IH].
Qed.



(** The body of [getWikipediaRecommendations] after a search that found
    something. *)
Lemma getWikipediaRecommendations_run (query : string) (limit : option Z)
  (w : World) searchResults w1 contents w2 :
  searchWikipedia query limit w = (Returned searchResults, w1) ->
  searchResults <> [] ->
  contents_of (slice0 (default 5 limit) searchResults) w1 = (Returned contents, w2) ->
  getWikipediaRecommendations query limit w
  = (Returned (map (to_item query) (drop_null contents)), w2).
Proof.
  intros Hsearch Hne Hcontents. unfold getWikipediaRecommendations. cbv zeta.
  apply try_catch_returned. rewrite (bind_returned _ _ _ _ _ Hsearch).
  destruct searchResults as [| r rs]; [congruence |].
  unfold contents_of in Hcontents. unfold bind at 1 in Hcontents. unfold bind at 1.
  destruct (mapM _ (slice0 _ _) w1) as [[started | e] w1'] eqn:E1; [| discriminate].
  unfold bind at 1.
  rewrite (mapM_then _
             (fun '(result, s) => settle (NumId (sr_pageid result)) s)
             (fun content : option WikiPage =>
                match content with
                | None => None
                | Some content => Some (to_item query content)
                end)).
  - rewrite (bind_returned _ _ _ _ _ Hcontents). cbn [ret].
    now rewrite drop_null_map.
  - intros [result s] w0. reflexivity.
Qed.



(** A [limit] that is not a count: with [limit = -1] and three search
    results, [slice(0, -1)] drops the last result and keeps two, and the
    one whose content is served comes back. *)
Remark getWikipediaRecommendations_negative_limit :
  fst (searchWikipedia "miku" (Some (-1)) wiki_world) = Returned three_results /\
  fst (getWikipediaRecommendations "miku" (Some (-1)) wiki_world)
  = Returned [to_item "miku" page1] /\
  ~ (Z.of_nat (List.length [to_item "miku" page1]) <= -1).
Proof.
  split; [vm_compute; reflexivity |]. split; [vm_compute; reflexivity |].
  simpl. lia.
Qed.

(** C5 fails at the Wikipedia client.  The [map] callback of
    [getWikipediaRecommendations] tests [content.thumbnail] and then reads
    [content.thumbnail.source] unchecked, where [getKnowledgeGraphImageUrl]
    tests [wikipediaContent?.thumbnail?.source]: a page whose thumbnail
    has no [source] yields an item whose [imageUrl] is [undefined]. *)
Theorem getWikipediaRecommendations_undefined_imageUrl :
  thumbnail page3 = Some {| source := None |} /\
  fst (getWikipediaRecommendations "miku" None wiki_world)
  = Returned [to_item "miku" page1; to_item "miku" page3] /\
  imageUrl (to_item "miku" page3) = None.
Proof. repeat split; vm_compute; reflexivity. Qed.

(** The features of a Wikipedia item are never empty strings. *)
Lemma to_item_features_nonempty (query : string) (content : WikiPage) :
  Forall (fun f => f <> "") (features (to_item query content)).
Proof.
  unfold to_item. cbn [features].
  apply Forall_cons. split; [| repeat constructor; discriminate].
  destruct (extract content) as [[| c s] |]; try discriminate.
  destruct (JsString.substring0 100 (String c s)); discriminate.
Qed.

End WikipediaContent.

(** ** Leftmost matches *)

Section LeftmostMatch.
Import JsString JsStringFacts.

Lemma after_Some (lit s rest : string) :
  after lit s = Some rest <-> s = lit +:+ rest.
Proof.
  revert s. induction lit as [| c lit IH]; intros s; cbn [after].
  - split; [intros [= ->]; reflexivity | intros ->; reflexivity].
  - destruct s as [| x s]; [split; discriminate |].
    rewrite app_cons. destruct (Ascii.eqb_spec c x) as [-> | Hne].
    + rewrite IH. split; [intros ->; reflexivity | intros [= ->]; reflexivity].
    + split; [discriminate | intros [= E _]; congruence].
Qed.

(** [span] cuts [s] after its longest prefix in the class. *)
Lemma span_spec (cls : ascii -> bool) (s : string) :
  s = fst (span cls s) +:+ snd (span cls s) /\
  all_chars cls (fst (span cls s)) = true /\
  starts_in cls (snd (span cls s)) = false.
Proof.
  induction s as [| c s IH]; [repeat split |].
  cbn [span]. destruct (cls c) eqn:Hc.
  - destruct (span cls s) as [run rest]. cbn [fst snd] in *.
    destruct IH as (E & Hall & Hrest). rewrite app_cons.
    repeat split; [now f_equal | cbn; now rewrite Hc | exact Hrest].
  - cbn. now rewrite Hc.
Qed.

Lemma match_here_Some (lit : string) (cls : ascii -> bool) (s g : string) :
  match_here lit cls s = Some g ->
  exists rest,
    s = lit +:+ g +:+ rest /\ g <> "" /\ all_chars cls g = true /\
    starts_in cls rest = false.
Proof.
  unfold match_here. destruct (after lit s) as [tail |] eqn:E; [| discriminate].
  apply after_Some in E. destruct (span_spec cls tail) as (Ht & Hall & Hrest).
  destruct (fst (span cls tail)) as [| c run] eqn:Hrun; [discriminate |].
  intros [= <-]. exists (snd (span cls tail)).
  repeat split; [now rewrite <- Ht | discriminate | exact Hall | exact Hrest].
Qed.

Lemma match_here_found (lit : string) (cls : ascii -> bool) (c : ascii)
  (rest : string) :
  cls c = true -> match_here lit cls (lit +:+ String c rest) <> None.
Proof.
  intros Hc. unfold match_here.
  rewrite (proj2 (after_Some lit _ (String c rest)) eq_refl).
  cbn [span]. rewrite Hc. destruct (span cls rest). discriminate.
Qed.

(** The group of the leftmost match really is in the string, after the
    literal, and cannot be made longer. *)
Lemma match_first_Some (lit : string) (cls : ascii -> bool) (s g : string) :
  match_first lit cls s = Some g ->
  exists pre rest,
    s = pre +:+ lit +:+ g +:+ rest /\ g <> "" /\ all_chars cls g = true /\
    starts_in cls rest = false.
Proof.
  induction s as [| c s IH]; cbn [match_first].
  - destruct (match_here lit cls "") as [g' |] eqn:E; [| discriminate].
    intros [= ->]. destruct (match_here_Some _ _ _ _ E) as (rest & H).
    exists "", rest. exact H.
  - destruct (match_here lit cls (String c s)) as [g' |] eqn:E.
    + intros [= ->]. destruct (match_here_Some _ _ _ _ E) as (rest & H).
      exists "", rest. exact H.
    + intros H. destruct (IH H) as (pre & rest & -> & Hrest).
      exists (String c pre), rest. split; [reflexivity | exact Hrest].
Qed.

(** Wherever the literal is followed by a character of the class, there
    is a match. *)
Lemma match_first_found (lit : string) (cls : ascii -> bool) (pre : string)
  (c : ascii) (rest : string) :
  cls c = true -> match_first lit cls (pre +:+ lit +:+ String c rest) <> None.
Proof.
  intros Hc. induction pre as [| x pre IH].
  - change ("" +:+ lit +:+ String c rest) with (lit +:+ String c rest).
    pose proof (match_here_found lit cls c rest Hc) as H.
    destruct (lit +:+ String c rest) as [| y t] eqn:E; cbn [match_first];
      destruct (match_here lit cls _); congruence.
  - rewrite app_cons. cbn [match_first].
    destruct (match_here lit cls _); [discriminate | exact IH].
Qed.

Lemma span_run (cls : ascii -> bool) (g rest : string) :
  all_chars cls g = true -> starts_in cls rest = false ->
  span cls (g +:+ rest) = (g, rest).
Proof.
  intros Hg Hrest. induction g as [| c g IH].
  - change ("" +:+ rest) with rest. destruct rest as [| x rest]; [reflexivity |].
    cbn in *. now rewrite Hrest.
  - cbn [all_chars] in Hg. apply andb_prop in Hg as [Hc Hg].
    rewrite app_cons. cbn [span]. rewrite Hc, (IH Hg). reflexivity.
Qed.

Lemma app_same_length (pre pre' x y : string) :
  pre +:+ x = pre' +:+ y -> String.length pre = String.length pre' ->
  pre = pre' /\ x = y.
Proof.
  revert pre'. induction pre as [| c pre IH]; intros [| c' pre'] E Hlen;
    try discriminate Hlen.
  - split; [reflexivity | exact E].
  - rewrite !app_cons in E. injection E as -> E. cbn in Hlen.
    destruct (IH pre' E ltac:(lia)) as [-> ->]. split; reflexivity.
Qed.

Lemma occurs_at_cons (lit : string) (cls : ascii -> bool) (c : ascii)
  (s pre : string) :
  occurs_at lit cls (String c s) (String c pre) <-> occurs_at lit cls s pre.
Proof.
  unfold occurs_at. split; intros (x & rest & Hx & E); exists x, rest;
    (split; [exact Hx |]).
  - rewrite app_cons in E. now injection E.
  - rewrite app_cons. now f_equal.
Qed.

Lemma match_here_None_no_start (lit : string) (cls : ascii -> bool) (s : string) :
  match_here lit cls s = None -> ~ occurs_at lit cls s "".
Proof.
  intros Hnone (c & rest & Hc & E). change ("" +:+ lit +:+ String c rest)
    with (lit +:+ String c rest) in E. subst s.
  exact (match_here_found lit cls c rest Hc Hnone).
Qed.

(** [match_first] finds the group of the leftmost match. *)
Lemma match_first_leftmost_group (lit : string) (cls : ascii -> bool) (s g : string) :
  match_first lit cls s = Some g -> leftmost_group lit cls s g.
Proof.
  revert g. induction s as [| c s IH]; intros g; cbn [match_first].
  - destruct (match_here lit cls "") as [g' |] eqn:E; [| discriminate].
    intros [= ->]. destruct (match_here_Some _ _ _ _ E) as (rest & H1 & H2 & H3 & H4).
    exists "", rest. repeat split; try assumption. intros pre' _. cbn. lia.
  - destruct (match_here lit cls (String c s)) as [g' |] eqn:E.
    + intros [= ->].
      destruct (match_here_Some _ _ _ _ E) as (rest & H1 & H2 & H3 & H4).
      exists "", rest. repeat split; try assumption. intros pre' _. cbn. lia.
    + intros H. destruct (IH g H) as (pre & rest & -> & H2 & H3 & H4 & Hleft).
      exists (String c pre), rest. repeat split; try assumption.
      intros [| x pre'] Hocc.
      * exfalso. exact (match_here_None_no_start _ _ _ E Hocc).
      * assert (x = c) as ->.
        { destruct Hocc as (y & r & _ & Ey). rewrite app_cons in Ey. now injection Ey. }
        apply occurs_at_cons in Hocc. specialize (Hleft pre' Hocc). cbn. lia.
Qed.

Lemma leftmost_group_occurs (lit : string) (cls : ascii -> bool) (s g : string) :
  leftmost_group lit cls s g -> exists pre, occurs_at lit cls s pre.
Proof.
  intros (pre & rest & E & Hne & Hall & _). exists pre.
  destruct g as [| c g]; [congruence |]. cbn in Hall.
  apply andb_prop in Hall as [Hc _]. exists c, (g +:+ rest). split; [exact Hc |].
  now rewrite E, app_cons.
Qed.

(** No match at all, said without the function. *)
Lemma match_first_None (lit : string) (cls : ascii -> bool) (s : string) :
  match_first lit cls s = None <-> forall pre, ~ occurs_at lit cls s pre.
Proof.
  split.
  - intros Hnone pre (c & rest & Hc & E). subst s.
    exact (match_first_found lit cls pre c rest Hc Hnone).
  - intros Hno. destruct (match_first lit cls s) as [g |] eqn:E; [| reflexivity].
    destruct (leftmost_group_occurs _ _ _ _ (match_first_leftmost_group _ _ _ _ E))
      as (pre & Hocc).
    destruct (Hno pre Hocc).
Qed.

(** The group of the leftmost match is unique. *)
Lemma leftmost_group_unique (lit : string) (cls : ascii -> bool) (s g g' : string) :
  leftmost_group lit cls s g -> leftmost_group lit cls s g' -> g = g'.
Proof.
  intros H H'.
  assert (Hocc : forall g0 pre0 rest0,
             s = pre0 +:+ lit +:+ g0 +:+ rest0 -> g0 <> "" ->
             all_chars cls g0 = true -> occurs_at lit cls s pre0).
  { intros g0 pre0 rest0 E0 Hne0 Hall0. destruct g0 as [| c g0]; [congruence |].
    cbn in Hall0. apply andb_prop in Hall0 as [Hc _].
    exists c, (g0 +:+ rest0). split; [exact Hc |]. now rewrite E0, app_cons. }
  destruct H as (pre & rest & E & Hne & Hall & Hrest & Hleft).
  destruct H' as (pre' & rest' & E' & Hne' & Hall' & Hrest' & Hleft').
  pose proof (Hleft pre' (Hocc _ _ _ E' Hne' Hall')) as L1.
  pose proof (Hleft' pre (Hocc _ _ _ E Hne Hall)) as L2.
  assert (Hlen : String.length pre = String.length pre') by lia.
  rewrite E in E'. destruct (app_same_length _ _ _ _ E' Hlen) as [_ Etail].
  apply (inj (String.app lit)) in Etail.
  pose proof (span_run cls g rest Hall Hrest) as S1.
  pose proof (span_run cls g' rest' Hall' Hrest') as S2.
  rewrite Etail in S1. rewrite S1 in S2. now injection S2.
Qed.

(** [match_first] returns a group exactly when it is that of the leftmost
    match. *)
Lemma match_first_iff (lit : string) (cls : ascii -> bool) (s g : string) :
  match_first lit cls s = Some g <-> leftmost_group lit cls s g.
Proof.
  split; [apply match_first_leftmost_group |].
  intros H. destruct (match_first lit cls s) as [g' |] eqn:E.
  - f_equal. symmetry.
    exact (leftmost_group_unique _ _ _ _ _ H (match_first_leftmost_group _ _ _ _ E)).
  - destruct (leftmost_group_occurs _ _ _ _ H) as (pre & Hocc).
    destruct (proj1 (match_first_None lit cls s) E pre Hocc).
Qed.

End LeftmostMatch.

(** ** Knowledge Graph images and recommendation items *)

Section KnowledgeGraphImages.
Import KnowledgeGraph Wikipedia ImageUtils JsString JsMapFacts.

Lemma match_first_nonempty (lit : string) (cls : ascii -> bool) (s g : string) :
  match_first lit cls s = Some g -> g <> "".
Proof.
  induction s as [| c s IH]; cbn [match_first]; unfold match_here.
  - destruct (after lit "") as [rest |]; [| discriminate].
    destruct (fst (span cls rest)); [discriminate | intros [= <-]; discriminate].
  - destruct (after lit (String c s)) as [rest |]; [| exact IH].
    destruct (fst (span cls rest)); [exact IH | intros [= <-]; discriminate].
Qed.

(** Whatever [extractWikidataId] extracts is a non-empty string. *)
Lemma extractWikidataId_nonempty (entityId id : string) :
  extractWikidataId entityId = Some id -> id <> "".
Proof.
  unfold extractWikidataId. destruct entityId as [| c s]; [discriminate |].
  destruct (match_first "wikidata.org/entity/Q" is_digit (String c s)) as [digits |].
  - intros [= <-]. discriminate.
  - destruct (match_first "/m/" is_word (String c s)) as [fb |] eqn:E; [| discriminate].
    intros [= <-]. exact (match_first_nonempty _ _ _ _ E).
Qed.

(** [extractWikidataId] falls back on the Freebase id. *)
Lemma extractWikidataId_freebase (entityId freebase : string) :
  match_first "wikidata.org/entity/Q" is_digit entityId = None ->
  match_first "/m/" is_word entityId = Some freebase ->
  extractWikidataId entityId = Some freebase.
Proof.
  intros Hw Hf. unfold extractWikidataId. rewrite Hw, Hf.
  destruct entityId; [discriminate | reflexivity].
Qed.

(** The image resolution of an entity without image fields, by what
    [extractWikidataId] finds. *)
Lemma getKnowledgeGraphImageUrl_no_image (entity : KnowledgeGraphEntity) (w : World) :
  truthy (chain (ent_image entity) img_contentUrl) = false ->
  truthy (chain (ent_image entity) img_url) = false ->
  getKnowledgeGraphImageUrl entity w =
  match extractWikidataId (ent_id entity) with
  | Some (String _ _ as wikidataId) =>
      (wikipediaContent <- getWikipediaContent (StrId wikidataId) ;;
       match thumbnail_source wikipediaContent with
       | Some (String _ _ as src) =>
           console_log ("Wikipedia Image URL: " +:+ src) ;;
           getProxiedImageUrl (Some src)
       | _ => ret placeholder
       end) w
  | _ => (Returned placeholder, w)
  end.
Proof.
  intros H1 H2. unfold getKnowledgeGraphImageUrl.
  destruct (chain (ent_image entity) img_contentUrl) as [[| c1 s1] |];
    try discriminate;
    destruct (chain (ent_image entity) img_url) as [[| c2 s2] |];
    try discriminate;
    destruct (extractWikidataId (ent_id entity)) as [[| c s] |]; reflexivity.
Qed.

Lemma getWikipediaContent_miss_requests (pageId : PageId) (w : World) :
  wp_contentCache w !! content_key pageId = None ->
  requests (snd (getWikipediaContent pageId w))
  = (requests w ++ [content_url pageId])%list.
Proof.
  intros Hmiss. unfold getWikipediaContent, bind.
  rewrite getWikipediaContent_start_run. cbv zeta. rewrite Hmiss. cbn [settle].
  rewrite getWikipediaContent_resume_run. cbv zeta.
  destruct (arrived _) as [response |]; [| reflexivity].
  destruct (negb (ok response)); [reflexivity |].
  destruct (json response) as [data |]; [| reflexivity].
  destruct (b_query data) as [q |]; [| reflexivity].
  destruct (pages q); reflexivity.
Qed.

Lemma cached_keeps_requests (cacheKey fresh : string) (w : World) :
  requests (snd (cached cacheKey fresh w)) = requests w.
Proof.
  destruct (cached_spec cacheKey fresh w) as (u & w' & -> & [[_ ->] | (_ & _ & ->)]);
    reflexivity.
Qed.

Lemma getProxiedImageUrl_keeps_requests (originalUrl : option string) (w : World) :
  requests (snd (getProxiedImageUrl originalUrl w)) = requests w.
Proof.
  unfold getProxiedImageUrl. destruct originalUrl as [[| c s] |]; try reflexivity.
  apply cached_keeps_requests.
Qed.

(** [extractWikidataId] prefers the Wikidata id. *)
Lemma extractWikidataId_wikidata (entityId digits : string) :
  match_first "wikidata.org/entity/Q" is_digit entityId = Some digits ->
  extractWikidataId entityId = Some ("Q" +:+ digits).
Proof.
  intros Hw. unfold extractWikidataId. rewrite Hw.
  destruct entityId; [discriminate | reflexivity].
Qed.

(** What [extractWikidataId] returns, said without the function: [Q] and
    the digits of the leftmost Wikidata match, or, when the identifier has
    no Wikidata match, the word of the leftmost Freebase match. *)
Lemma extractWikidataId_spec (entityId id : string) :
  extractWikidataId entityId = Some id <->
  (exists digits,
     id = "Q" +:+ digits /\
     leftmost_group "wikidata.org/entity/Q" is_digit entityId digits) \/
  ((forall pre, ~ occurs_at "wikidata.org/entity/Q" is_digit entityId pre) /\
   leftmost_group "/m/" is_word entityId id).
Proof.
  split.
  - unfold extractWikidataId. destruct entityId as [| c0 s0]; [discriminate |].
    destruct (match_first "wikidata.org/entity/Q" is_digit (String c0 s0))
      as [digits |] eqn:Ew.
    + intros [= <-]. left. exists digits. split; [reflexivity |].
      now apply match_first_iff.
    + destruct (match_first "/m/" is_word (String c0 s0)) as [fb |] eqn:Ef;
        [| discriminate].
      intros [= <-]. right. split.
      * now apply match_first_None.
      * now apply match_first_iff.
  - intros [(digits & -> & Hw) | [Hno Hf]].
    + apply extractWikidataId_wikidata. now apply match_first_iff.
    + apply extractWikidataId_freebase.
      * now apply match_first_None.
      * now apply match_first_iff.
Qed.

(** No id is extracted exactly when the identifier has neither match. *)
Lemma extractWikidataId_no_match (entityId : string) :
  (forall pre, ~ occurs_at "wikidata.org/entity/Q" is_digit entityId pre) ->
  (forall pre, ~ occurs_at "/m/" is_word entityId pre) ->
  extractWikidataId entityId = None.
Proof.
  intros Hw Hf. unfold extractWikidataId.
  rewrite (proj2 (match_first_None _ _ _) Hw), (proj2 (match_first_None _ _ _) Hf).
  destruct entityId; reflexivity.
Qed.

(** C3.  For an entity without image fields, [getKnowledgeGraphImageUrl]
    looks Wikipedia content up exactly when [extractWikidataId] extracts
    an id, and that id is the Wikidata id or, failing that, the Freebase
    id.  An [@id] that holds a Wikidata id ([wikidata.org/entity/Q] and
    digits) has [getWikipediaContent] called with [Q] and the digits of
    the leftmost such place.  An [@id] that holds no Wikidata id and a
    Freebase id ([/m/] and a word) has [getWikipediaContent] called with
    the word of the leftmost such place: a request for it goes out when
    the content cache has no entry, and the result is the proxied
    thumbnail of the reply when there is one, the placeholder otherwise.
    An [@id] that holds neither gives no lookup, and the placeholder. *)
Theorem getKnowledgeGraphImageUrl_looks_up_extracted_id
  (entity : KnowledgeGraphEntity) (w : World) :
  truthy (chain (ent_image entity) img_contentUrl) = false ->
  truthy (chain (ent_image entity) img_url) = false ->
  (extractWikidataId (ent_id entity) = None ->
   getKnowledgeGraphImageUrl entity w = (Returned placeholder, w)) /\
  (forall id,
     extractWikidataId (ent_id entity) = Some id ->
     exists content w1,
       getWikipediaContent (StrId id) w = (Returned content, w1) /\
       getKnowledgeGraphImageUrl entity w =
       match thumbnail_source content with
       | Some (String _ _ as src) =>
           (console_log ("Wikipedia Image URL: " +:+ src) ;;
            getProxiedImageUrl (Some src)) w1
       | _ => (Returned placeholder, w1)
       end) /\
  (forall freebase,
     match_first "wikidata.org/entity/Q" is_digit (ent_id entity) = None ->
     match_first "/m/" is_word (ent_id entity) = Some freebase ->
     extractWikidataId (ent_id entity) = Some freebase /\
     (wp_contentCache w !! content_key (StrId freebase) = None ->
      requests (snd (getKnowledgeGraphImageUrl entity w))
      = (requests w ++ [content_url (StrId freebase)])%list)) /\
  (forall digits,
     leftmost_group "wikidata.org/entity/Q" is_digit (ent_id entity) digits ->
     extractWikidataId (ent_id entity) = Some ("Q" +:+ digits) /\
     (wp_contentCache w !! content_key (StrId ("Q" +:+ digits)) = None ->
      requests (snd (getKnowledgeGraphImageUrl entity w))
      = (requests w ++ [content_url (StrId ("Q" +:+ digits))])%list)) /\
  (forall freebase,
     (forall pre,
        ~ occurs_at "wikidata.org/entity/Q" is_digit (ent_id entity) pre) ->
     leftmost_group "/m/" is_word (ent_id entity) freebase ->
     extractWikidataId (ent_id entity) = Some freebase /\
     (wp_contentCache w !! content_key (StrId freebase) = None ->
      requests (snd (getKnowledgeGraphImageUrl entity w))
      = (requests w ++ [content_url (StrId freebase)])%list)) /\
  ((forall pre,
      ~ occurs_at "wikidata.org/entity/Q" is_digit (ent_id entity) pre) ->
   (forall pre, ~ occurs_at "/m/" is_word (ent_id entity) pre) ->
   getKnowledgeGraphImageUrl entity w = (Returned placeholder, w)).
Proof.
  intros H1 H2.
  pose proof (getKnowledgeGraphImageUrl_no_image entity w H1 H2) as Hrun.
  assert (Hid : forall id,
     extractWikidataId (ent_id entity) = Some id ->
     exists content w1,
       getWikipediaContent (StrId id) w = (Returned content, w1) /\
       getKnowledgeGraphImageUrl entity w =
       match thumbnail_source content with
       | Some (String _ _ as src) =>
           (console_log ("Wikipedia Image URL: " +:+ src) ;;
            getProxiedImageUrl (Some src)) w1
       | _ => (Returned placeholder, w1)
       end).
  { intros id E. pose proof (extractWikidataId_nonempty _ _ E) as Hne.
    rewrite E in Hrun. destruct id as [| c s]; [congruence |].
    destruct (getWikipediaContent_returns (StrId (String c s)) w)
      as (content & w1 & Hc).
    exists content, w1. split; [exact Hc |].
    rewrite Hrun, (bind_returned _ _ _ _ _ Hc).
    destruct (thumbnail_source content) as [[| c0 s0] |]; reflexivity. }
  assert (Hlook : forall id,
     extractWikidataId (ent_id entity) = Some id ->
     wp_contentCache w !! content_key (StrId id) = None ->
     requests (snd (getKnowledgeGraphImageUrl entity w))
     = (requests w ++ [content_url (StrId id)])%list).
  { intros id E Hmiss.
    destruct (Hid id E) as (content & w1 & Hc & ->).
    pose proof (getWikipediaContent_miss_requests (StrId id) w Hmiss) as Hreq.
    rewrite Hc in Hreq. cbn [snd] in Hreq. rewrite <- Hreq.
    destruct (thumbnail_source content) as [[| c0 s0] |]; try reflexivity.
    unfold bind, console_log, modify.
    now rewrite getProxiedImageUrl_keeps_requests. }
  assert (Hnone : extractWikidataId (ent_id entity) = None ->
                  getKnowledgeGraphImageUrl entity w = (Returned placeholder, w)).
  { intros E. now rewrite E in Hrun. }
  repeat apply conj.
  - exact Hnone.
  - exact Hid.
  - intros freebase Hw Hf.
    pose proof (extractWikidataId_freebase _ _ Hw Hf) as E.
    split; [exact E | exact (Hlook freebase E)].
  - intros digits Hw.
    assert (E : extractWikidataId (ent_id entity) = Some ("Q" +:+ digits)).
    { apply extractWikidataId_spec. left. now exists digits. }
    split; [exact E | exact (Hlook _ E)].
  - intros freebase Hno Hf.
    assert (E : extractWikidataId (ent_id entity) = Some freebase).
    { apply extractWikidataId_spec. right. now split. }
    split; [exact E | exact (Hlook _ E)].
  - intros Hw Hf. apply Hnone. now apply extractWikidataId_no_match.
Qed.

Lemma getKnowledgeGraphImageUrl_looks_up_extracted_id_witness :
  (truthy (chain (ent_image miku) img_contentUrl) = false /\
   truthy (chain (ent_image miku) img_url) = false /\
   extractWikidataId (ent_id miku) = Some "0dl567" /\
   requests (snd (getKnowledgeGraphImageUrl miku wiki_world))
   = [content_url (StrId "0dl567")]) /\
  (leftmost_group "wikidata.org/entity/Q" is_digit (ent_id miku_wikidata) "552863" /\
   extractWikidataId (ent_id miku_wikidata) = Some "Q552863" /\
   requests (snd (getKnowledgeGraphImageUrl miku_wikidata wiki_world))
   = [content_url (StrId "Q552863")]) /\
  ((forall pre,
      ~ occurs_at "wikidata.org/entity/Q" is_digit (ent_id anonymous_entity) pre) /\
   (forall pre, ~ occurs_at "/m/" is_word (ent_id anonymous_entity) pre) /\
   getKnowledgeGraphImageUrl anonymous_entity wiki_world
   = (Returned placeholder, wiki_world)).
Proof.
  split; [| split].
  - split; [reflexivity |]. split; [reflexivity |].
    destruct (getKnowledgeGraphImageUrl_looks_up_extracted_id miku wiki_world
                eq_refl eq_refl) as (_ & _ & H & _).
    destruct (H "0dl567" eq_refl eq_refl) as [E Hreq].
    split; [exact E |]. exact (Hreq eq_refl).
  - assert (Hw : leftmost_group "wikidata.org/entity/Q" is_digit
                   (ent_id miku_wikidata) "552863").
    { apply match_first_iff. reflexivity. }
    split; [exact Hw |].
    destruct (getKnowledgeGraphImageUrl_looks_up_extracted_id miku_wikidata
                wiki_world eq_refl eq_refl) as (_ & _ & _ & H & _).
    destruct (H "552863" Hw) as [E Hreq].
    split; [exact E |]. exact (Hreq eq_refl).
  - assert (Hw : forall pre,
               ~ occurs_at "wikidata.org/entity/Q" is_digit
                   (ent_id anonymous_entity) pre).
    { apply match_first_None. reflexivity. }
    assert (Hf : forall pre, ~ occurs_at "/m/" is_word (ent_id anonymous_entity) pre).
    { apply match_first_None. reflexivity. }
    split; [exact Hw |]. split; [exact Hf |].
    destruct (getKnowledgeGraphImageUrl_looks_up_extracted_id anonymous_entity
                wiki_world eq_refl eq_refl) as (_ & _ & _ & _ & _ & H).
    exact (H Hw Hf).
Defined.

(** C3, as the claim states it, fails: the entity has a Freebase id and no
    Wikidata id in its [@id] and no image fields, and the Freebase id goes
    to [getWikipediaContent]: a request for it is issued, and the result
    is the proxied thumbnail of the reply, not the placeholder. *)
Lemma getKnowledgeGraphImageUrl_freebase_counterexample :
  match_first "wikidata.org/entity/Q" is_digit (ent_id miku) = None /\
  match_first "/m/" is_word (ent_id miku) = Some "0dl567" /\
  ent_image miku = None /\
  fst (getKnowledgeGraphImageUrl miku wiki_world)
  = Returned "/api/image-proxy?url=https%3A%2F%2Fupload.example%2F1.png" /\
  fst (getKnowledgeGraphImageUrl miku wiki_world) <> Returned placeholder /\
  requests (snd (getKnowledgeGraphImageUrl miku wiki_world))
  = ["https://ja.wikipedia.org/w/api.php?action=query&prop=extracts|pageimages&exintro=1&explaintext=1&pageids=0dl567&format=json&pithumbsize=500&origin=*"].
Proof. repeat split; try (vm_compute; reflexivity). vm_compute. discriminate. Qed.

Lemma console_log_run (line : string) (w : World) :
  console_log line w = (Returned tt, with_console (console w ++ [line]) w).
Proof. reflexivity. Qed.

(** On the well-formed strings of the model the image resolution
    returns, and never yields an empty URL as long as the URL cache holds
    none. *)
Lemma getKnowledgeGraphImageUrl_total (entity : KnowledgeGraphEntity) (w : World) :
  exists u w', getKnowledgeGraphImageUrl entity w = (Returned u, w') /\
    (nonempty_values (urlCache w) -> u <> "" /\ nonempty_values (urlCache w')).
Proof.
  assert (Hproxy : forall line src w0,
    exists u w',
      (console_log line ;; getProxiedImageUrl (Some src)) w0 = (Returned u, w') /\
      (nonempty_values (urlCache w0) -> u <> "" /\ nonempty_values (urlCache w'))).
  { intros line src w0. unfold bind. rewrite console_log_run.
    destruct src as [| c s].
    - eexists _, _. split; [reflexivity |]. intros H. split; [discriminate | exact H].
    - destruct (cached_spec ("proxy_" +:+ String c s)
                  ("/api/image-proxy?url=" +:+ encodeURIComponent (String c s))
                  (with_console (console w0 ++ [line]) w0))
        as (u & w' & E & Hcases).
      exists u, w'. split; [exact E |]. intros Hinv.
      destruct (cached_nonempty ("proxy_" +:+ String c s)
                  ("/api/image-proxy?url=" +:+ encodeURIComponent (String c s))
                  (with_console (console w0 ++ [line]) w0) Hinv ltac:(discriminate))
        as (u' & w'' & E' & Hu & Hw).
      rewrite E in E'. now injection E' as <- <-. }
  unfold getKnowledgeGraphImageUrl.
  destruct (chain (ent_image entity) img_contentUrl) as [[| c1 s1] |];
    try apply Hproxy;
    (destruct (chain (ent_image entity) img_url) as [[| c2 s2] |];
     try apply Hproxy);
    (destruct (extractWikidataId (ent_id entity)) as [[| c s] |];
     try (exists placeholder, w; split;
          [reflexivity | intros H; split; [discriminate | exact H]]));
    (destruct (getWikipediaContent_returns (StrId (String c s)) w)
       as (content & w1 & Hc);
     pose proof (getWikipediaContent_keeps_urlCache (StrId (String c s)) w) as Hk;
     rewrite Hc in Hk; cbn [snd] in Hk;
     rewrite (bind_returned _ _ _ _ _ Hc);
     destruct (thumbnail_source content) as [[| c0 s0] |];
     try (exists placeholder, w1; split;
          [reflexivity | intros H; split; [discriminate | now rewrite Hk]]);
     destruct (Hproxy ("Wikipedia Image URL: " +:+ String c0 s0) (String c0 s0) w1)
       as (u & w' & E & Hu);
     exists u, w'; split; [exact E | intros H; apply Hu; now rewrite Hk]).
Qed.

Lemma filter_Boolean_nonempty (xs : list string) :
  Forall (fun f => f <> "") (filter_Boolean xs).
Proof.
  unfold filter_Boolean. induction xs as [| x xs IH]; simpl; [constructor |].
  destruct (String.eqb_spec x ""); simpl; [exact IH | now constructor].
Qed.

(** The invariant of recommendation items, for the Knowledge Graph client:
    no empty feature, and an image URL that is there and not empty. *)
Lemma convertToRecommendationItem_invariant (entity : KnowledgeGraphEntity)
  (w : World) item w' :
  nonempty_values (urlCache w) ->
  convertToRecommendationItem entity w = (Returned item, w') ->
  Forall (fun f => f <> "") (features item) /\
  exists u, imageUrl item = Some u /\ u <> "".
Proof.
  intros Hinv. unfold convertToRecommendationItem.
  destruct (getKnowledgeGraphImageUrl_total entity w) as (u & w1 & E & Hu).
  rewrite (bind_returned _ _ _ _ _ E).
  destruct (ent_type entity) as [types |]; [| discriminate].
  intros [= <- _]. cbn [features imageUrl]. split.
  - apply filter_Boolean_nonempty.
  - exists u. split; [reflexivity | now apply Hu].
Qed.

(** C10.  [convertToRecommendationItem] throws a [TypeError] on every
    entity without ["@type"], whatever else the entity holds and in every
    world: the image is resolved first, then [entity["@type"].slice] is
    read.  [determineCategory] answers ["celebrities"] on the same
    entity. *)
Theorem convertToRecommendationItem_missing_type (entity : KnowledgeGraphEntity)
  (w : World) :
  ent_type entity = None ->
  (exists msg w',
     convertToRecommendationItem entity w = (Thrown (TypeError msg), w')) /\
  determineCategory entity = "celebrities".
Proof.
  intros E. split.
  - destruct (getKnowledgeGraphImageUrl_total entity w) as (u & w1 & Hu & _).
    unfold convertToRecommendationItem.
    rewrite (bind_returned _ _ _ _ _ Hu), E. now eexists _, _.
  - unfold determineCategory, typeStr_of. now rewrite E.
Qed.

Lemma convertToRecommendationItem_missing_type_witness :
  ent_type (bare_entity "kg:/g/1" None) = None /\
  (exists msg w',
     convertToRecommendationItem (bare_entity "kg:/g/1" None) empty_world
     = (Thrown (TypeError msg), w')) /\
  determineCategory (bare_entity "kg:/g/1" None) = "celebrities".
Proof.
  split; [reflexivity |].
  exact (convertToRecommendationItem_missing_type
           (bare_entity "kg:/g/1" None) empty_world eq_refl).
Defined.

End KnowledgeGraphImages.

(** ** The URL cache as a whole *)

Section UrlCache.
Import ImageUtils JsMapFacts.

Lemma get_set (k' k v : string) (m : JsMap.t string) :
  JsMap.get k' (JsMap.set k v m)
  = if String.eqb k' k then Some v else JsMap.get k' m.
Proof.
  induction m as [| [k0 v0] m IH]; simpl.
  - destruct (String.eqb k' k); reflexivity.
  - destruct (String.eqb_spec k k0) as [-> | Hne]; simpl.
    + destruct (String.eqb k' k0); reflexivity.
    + rewrite IH. destruct (String.eqb_spec k' k0) as [-> | Hne'].
      * destruct (String.eqb_spec k0 k); [congruence | reflexivity].
      * reflexivity.
Qed.

Lemma cached_again (cacheKey fresh : string) (w : World) :
  cached cacheKey fresh (snd (cached cacheKey fresh w)) = cached cacheKey fresh w.
Proof.
  destruct (cached_spec cacheKey fresh w) as (u & w' & E & [[Hg ->] | (Hh & -> & ->)]).
  - rewrite E. exact E.
  - rewrite E. cbn [snd]. unfold cached, bind, gets. cbn [urlCache with_urlCache].
    unfold JsMap.has. rewrite get_set, String.eqb_refl. reflexivity.
Qed.

(** X1.  Calling a builder a second time with the same argument gives the
    outcome of the first call and changes nothing more: the URL is not
    computed and not stored again. *)
Theorem builder_call_idempotent (b : BuilderCall) (w : World) :
  call b (snd (call b w)) = call b w.
Proof.
  destruct b as [[[| c s] |] | [[| c s] |] size | [[| [| | [[| c s] |]] rest] |]
                | [[| c s] |]];
    try reflexivity; apply cached_again.
Qed.

Lemma cache_ok_set (k v : string) (m : JsMap.t string) :
  cache_ok m ->
  ((forall u, k = "proxy_" +:+ u -> v = proxied u) /\
   (forall u, k = "spotify_" +:+ u -> v = u) /\
   (forall id, k = "wiki_" +:+ id -> v = proxied (commons id))) ->
  cache_ok (JsMap.set k v m).
Proof.
  intros [Hnd Hco] Hnew. split; [now apply set_NoDup |].
  intros k' v'. rewrite get_set.
  destruct (String.eqb_spec k' k) as [-> | Hne]; [intros [= <-]; exact Hnew | apply Hco].
Qed.

Lemma cache_ok_tail (m : JsMap.t string) : cache_ok m -> cache_ok (tail m).
Proof.
  destruct m as [| [k0 v0] rest]; [auto |]. intros [Hnd Hco]. cbn [tail].
  pose proof (head_not_in_rest _ _ _ Hnd) as Hk0.
  split; [now apply NoDup_cons in Hnd |].
  intros k v Hget. apply Hco. simpl.
  destruct (String.eqb_spec k k0) as [-> | Hne]; [| exact Hget].
  unfold JsMap.has in Hk0. rewrite Hget in Hk0. discriminate.
Qed.

Lemma cached_cache_ok (cacheKey fresh : string) (w : World) :
  cache_ok (urlCache w) ->
  ((forall u, cacheKey = "proxy_" +:+ u -> fresh = proxied u) /\
   (forall u, cacheKey = "spotify_" +:+ u -> fresh = u) /\
   (forall id, cacheKey = "wiki_" +:+ id -> fresh = proxied (commons id))) ->
  cache_ok (urlCache (snd (cached cacheKey fresh w))).
Proof.
  intros Hok Hnew.
  destruct (cached_spec cacheKey fresh w) as (u & w' & -> & [[_ ->] | (_ & _ & ->)]).
  - exact Hok.
  - cbn. now apply cache_ok_set.
Qed.

Lemma empty_cache_ok : cache_ok [].
Proof. split; [constructor | intros k v [=]]. Qed.

Lemma call_cache_ok (b : BuilderCall) (w : World) :
  cache_ok (urlCache w) -> cache_ok (urlCache (snd (call b w))).
Proof.
  intros Hok.
  destruct b as [[[| c s] |] | [[| c s] |] size | [[| [| | [[| c s] |]] rest] |]
                | [[| c s] |]];
    try exact Hok; apply cached_cache_ok; try exact Hok;
    (split; [| split]); intros x E; try discriminate E.
  - now apply (inj (String.app "proxy_")) in E as <-.
  - now apply (inj (String.app "spotify_")) in E as <-.
  - now apply (inj (String.app "wiki_")) in E as <-.
Qed.

Lemma limitCacheSize_cache_ok (maxSize : option Z) (w : World) :
  cache_ok (urlCache w) -> cache_ok (urlCache (snd (limitCacheSize maxSize w))).
Proof.
  intros Hok. rewrite limitCacheSize_run. cbn [snd].
  destruct (JsMap.size (urlCache w) >? default 100 maxSize); [| exact Hok].
  cbn. now apply cache_ok_tail.
Qed.

(** X2.  The builders and [limitCacheSize] keep the URL cache well formed:
    starting from the empty cache, after any sequence of calls the keys
    are distinct and every proxy, Spotify and Wikipedia entry holds the
    URL that its builder computes for the key. *)
Theorem cache_ok_invariant :
  cache_ok [] /\
  (forall b w, cache_ok (urlCache w) -> cache_ok (urlCache (snd (call b w)))) /\
  (forall maxSize w,
     cache_ok (urlCache w) -> cache_ok (urlCache (snd (limitCacheSize maxSize w)))).
Proof.
  split; [exact empty_cache_ok |].
  split; [exact call_cache_ok | exact limitCacheSize_cache_ok].
Qed.

Lemma cached_transparent (cacheKey fresh : string) (w : World) :
  (forall v, JsMap.get cacheKey (urlCache w) = Some v -> v = fresh) ->
  fst (cached cacheKey fresh w) = Returned fresh.
Proof.
  intros H.
  destruct (cached_spec cacheKey fresh w) as (u & w' & -> & [[Hg _] | (_ & -> & _)]).
  - cbn. f_equal. now apply H.
  - reflexivity.
Qed.

(** X3.  On a well-formed cache the cache is invisible in the results of
    the proxy, Spotify and Wikipedia builders: each returns the URL it
    would compute on an empty cache, whatever was cached or evicted
    before. *)
Theorem builders_transparent (w : World) :
  cache_ok (urlCache w) ->
  (forall url, url <> "" ->
     fst (getProxiedImageUrl (Some url) w) = Returned (proxied url)) /\
  (forall url rest, url <> "" ->
     fst (getSpotifyImageUrl (Some (ElObject (Some url) :: rest)) w) = Returned url) /\
  (forall id, id <> "" ->
     fst (getWikipediaImageUrl (Some id) w) = Returned (proxied (commons id))).
Proof.
  intros [_ Hco]. split; [| split].
  - intros [| c s] Hne; [congruence |]. cbn [getProxiedImageUrl].
    apply cached_transparent. intros v Hg.
    now apply (proj1 (Hco _ _ Hg) (String c s)).
  - intros [| c s] rest Hne; [congruence |]. cbn [getSpotifyImageUrl].
    apply cached_transparent. intros v Hg.
    now apply (proj1 (proj2 (Hco _ _ Hg)) (String c s)).
  - intros [| c s] Hne; [congruence |]. cbn [getWikipediaImageUrl].
    apply cached_transparent. intros v Hg.
    now apply (proj2 (proj2 (Hco _ _ Hg)) (String c s)).
Qed.

Lemma builders_transparent_witness :
  cache_ok (urlCache three_entries) /\
  fst (getProxiedImageUrl (Some "b") three_entries) = Returned "/api/image-proxy?url=b" /\
  fst (getProxiedImageUrl (Some "d/e") three_entries)
  = Returned "/api/image-proxy?url=d%2Fe".
Proof.
  assert (Hok : cache_ok (urlCache three_entries)).
  { exact (call_cache_ok (Proxied (Some "c")) _
             (call_cache_ok (Proxied (Some "b")) _
                (call_cache_ok (Proxied (Some "a")) empty_world empty_cache_ok))). }
  split; [exact Hok |].
  destruct (builders_transparent three_entries Hok) as (Hp & _).
  split; [exact (Hp "b" ltac:(discriminate)) | exact (Hp "d/e" ltac:(discriminate))].
Defined.

Lemma cached_after (cacheKey fresh fresh' : string) (w : World) :
  cached cacheKey fresh' (snd (cached cacheKey fresh w)) = cached cacheKey fresh w.
Proof.
  destruct (cached_spec cacheKey fresh w) as (u & w' & E & [[Hg ->] | (Hh & -> & ->)]).
  - rewrite E. cbn [snd]. unfold cached, bind, gets in *. unfold JsMap.has in *.
    rewrite Hg in *. exact E.
  - rewrite E. cbn [snd]. unfold cached, bind, gets. cbn [urlCache with_urlCache].
    unfold JsMap.has. rewrite get_set, String.eqb_refl. reflexivity.
Qed.

Lemma getTMDbImageUrl_cached (path size : string) :
  path <> "" ->
  getTMDbImageUrl (Some path) (Some size)
  = cached ("tmdb_" +:+ path +:+ "_" +:+ size)
           ("https://image.tmdb.org/t/p/" +:+ size +:+ path).
Proof. destruct path; [congruence | reflexivity]. Qed.

(** X4.  The TMDb cache key [tmdb_<path>_<size>] does not tell where the
    path ends: a call for path [p] and size [x_s] made after a call for
    path [p_x] and size [s] finds the entry of that first call and returns
    its URL, [.../t/p/<s><p>_<x>], and stores nothing. *)
Theorem getTMDbImageUrl_key_collision (path x size : string) (w : World) :
  path <> "" ->
  getTMDbImageUrl (Some path) (Some (x +:+ "_" +:+ size))
    (snd (getTMDbImageUrl (Some (path +:+ "_" +:+ x)) (Some size) w))
  = getTMDbImageUrl (Some (path +:+ "_" +:+ x)) (Some size) w /\
  (JsMap.has ("tmdb_" +:+ path +:+ "_" +:+ x +:+ "_" +:+ size) (urlCache w) = false ->
   fst (getTMDbImageUrl (Some (path +:+ "_" +:+ x)) (Some size) w)
   = Returned ("https://image.tmdb.org/t/p/" +:+ size +:+ path +:+ "_" +:+ x)).
Proof.
  intros Hne.
  assert (Hne' : path +:+ "_" +:+ x <> "") by now apply append_nonempty.
  rewrite (getTMDbImageUrl_cached path (x +:+ "_" +:+ size) Hne).
  rewrite (getTMDbImageUrl_cached (path +:+ "_" +:+ x) size Hne').
  rewrite <- !JsStringFacts.app_assoc. rewrite !JsStringFacts.app_assoc.
  split; [apply cached_after |].
  intros Hmiss.
  match goal with
  | |- fst (cached ?k ?f w) = _ =>
      destruct (cached_spec k f w) as (u & w' & -> & [[Hg _] | (_ & -> & _)])
  end; [| reflexivity].
  unfold JsMap.has in Hmiss. rewrite Hg in Hmiss. discriminate.
Qed.

Lemma getTMDbImageUrl_key_collision_witness :
  fst (getTMDbImageUrl (Some "/a") (Some "b_w500")
         (snd (getTMDbImageUrl (Some "/a_b") (Some "w500") empty_world)))
  = Returned "https://image.tmdb.org/t/p/w500/a_b".
Proof.
  destruct (getTMDbImageUrl_key_collision "/a" "b" "w500" empty_world
              ltac:(discriminate)) as [Hsame Hfirst].
  etransitivity; [exact (f_equal fst Hsame) | exact (Hfirst eq_refl)].
Defined.

Lemma cached_size (cacheKey fresh : string) (w : World) :
  JsMap.size (urlCache w) <= JsMap.size (urlCache (snd (cached cacheKey fresh w)))
  <= JsMap.size (urlCache w) + 1.
Proof.
  destruct (cached_spec cacheKey fresh w) as (u & w' & -> & [[_ ->] | (_ & _ & ->)]);
    cbn [snd]; [lia |].
  cbn [urlCache with_urlCache]. unfold JsMap.size.
  induction (urlCache w) as [| [k0 v0] m IH]; simpl; [lia |].
  destruct (String.eqb cacheKey k0); simpl; lia.
Qed.

Lemma call_size (b : BuilderCall) (w : World) :
  JsMap.size (urlCache w) <= JsMap.size (urlCache (snd (call b w)))
  <= JsMap.size (urlCache w) + 1.
Proof.
  destruct b as [[[| c s] |] | [[| c s] |] size | [[| [| | [[| c s] |]] rest] |]
                | [[| c s] |]];
    try (cbn; lia); apply cached_size.
Qed.

(** X5.  A cache within [maxSize] stays within [maxSize] when every
    builder call is followed by [limitCacheSize(maxSize)]: a call adds at
    most one entry, and the trim takes one away when that was one too
    many. *)
Theorem limitCacheSize_bounds_growth (b : BuilderCall) (maxSize : option Z)
  (w : World) :
  JsMap.size (urlCache w) <= default 100 maxSize ->
  JsMap.size (urlCache (snd (limitCacheSize maxSize (snd (call b w)))))
  <= default 100 maxSize.
Proof.
  intros Hle. pose proof (call_size b w) as Hsz.
  rewrite limitCacheSize_run. cbn [snd].
  destruct (Z.gtb_spec (JsMap.size (urlCache (snd (call b w)))) (default 100 maxSize))
    as [Hgt | Hngt]; [| exact Hngt].
  cbn [urlCache with_urlCache]. unfold JsMap.size in *.
  destruct (urlCache (snd (call b w))) as [| e m]; simpl in *; lia.
Qed.

Lemma limitCacheSize_bounds_growth_witness :
  JsMap.size (urlCache three_entries) <= 3 /\
  JsMap.size (urlCache (snd (limitCacheSize (Some 3)
                               (snd (call (Proxied (Some "d")) three_entries)))))
  <= 3.
Proof.
  split; [vm_compute; discriminate |].
  apply (limitCacheSize_bounds_growth (Proxied (Some "d")) (Some 3) three_entries).
  vm_compute. discriminate.
Defined.

End UrlCache.

(** ** Knowledge Graph search: totality, cache lifetime, retries *)

Section SearchEntitiesMore.
Import KnowledgeGraph JsString.

(** The fields a computation may touch when it talks to the Knowledge
    Graph only. *)
Lemma searchEntities_try_frame (query : string) (types : list string) (limit : Z)
  (w : World) :
  let w1 := snd (searchEntities_try query types limit w) in
  urlCache w1 = urlCache w /\
  wp_searchCache w1 = wp_searchCache w /\
  wp_contentCache w1 = wp_contentCache w /\
  env_apiKey w1 = env_apiKey w /\
  console w1 = console w /\
  (requests w1 = requests w \/ exists url, requests w1 = (requests w ++ [url])%list).
Proof.
  cbv zeta. destruct (truthy (env_apiKey w)) eqn:T.
  2: { unfold searchEntities_try.
       rewrite (bind_thrown _ _ _ _ _ (getApiKey_missing w T)). cbn. tauto. }
  destruct (env_apiKey w) as [[| c s] |] eqn:E; try discriminate.
  assert (Hne : String c s <> "") by discriminate.
  rewrite (searchEntities_try_run query types limit w _ E Hne). cbv zeta.
  destruct (arrived _) as [response |]; [| cbn; eauto 10].
  destruct (negb (ok response)); [cbn; eauto 10 |].
  destruct (json response) as [data |]; [| cbn; eauto 10].
  destruct (fst (extract_entities data _)); cbn; eauto 10.
Qed.

(** X6.  [searchEntities] never throws: in every world and for every
    argument it returns a list.  It issues at most one request, and it
    leaves the URL cache, both Wikipedia caches and the environment as
    they were. *)
Theorem searchEntities_never_throws (query : string) (types : option (list string))
  (limit : option Z) (w : World) :
  exists entities w',
    searchEntities query types limit w = (Returned entities, w') /\
    urlCache w' = urlCache w /\
    wp_searchCache w' = wp_searchCache w /\
    wp_contentCache w' = wp_contentCache w /\
    env_apiKey w' = env_apiKey w /\
    (requests w' = requests w \/ exists url, requests w' = (requests w ++ [url])%list).
Proof.
  unfold searchEntities, bind at 1, gets. cbv zeta.
  destruct (kg_searchCache w !! _) as [entities |].
  - exists entities, w. tauto.
  - pose proof (searchEntities_try_frame query (default [] types) (default 10 limit) w)
      as Hframe. cbv zeta in Hframe. unfold try_catch.
    destruct (searchEntities_try _ _ _ w) as [[entities | e] w1]; cbn [snd] in Hframe.
    + exists entities, w1. tauto.
    + eexists _, _. split; [reflexivity |]. cbn. tauto.
Qed.

Lemma searchEntities_hit (query : string) (types : option (list string))
  (limit : option Z) (w : World) entities :
  kg_searchCache w !! search_key query (default [] types) (default 10 limit)
  = Some entities ->
  searchEntities query types limit w = (Returned entities, w).
Proof. intros E. unfold searchEntities, bind, gets. cbv zeta. now rewrite E. Qed.

(** X7.  The Knowledge Graph cache never expires and is keyed by the
    string [query_types_limit] alone.  Once a search has stored its list,
    every call whose key string is the same returns that list and does
    nothing else, in every later world with that cache: at any time, with
    any network and without an API key, and also for other arguments that
    happen to give the same key. *)
Theorem searchEntities_cached_forever (query : string) (types : option (list string))
  (limit : option Z) (w : World) apiKey response data items :
  kg_searchCache w !! search_key query (default [] types) (default 10 limit) = None ->
  env_apiKey w = Some apiKey -> apiKey <> "" ->
  arrived (network w (List.length (requests w))
             (search_url query apiKey (default [] types) (default 10 limit)))
  = Some response ->
  ok response = true -> json response = Some data ->
  itemListElement data = Some (map Some items) ->
  forall query' types' limit' w2,
    search_key query' (default [] types') (default 10 limit')
    = search_key query (default [] types) (default 10 limit) ->
    kg_searchCache w2 = kg_searchCache (snd (searchEntities query types limit w)) ->
    searchEntities query' types' limit' w2
    = (Returned (drop_null (map result items)), w2).
Proof.
  intros Hmiss Hkey Hne Harr Hok Hjson Hitems query' types' limit' w2 Hsame Hcache.
  apply searchEntities_hit. rewrite Hsame, Hcache.
  pose proof (searchEntities_try_run query (default [] types) (default 10 limit)
                w apiKey Hkey Hne) as Hrun.
  cbv zeta in Hrun. rewrite Harr, Hok, Hjson in Hrun. cbn [negb] in Hrun.
  rewrite (extract_entities_ok data items _ Hitems) in Hrun. cbn [fst] in Hrun.
  unfold searchEntities, bind at 1, gets. cbv zeta. rewrite Hmiss.
  rewrite (try_catch_returned _ _ _ _ _ Hrun). cbn. apply lookup_insert_eq.
Qed.

Lemma searchEntities_cached_forever_witness :
  searchEntities "miku" (Some [","]) (Some 1)
    (with_clock 99999999999
       (snd (searchEntities "miku" (Some [""; ""]) (Some 1) kg_world_any)))
  = (Returned [miku],
     with_clock 99999999999
       (snd (searchEntities "miku" (Some [""; ""]) (Some 1) kg_world_any))).
Proof.
  apply (searchEntities_cached_forever "miku" (Some [""; ""]) (Some 1) kg_world_any
           "KEY" {| ok := true; statusText := "OK";
                    json := Some {| itemListElement :=
                                      Some [Some {| result := Some miku |};
                                            Some {| result := None |}];
                                    b_query := None |} |}
           {| itemListElement := Some [Some {| result := Some miku |};
                                       Some {| result := None |}];
              b_query := None |}
           [ {| result := Some miku |}; {| result := None |} ]);
    try reflexivity. discriminate.
Defined.

Lemma searchEntities_miss_requests (query : string) (types : option (list string))
  (limit : option Z) (w : World) apiKey :
  kg_searchCache w !! search_key query (default [] types) (default 10 limit) = None ->
  env_apiKey w = Some apiKey -> apiKey <> "" ->
  requests (snd (searchEntities query types limit w))
  = (requests w
     ++ [search_url query apiKey (default [] types) (default 10 limit)])%list.
Proof.
  intros Hmiss Hkey Hne. unfold searchEntities, bind at 1, gets. cbv zeta.
  rewrite Hmiss. unfold try_catch.
  rewrite (searchEntities_try_run query (default [] types) (default 10 limit)
             w apiKey Hkey Hne). cbv zeta.
  destruct (arrived _) as [response |]; [| reflexivity].
  destruct (negb (ok response)); [reflexivity |].
  destruct (json response) as [data |]; [| reflexivity].
  destruct (fst (extract_entities data _)); reflexivity.
Qed.

(** X8.  A failed search is not remembered.  When the request of a call
    fails ([fetch] rejects or the response is not 2xx), the cache and the
    environment are as before, so the next call with the same arguments
    sends the same request again. *)
Theorem searchEntities_failure_retried (query : string)
  (types : option (list string)) (limit : option Z) (w : World) apiKey :
  kg_searchCache w !! search_key query (default [] types) (default 10 limit) = None ->
  env_apiKey w = Some apiKey -> apiKey <> "" ->
  (arrived (network w (List.length (requests w))
              (search_url query apiKey (default [] types) (default 10 limit))) = None \/
   exists response,
     arrived (network w (List.length (requests w))
                (search_url query apiKey (default [] types) (default 10 limit)))
     = Some response /\ ok response = false) ->
  requests (snd (searchEntities query types limit
                   (snd (searchEntities query types limit w))))
  = (requests w
     ++ [search_url query apiKey (default [] types) (default 10 limit);
         search_url query apiKey (default [] types) (default 10 limit)])%list.
Proof.
  intros Hmiss Hkey Hne Hfail.
  pose proof (searchEntities_try_run query (default [] types) (default 10 limit)
                w apiKey Hkey Hne) as Hrun. cbv zeta in Hrun.
  assert (Hthrow : exists e w1,
             searchEntities_try query (default [] types) (default 10 limit) w
             = (Thrown e, w1)).
  { destruct Hfail as [Hnone | (response & Hsome & Hok)].
    - rewrite Hnone in Hrun. eauto.
    - rewrite Hsome, Hok in Hrun. cbn [negb] in Hrun. eauto. }
  destruct Hthrow as (e & w1 & Hthrow).
  destruct (searchEntities_try_thrown _ _ _ _ _ _ Hthrow) as (Hc & _ & He).
  pose proof (searchEntities_miss_requests query types limit w apiKey Hmiss Hkey Hne)
    as Hreq1.
  rewrite (searchEntities_caught _ _ _ _ _ _ Hmiss Hthrow) in *. cbn [snd] in *.
  rewrite (searchEntities_miss_requests query types limit _ apiKey).
  - rewrite Hreq1, <- app_assoc. reflexivity.
  - cbn. now rewrite Hc.
  - cbn. now rewrite He.
  - exact Hne.
Qed.

Lemma searchEntities_failure_retried_witness :
  requests (snd (searchEntities "down" None None
                   (snd (searchEntities "down" None None kg_world))))
  = [search_url "down" "KEY" [] 10; search_url "down" "KEY" [] 10].
Proof.
  apply (searchEntities_failure_retried "down" None None kg_world "KEY");
    try reflexivity; [discriminate |].
  right. eexists. split; reflexivity.
Defined.

End SearchEntitiesMore.

(** ** Categories, tag by tag *)

Section CategoryByTag.
Import KnowledgeGraph JsString JsStringFacts.

Lemma startsWith_before_space (k a b : string) :
  all_chars not_space k = true ->
  startsWith k (a +:+ String " " b) = startsWith k a.
Proof.
  revert a. induction k as [| c k IH]; intros a Hk; [reflexivity |].
  cbn [all_chars] in Hk. apply andb_prop in Hk as [Hc Hk].
  destruct a as [| x a].
  - change ("" +:+ String " " b) with (String " " b). cbn [startsWith].
    unfold not_space in Hc. now destruct (Ascii.eqb c " ").
  - rewrite app_cons. cbn [startsWith]. now rewrite IH.
Qed.

(** A keyword without a space lies on one side of a separating space. *)
Lemma includes_around_space (k a b : string) :
  all_chars not_space k = true ->
  includes (a +:+ String " " b) k = includes a k || includes b k.
Proof.
  intros Hk. induction a as [| x a IH].
  - change ("" +:+ String " " b) with (String " " b). cbn [includes].
    change (String " " b) with ("" +:+ String " " b) at 1.
    rewrite (startsWith_before_space k "" b Hk). now rewrite orb_false_r.
  - rewrite app_cons. cbn [includes]. rewrite IH.
    rewrite <- (app_cons x a (String " " b)).
    rewrite (startsWith_before_space k (String x a) b Hk).
    now rewrite orb_assoc.
Qed.

Lemma includes_join_space (k : string) (tags : list string) :
  all_chars not_space k = true -> k <> "" ->
  includes (join " " tags) k = existsb (fun tag => includes tag k) tags.
Proof.
  intros Hk Hne. induction tags as [| x [| y r] IH].
  - destruct k; [congruence | reflexivity].
  - cbn. now rewrite orb_false_r.
  - change (join " " (x :: y :: r)) with (x +:+ String " " (join " " (y :: r))).
    rewrite (includes_around_space k x _ Hk), IH. reflexivity.
Qed.

Lemma existsb_orb {A} (f g : A -> bool) (xs : list A) :
  existsb (fun x => f x || g x) xs = existsb f xs || existsb g xs.
Proof.
  induction xs as [| x xs IH]; [reflexivity |]. simpl. rewrite IH.
  destruct (f x), (g x), (existsb f xs), (existsb g xs); reflexivity.
Qed.

Lemma existsb_false {A} (xs : list A) : existsb (fun _ => false) xs = false.
Proof. induction xs; [reflexivity | exact IHxs]. Qed.

Lemma existsb_map {A B} (f : A -> B) (p : B -> bool) (xs : list A) :
  existsb p (map f xs) = existsb (fun x => p (f x)) xs.
Proof. induction xs as [| x xs IH]; [reflexivity | simpl; now rewrite IH]. Qed.

Lemma includes_any_by_tag (keywords : list string) (types : list string) :
  forallb (fun k => all_chars not_space k && negb (String.eqb k "")) keywords = true ->
  includes_any (toLowerCase (join " " types)) keywords
  = some_tag_matches keywords types.
Proof.
  intros Hks. unfold includes_any, some_tag_matches.
  rewrite toLowerCase_join.
  induction keywords as [| k ks IH].
  - unfold tag_matches. cbn [existsb]. now rewrite existsb_false.
  - cbn [forallb] in Hks. apply andb_prop in Hks as [Hk Hks].
    apply andb_prop in Hk as [Hsp Hne].
    unfold tag_matches in *. cbn [existsb].
    rewrite (existsb_orb (fun tag => includes (toLowerCase tag) k)
               (fun tag => existsb (includes (toLowerCase tag)) ks) types).
    rewrite <- (IH Hks). f_equal.
    rewrite includes_join_space; [apply existsb_map | exact Hsp |].
    intros ->. discriminate.
Qed.

(** X9.  [determineCategory] decides tag by tag: joining the tags with a
    space never makes a keyword match across two tags.  The category is
    that of the first keyword group, in the order music, celebrity, media,
    fashion, of which some single tag, lower-cased, contains a keyword;
    ["celebrities"] when no tag matches any group. *)
Theorem determineCategory_by_tag (entity : KnowledgeGraphEntity) :
  determineCategory entity =
  if some_tag_matches music_keywords (default [] (ent_type entity)) then "artists"
  else if some_tag_matches celebrity_keywords (default [] (ent_type entity))
       then "celebrities"
  else if some_tag_matches media_keywords (default [] (ent_type entity)) then "media"
  else if some_tag_matches fashion_keywords (default [] (ent_type entity))
       then "fashion"
  else "celebrities".
Proof.
  unfold determineCategory, typeStr_of. cbv zeta.
  rewrite !includes_any_by_tag by reflexivity. reflexivity.
Qed.

End CategoryByTag.

(** ** Identifier extraction *)

Section ExtractWikidataId.
Import KnowledgeGraph JsString JsStringFacts.

(** X10.  [extractWikidataId] returns an id exactly in two cases.  Either
    the identifier holds [wikidata.org/entity/Q] followed by a digit, and
    the id is [Q] and the longest run of digits after the leftmost such
    place.  Or the identifier holds no such place, it holds [/m/] followed
    by a word character, and the id is the longest run of word characters
    after the leftmost such place.  In both cases the id is in the
    identifier and is not empty. *)
Theorem extractWikidataId_sound (entityId id : string) :
  extractWikidataId entityId = Some id <->
  (exists digits pre rest,
     id = "Q" +:+ digits /\
     entityId = pre +:+ "wikidata.org/entity/Q" +:+ digits +:+ rest /\
     digits <> "" /\ all_chars is_digit digits = true /\
     starts_in is_digit rest = false /\
     forall pre' c rest',
       is_digit c = true ->
       entityId = pre' +:+ "wikidata.org/entity/Q" +:+ String c rest' ->
       (String.length pre <= String.length pre')%nat) \/
  ((forall pre c rest,
      is_digit c = true ->
      entityId <> pre +:+ "wikidata.org/entity/Q" +:+ String c rest) /\
   exists pre rest,
     entityId = pre +:+ "/m/" +:+ id +:+ rest /\
     id <> "" /\ all_chars is_word id = true /\
     starts_in is_word rest = false /\
     forall pre' c rest',
       is_word c = true ->
       entityId = pre' +:+ "/m/" +:+ String c rest' ->
       (String.length pre <= String.length pre')%nat).
Proof.
  rewrite extractWikidataId_spec. unfold leftmost_group, occurs_at.
  split.
  - intros [(digits & -> & pre & rest & E & Hne & Hall & Hrest & Hleft)
           | (Hno & pre & rest & E & Hne & Hall & Hrest & Hleft)].
    + left. exists digits, pre, rest. repeat split; try assumption.
      intros pre' c rest' Hc E'. apply Hleft. now exists c, rest'.
    + right. split.
      * intros pre0 c rest0 Hc E0. apply (Hno pre0). now exists c, rest0.
      * exists pre, rest. repeat split; try assumption.
        intros pre' c rest' Hc E'. apply Hleft. now exists c, rest'.
  - intros [(digits & pre & rest & -> & E & Hne & Hall & Hrest & Hleft)
           | (Hno & pre & rest & E & Hne & Hall & Hrest & Hleft)].
    + left. exists digits. split; [reflexivity |].
      exists pre, rest. repeat split; try assumption.
      intros pre' (c & rest' & Hc & E'). exact (Hleft pre' c rest' Hc E').
    + right. split.
      * intros pre0 (c & rest0 & Hc & E0). exact (Hno pre0 c rest0 Hc E0).
      * exists pre, rest. repeat split; try assumption.
        intros pre' (c & rest' & Hc & E'). exact (Hleft pre' c rest' Hc E').
Qed.

Lemma extractWikidataId_sound_witness :
  extractWikidataId "http://www.wikidata.org/entity/Q1/wikidata.org/entity/Q22"
  = Some "Q1" /\
  exists pre rest,
    "http://www.wikidata.org/entity/Q1/wikidata.org/entity/Q22"
    = pre +:+ "wikidata.org/entity/Q" +:+ "1" +:+ rest /\
    (String.length pre <= 11)%nat.
Proof.
  split; [reflexivity |].
  destruct (proj1 (extractWikidataId_sound
                     "http://www.wikidata.org/entity/Q1/wikidata.org/entity/Q22"
                     "Q1") eq_refl)
    as [(digits & pre & rest & Hid & E & _ & _ & _ & Hleft) | [Hnone _]].
  - change ("Q" +:+ digits) with (String "Q" digits) in Hid.
    injection Hid as <-. exists pre, rest. split; [exact E |].
    exact (Hleft "http://www." "1"%char "/wikidata.org/entity/Q22" eq_refl eq_refl).
  - exfalso.
    exact (Hnone "http://www." "1"%char "/wikidata.org/entity/Q22" eq_refl eq_refl).
Defined.

(** X11.  [extractWikidataId] returns [null] exactly on the identifiers
    that hold neither [wikidata.org/entity/Q] followed by a digit nor
    [/m/] followed by a word character. *)
Theorem extractWikidataId_None (entityId : string) :
  extractWikidataId entityId = None <->
  (forall pre c rest,
     is_digit c = true ->
     entityId <> pre +:+ "wikidata.org/entity/Q" +:+ String c rest) /\
  (forall pre c rest,
     is_word c = true -> entityId <> pre +:+ "/m/" +:+ String c rest).
Proof.
  split.
  - intros Hnone. unfold extractWikidataId in Hnone.
    destruct entityId as [| c0 s0].
    + split; intros [| x pre] c rest _; discriminate.
    + destruct (match_first "wikidata.org/entity/Q" is_digit (String c0 s0))
        eqn:Ew; [discriminate |].
      destruct (match_first "/m/" is_word (String c0 s0)) eqn:Ef; [discriminate |].
      split; intros pre c rest Hc E; rewrite E in *.
      * exact (match_first_found _ _ pre c rest Hc Ew).
      * exact (match_first_found _ _ pre c rest Hc Ef).
  - intros [Hw Hf]. unfold extractWikidataId.
    destruct entityId as [| c0 s0]; [reflexivity |].
    destruct (match_first "wikidata.org/entity/Q" is_digit (String c0 s0))
      as [g |] eqn:Ew.
    + destruct (match_first_Some _ _ _ _ Ew) as (pre & rest & E & Hne & Hall & _).
      destruct g as [| c g]; [congruence |]. cbn in Hall.
      apply andb_prop in Hall as [Hc _]. exfalso.
      apply (Hw pre c (g +:+ rest) Hc). rewrite E. now rewrite app_cons.
    + destruct (match_first "/m/" is_word (String c0 s0)) as [g |] eqn:Ef;
        [| reflexivity].
      destruct (match_first_Some _ _ _ _ Ef) as (pre & rest & E & Hne & Hall & _).
      destruct g as [| c g]; [congruence |]. cbn in Hall.
      apply andb_prop in Hall as [Hc _]. exfalso.
      apply (Hf pre c (g +:+ rest) Hc). rewrite E. now rewrite app_cons.
Qed.

End ExtractWikidataId.

(** ** Knowledge Graph items *)

Section KnowledgeGraphItems.
Import KnowledgeGraph Wikipedia ImageUtils JsString JsMapFacts.

Lemma logged_proxy (line url : string) (w : World) :
  url <> "" ->
  let r := (console_log line ;; getProxiedImageUrl (Some url)) w in
  requests (snd r) = requests w /\
  wp_contentCache (snd r) = wp_contentCache w /\
  clock (snd r) = clock w /\
  (cache_ok (urlCache w) -> fst r = Returned (proxied url)).
Proof.
  intros Hne. cbv zeta. unfold bind. rewrite console_log_run.
  destruct url as [| c s]; [congruence |]. cbn [getProxiedImageUrl].
  destruct (cached_spec ("proxy_" +:+ String c s)
              ("/api/image-proxy?url=" +:+ encodeURIComponent (String c s))
              (with_console (console w ++ [line]) w))
    as (u & w' & -> & Hcases).
  cbn [fst snd].
  destruct Hcases as [[Hg ->] | (_ & -> & ->)]; repeat split; try reflexivity.
  intros [_ Hco]. f_equal. cbn in Hg.
  exact (proj1 (Hco _ _ Hg) (String c s) eq_refl).
Qed.

(** X12.  An entity with an image never makes [getKnowledgeGraphImageUrl]
    go to the network: when [image.contentUrl] or, failing that,
    [image.url] is there, no request is issued, the Wikipedia content
    cache and the clock stay as they are, and on a well-formed URL cache
    the result is the proxied form of that URL, [contentUrl] first. *)
Theorem getKnowledgeGraphImageUrl_image_first (entity : KnowledgeGraphEntity)
  (img : EntityImage) (best : string) (w : World) :
  ent_image entity = Some img ->
  or_opt (img_contentUrl img) (img_url img) = Some best -> best <> "" ->
  requests (snd (getKnowledgeGraphImageUrl entity w)) = requests w /\
  wp_contentCache (snd (getKnowledgeGraphImageUrl entity w)) = wp_contentCache w /\
  clock (snd (getKnowledgeGraphImageUrl entity w)) = clock w /\
  (cache_ok (urlCache w) ->
   fst (getKnowledgeGraphImageUrl entity w) = Returned (proxied best)).
Proof.
  intros Himg Hbest Hne. unfold getKnowledgeGraphImageUrl. rewrite Himg.
  cbn [chain]. unfold or_opt, truthy in Hbest.
  destruct (img_contentUrl img) as [[| c1 s1] |].
  - rewrite Hbest. destruct best as [| c s]; [congruence |].
    apply logged_proxy. discriminate.
  - injection Hbest as <-. apply logged_proxy. discriminate.
  - rewrite Hbest. destruct best as [| c s]; [congruence |].
    apply logged_proxy. discriminate.
Qed.

Lemma getKnowledgeGraphImageUrl_image_first_witness :
  requests (snd (getKnowledgeGraphImageUrl miku_with_image wiki_world)) = [] /\
  fst (getKnowledgeGraphImageUrl miku_with_image wiki_world)
  = Returned "/api/image-proxy?url=https%3A%2F%2Fimg.example%2Fm.png".
Proof.
  destruct (getKnowledgeGraphImageUrl_image_first miku_with_image
              {| img_contentUrl := Some ""; img_url := Some "https://img.example/m.png" |}
              "https://img.example/m.png" wiki_world eq_refl eq_refl
              ltac:(discriminate)) as (Hreq & _ & _ & Hres).
  split; [exact Hreq |]. apply Hres. split; [constructor | intros k v [=]].
Defined.

Lemma append_nonempty_r (a b : string) : b <> "" -> a +:+ b <> "".
Proof.
  intros Hb. destruct a as [| c a]; [exact Hb |]. discriminate.
Qed.

Lemma or_else_nonempty (a : option string) (b : string) :
  b <> "" -> or_else a b <> "".
Proof. intros Hb. destruct a as [[| c s] |]; cbn; [exact Hb | discriminate | exact Hb]. Qed.

Lemma filter_Boolean_app (xs ys : list string) :
  filter_Boolean (xs ++ ys) = (filter_Boolean xs ++ filter_Boolean ys)%list.
Proof. unfold filter_Boolean. induction xs as [| x xs IH]; simpl; [reflexivity |].
  destruct (negb (String.eqb x "")); simpl; now rewrite IH. Qed.

Lemma filter_Boolean_length (xs : list string) :
  (List.length (filter_Boolean xs) <= List.length xs)%nat.
Proof.
  unfold filter_Boolean. induction xs as [| x xs IH]; simpl; [lia |].
  destruct (negb (String.eqb x "")); simpl; lia.
Qed.

Lemma filter_Boolean_incl (xs : list string) (x : string) :
  In x (filter_Boolean xs) -> In x xs.
Proof. unfold filter_Boolean. intros H. now apply List.filter_In in H as [H _]. Qed.

(** The features of a Knowledge Graph item, by the type tags and the
    canonical URL. *)
Lemma features_of_spec (types : list string) (url : option string) :
  Forall (fun f => f <> "") (features_of types url) /\
  (List.length (features_of types url) <= 4)%nat /\
  (truthy url = true ->
   features_of types url
   = (filter_Boolean (map strip_namespace (take 3 types)) ++ ["公式サイトあり"])%list) /\
  (truthy url = false ->
   features_of types url = filter_Boolean (map strip_namespace (take 3 types))).
Proof.
  unfold features_of. rewrite filter_Boolean_app. repeat split.
  - rewrite <- filter_Boolean_app. apply filter_Boolean_nonempty.
  - rewrite length_app.
    pose proof (filter_Boolean_length (map strip_namespace (take 3 types))) as H1.
    rewrite length_map, length_take in H1.
    pose proof (filter_Boolean_length [if truthy url then "公式サイトあり" else ""]) as H2.
    cbn [List.length] in H2. lia.
  - intros ->. reflexivity.
  - intros ->. cbn. now rewrite app_nil_r.
Qed.

(** X13.  Every item that [convertToRecommendationItem] returns is well
    formed.  The entity then has ["@type"]; the name and the identifier
    of the item are the entity's; [reason] and [officialUrl] are never
    empty; [features] holds no empty string and at most four entries,
    namely the first three type tags with a lower-case [namespace:] prefix
    removed (those left empty dropped), followed by the official-site
    badge exactly when the entity has a URL; and the image URL is what
    [getKnowledgeGraphImageUrl] gave for the entity, not empty when the
    URL cache holds no empty URL. *)
Theorem convertToRecommendationItem_well_formed (entity : KnowledgeGraphEntity)
  (item : RecommendationItem) (w w' : World) :
  convertToRecommendationItem entity w = (Returned item, w') ->
  exists types,
    ent_type entity = Some types /\
    name item = ent_name entity /\
    apiData item = KnowledgeGraphData (ent_id entity) types /\
    reason item <> "" /\
    officialUrl item <> "" /\
    Forall (fun f => f <> "") (features item) /\
    (List.length (features item) <= 4)%nat /\
    features item
    = (filter_Boolean (map strip_namespace (take 3 types))
       ++ (if truthy (ent_url entity) then ["公式サイトあり"] else []))%list /\
    exists u, imageUrl item = Some u /\
              getKnowledgeGraphImageUrl entity w = (Returned u, w') /\
              (nonempty_values (urlCache w) -> u <> "").
Proof.
  intros Hrun.
  destruct (getKnowledgeGraphImageUrl_total entity w) as (u & w1 & E & Hu).
  unfold convertToRecommendationItem in Hrun.
  rewrite (bind_returned _ _ _ _ _ E) in Hrun.
  destruct (ent_type entity) as [types |]; [| discriminate Hrun].
  injection Hrun as <- <-. exists types. split; [reflexivity |].
  cbn [name apiData reason officialUrl features imageUrl].
  destruct (features_of_spec types (ent_url entity)) as (Hne & Hlen & Hurl & Hnourl).
  repeat split; try assumption.
  - apply or_else_nonempty, or_else_nonempty, append_nonempty_r. discriminate.
  - apply or_else_nonempty, or_else_nonempty. discriminate.
  - destruct (truthy (ent_url entity)); [now apply Hurl |].
    rewrite app_nil_r. now apply Hnourl.
  - exists u. split; [reflexivity |]. split; [exact E |].
    intros Hinv. now apply Hu.
Qed.

Lemma convertToRecommendationItem_well_formed_witness :
  exists item w',
    convertToRecommendationItem miku_with_image wiki_world = (Returned item, w') /\
    features item = ["Thing"; "MusicGroup"; "公式サイトあり"].
Proof.
  destruct (convertToRecommendationItem miku_with_image wiki_world)
    as [[item | e] w'] eqn:E; [| vm_compute in E; discriminate E].
  exists item, w'. split; [reflexivity |].
  destruct (convertToRecommendationItem_well_formed miku_with_image item
              wiki_world w' E)
    as (types & Ht & _ & _ & _ & _ & _ & _ & Hf & _).
  injection Ht as <-. exact Hf.
Defined.

End KnowledgeGraphItems.

(** ** The Wikipedia client: totality and cache behaviour *)

Section WikipediaMore.
Import Wikipedia JsString.

Lemma searchWikipedia_expired (query : string) (limit : option Z) (w : World)
  data timestamp :
  wp_searchCache w !! search_key query (default 5 limit) = Some (data, timestamp) ->
  CACHE_TTL <= clock w - timestamp ->
  searchWikipedia query limit w
  = searchWikipedia query limit
      (with_wp_searchCache
         (delete (search_key query (default 5 limit)) (wp_searchCache w)) w).
Proof.
  intros Hentry Hge. unfold searchWikipedia. cbv zeta.
  rewrite (bind_returned _ _ _ _ _
             (searchCache_check_expired _ w data timestamp Hentry Hge)).
  symmetry.
  rewrite (bind_returned _ _ _ _ _
             (searchCache_check_miss (search_key query (default 5 limit))
                (with_wp_searchCache
                   (delete (search_key query (default 5 limit)) (wp_searchCache w)) w)
                (lookup_delete_eq (wp_searchCache w) _))).
  reflexivity.
Qed.

Lemma getWikipediaContent_fresh (pageId : PageId) (w : World) data timestamp :
  wp_contentCache w !! content_key pageId = Some (data, timestamp) ->
  clock w - timestamp < CACHE_TTL ->
  getWikipediaContent pageId w = (Returned data, w).
Proof.
  intros Hentry Hlt. unfold getWikipediaContent, bind.
  rewrite getWikipediaContent_start_run. cbv zeta. rewrite Hentry.
  destruct (Z.ltb_spec (clock w - timestamp) CACHE_TTL); [reflexivity | lia].
Qed.

Lemma getWikipediaContent_expired (pageId : PageId) (w : World) data timestamp :
  wp_contentCache w !! content_key pageId = Some (data, timestamp) ->
  CACHE_TTL <= clock w - timestamp ->
  getWikipediaContent pageId w
  = getWikipediaContent pageId
      (with_wp_contentCache (delete (content_key pageId) (wp_contentCache w)) w).
Proof.
  intros Hentry Hge. unfold getWikipediaContent, bind.
  rewrite !getWikipediaContent_start_run. cbv zeta. rewrite Hentry.
  cbn [wp_contentCache with_wp_contentCache]. rewrite lookup_delete_eq.
  destruct (Z.ltb_spec (clock w - timestamp) CACHE_TTL); [lia | reflexivity].
Qed.

(** A miss of the content cache, by the reply of the network. *)
Lemma getWikipediaContent_miss (pageId : PageId) (w : World) :
  wp_contentCache w !! content_key pageId = None ->
  getWikipediaContent pageId w
  = getWikipediaContent_resume pageId (List.length (requests w))
      (with_requests (requests w ++ [content_url pageId]) w).
Proof.
  intros Hmiss. unfold getWikipediaContent, bind.
  rewrite getWikipediaContent_start_run. cbv zeta. now rewrite Hmiss.
Qed.

Lemma getWikipediaContent_resume_keeps_requests (pageId : PageId) (i : nat)
  (w : World) :
  requests (snd (getWikipediaContent_resume pageId i w)) = requests w.
Proof.
  rewrite getWikipediaContent_resume_run. cbv zeta.
  destruct (arrived _) as [response |]; [| reflexivity].
  destruct (negb (ok response)); [reflexivity |].
  destruct (json response) as [data |]; [| reflexivity].
  destruct (b_query data) as [q |]; [| reflexivity].
  destruct (pages q); reflexivity.
Qed.

(** X14.  The Wikipedia client never throws.  In every world
    [searchWikipedia] returns a list and [getWikipediaContent] a page or
    nothing, each after at most one request, the one for its own URL; and
    [getWikipediaRecommendations] returns a list. *)
Theorem wikipedia_client_never_throws (query : string) (limit : option Z)
  (pageId : PageId) (w : World) :
  (exists results w',
     searchWikipedia query limit w = (Returned results, w') /\
     (requests w' = requests w \/
      requests w' = (requests w ++ [search_url query (default 5 limit)])%list)) /\
  (exists page w',
     getWikipediaContent pageId w = (Returned page, w') /\
     (requests w' = requests w \/
      requests w' = (requests w ++ [content_url pageId])%list)) /\
  (exists items w',
     getWikipediaRecommendations query limit w = (Returned items, w')).
Proof.
  split; [| split].
  - destruct (searchWikipedia_returns query limit w) as (results & w' & E).
    exists results, w'. split; [exact E |].
    destruct (wp_searchCache w !! search_key query (default 5 limit))
      as [[data timestamp] |] eqn:Hentry.
    + destruct (Z.lt_ge_cases (clock w - timestamp) CACHE_TTL) as [Hlt | Hge].
      * rewrite (searchWikipedia_fresh _ _ _ _ _ Hentry Hlt) in E.
        injection E as _ <-. now left.
      * right. rewrite (searchWikipedia_expired _ _ _ _ _ Hentry Hge) in E.
        pose proof (searchWikipedia_miss_requests query limit
                      (with_wp_searchCache
                         (delete (search_key query (default 5 limit))
                            (wp_searchCache w)) w)
                      (lookup_delete_eq (wp_searchCache w) _)) as Hreq.
        rewrite E in Hreq. exact Hreq.
    + right. pose proof (searchWikipedia_miss_requests query limit w Hentry) as Hreq.
      now rewrite E in Hreq.
  - destruct (getWikipediaContent_returns pageId w) as (page & w' & E).
    exists page, w'. split; [exact E |].
    destruct (wp_contentCache w !! content_key pageId)
      as [[data timestamp] |] eqn:Hentry.
    + destruct (Z.lt_ge_cases (clock w - timestamp) CACHE_TTL) as [Hlt | Hge].
      * rewrite (getWikipediaContent_fresh _ _ _ _ Hentry Hlt) in E.
        injection E as _ <-. now left.
      * right. rewrite (getWikipediaContent_expired _ _ _ _ Hentry Hge) in E.
        rewrite getWikipediaContent_miss in E by apply lookup_delete_eq.
        pose proof (getWikipediaContent_resume_keeps_requests pageId
                      (List.length (requests w))
                      (with_requests (requests w ++ [content_url pageId])
                         (with_wp_contentCache
                            (delete (content_key pageId) (wp_contentCache w)) w)))
          as Hreq.
        cbn [requests with_requests with_wp_contentCache] in E, Hreq.
        rewrite E in Hreq. exact Hreq.
    + right. rewrite (getWikipediaContent_miss _ _ Hentry) in E.
      pose proof (getWikipediaContent_resume_keeps_requests pageId
                    (List.length (requests w))
                    (with_requests (requests w ++ [content_url pageId]) w)) as Hreq.
      rewrite E in Hreq. exact Hreq.
  - apply returns_try_catch. intros e.
    apply returns_bind; [apply console_log_returns | intros _; apply returns_ret].
Qed.

(** X15.  The content cache has the same 24h rule as the search cache.
    With an entry for the page, [getWikipediaContent] returns the cached
    page and changes nothing while [now - timestamp < 24h]; from then on
    it behaves as in the world without the entry and issues one request. *)
Theorem getWikipediaContent_cache_ttl (pageId : PageId) (w : World)
  (data : option WikiPage) (timestamp : Z) :
  wp_contentCache w !! content_key pageId = Some (data, timestamp) ->
  (clock w - timestamp < 24 * 60 * 60 * 1000 ->
   getWikipediaContent pageId w = (Returned data, w)) /\
  (24 * 60 * 60 * 1000 <= clock w - timestamp ->
   getWikipediaContent pageId w
   = getWikipediaContent pageId
       (with_wp_contentCache (delete (content_key pageId) (wp_contentCache w)) w) /\
   requests (snd (getWikipediaContent pageId w))
   = (requests w ++ [content_url pageId])%list).
Proof.
  intros Hentry. split.
  - exact (getWikipediaContent_fresh pageId w data timestamp Hentry).
  - intros Hge.
    pose proof (getWikipediaContent_expired pageId w data timestamp Hentry Hge) as E.
    split; [exact E |]. rewrite E.
    rewrite getWikipediaContent_miss by apply lookup_delete_eq.
    now rewrite getWikipediaContent_resume_keeps_requests.
Qed.

Lemma getWikipediaContent_cache_ttl_witness :
  getWikipediaContent (NumId 1) (fetched_at (1020 + 86399999))
  = (Returned (Some page1), fetched_at (1020 + 86399999)) /\
  requests (snd (getWikipediaContent (NumId 1) (fetched_at (1020 + 86400000))))
  = [content_url (NumId 1); content_url (NumId 1)].
Proof.
  split.
  - apply (getWikipediaContent_cache_ttl (NumId 1) (fetched_at (1020 + 86399999))
             (Some page1) 1020); [reflexivity | vm_compute; reflexivity].
  - destruct (getWikipediaContent_cache_ttl (NumId 1) (fetched_at (1020 + 86400000))
                (Some page1) 1020 eq_refl) as [_ H].
    destruct H as [_ ->]; [vm_compute; discriminate | reflexivity].
Defined.

(** X16.  A reply that lacks the page is remembered like a page.  When
    the content request succeeds and its [pages] object has no entry for
    the page id, [getWikipediaContent] returns nothing and caches that
    nothing with a time stamp: for the next 24h the same call returns
    nothing again, without asking the network. *)
Theorem getWikipediaContent_missing_page_cached (pageId : PageId) (w : World)
  response data q ps (t : Z) :
  wp_contentCache w !! content_key pageId = None ->
  arrived (network w (List.length (requests w)) (content_url pageId)) = Some response ->
  ok response = true -> json response = Some data ->
  b_query data = Some q -> pages q = Some ps ->
  ps !! pageId_str pageId = None ->
  fst (getWikipediaContent pageId w) = Returned None /\
  (t - clock (snd (getWikipediaContent pageId w)) < CACHE_TTL ->
   getWikipediaContent pageId (with_clock t (snd (getWikipediaContent pageId w)))
   = (Returned None, with_clock t (snd (getWikipediaContent pageId w)))).
Proof.
  intros Hmiss Harr Hok Hjson Hq Hps Hpage.
  rewrite (getWikipediaContent_miss pageId w Hmiss).
  rewrite getWikipediaContent_resume_run. cbv zeta.
  cbn [network with_requests]. rewrite Harr, Hok, Hjson, Hq, Hps, Hpage.
  cbn [negb fst snd]. split; [reflexivity |]. intros Hlt.
  apply (getWikipediaContent_fresh pageId _ None
           (clock w + elapsed (network w (List.length (requests w))
                                 (content_url pageId)))).
  - cbn. apply lookup_insert_eq.
  - cbn in *. exact Hlt.
Qed.

Lemma getWikipediaContent_missing_page_cached_witness :
  fst (getWikipediaContent (NumId 7) wrong_page_world) = Returned None /\
  getWikipediaContent (NumId 7)
    (with_clock 5000 (snd (getWikipediaContent (NumId 7) wrong_page_world)))
  = (Returned None,
     with_clock 5000 (snd (getWikipediaContent (NumId 7) wrong_page_world))).
Proof.
  destruct (getWikipediaContent_missing_page_cached (NumId 7) wrong_page_world
              {| ok := true; statusText := "OK";
                 json := Some {| itemListElement := None;
                                 b_query := Some {| search := None;
                                                    pages := Some {[ "1" := page1 ]} |} |} |}
              {| itemListElement := None;
                 b_query := Some {| search := None; pages := Some {[ "1" := page1 ]} |} |}
              {| search := None; pages := Some {[ "1" := page1 ]} |}
              {[ "1" := page1 ]} 5000
              eq_refl eq_refl eq_refl eq_refl eq_refl eq_refl eq_refl)
    as [Hnone Hagain].
  split; [exact Hnone |]. apply Hagain. vm_compute. reflexivity.
Defined.

(** X17.  A failed content fetch is not remembered.  When the request
    fails ([fetch] rejects or the response is not 2xx),
    [getWikipediaContent] returns [null] and leaves the content cache as
    it was, so the next call for the page sends the request again. *)
Theorem getWikipediaContent_failure_not_cached (pageId : PageId) (w : World) :
  wp_contentCache w !! content_key pageId = None ->
  (arrived (network w (List.length (requests w)) (content_url pageId)) = None \/
   exists response,
     arrived (network w (List.length (requests w)) (content_url pageId))
     = Some response /\ ok response = false) ->
  fst (getWikipediaContent pageId w) = Returned None /\
  wp_contentCache (snd (getWikipediaContent pageId w)) = wp_contentCache w /\
  requests (snd (getWikipediaContent pageId (snd (getWikipediaContent pageId w))))
  = (requests w ++ [content_url pageId; content_url pageId])%list.
Proof.
  intros Hmiss Hfail.
  assert (H1 : fst (getWikipediaContent pageId w) = Returned None /\
               wp_contentCache (snd (getWikipediaContent pageId w)) = wp_contentCache w /\
               requests (snd (getWikipediaContent pageId w))
               = (requests w ++ [content_url pageId])%list).
  { rewrite (getWikipediaContent_miss pageId w Hmiss).
    rewrite getWikipediaContent_resume_run. cbv zeta. cbn [network with_requests].
    destruct Hfail as [-> | (response & -> & ->)]; cbn; auto. }
  destruct H1 as (Hres & Hcache & Hreq). split; [exact Hres |]. split; [exact Hcache |].
  rewrite getWikipediaContent_miss by now rewrite Hcache.
  rewrite getWikipediaContent_resume_keeps_requests. cbn [requests with_requests].
  rewrite Hreq, <- app_assoc. reflexivity.
Qed.

Lemma getWikipediaContent_failure_not_cached_witness :
  fst (getWikipediaContent (NumId 2) wiki_world) = Returned None /\
  requests (snd (getWikipediaContent (NumId 2)
                   (snd (getWikipediaContent (NumId 2) wiki_world))))
  = [content_url (NumId 2); content_url (NumId 2)].
Proof.
  destruct (getWikipediaContent_failure_not_cached (NumId 2) wiki_world eq_refl)
    as (Hres & _ & Hreq).
  - right. eexists. split; reflexivity.
  - split; [exact Hres | exact Hreq].
Defined.

(** X18.  Stale search data is not served.  When the entry for a search
    is 24h old or more and the fresh request fails ([fetch] rejects or the
    response is not 2xx), [searchWikipedia] returns [[]], not the old
    list, and the entry is gone from the cache; the other entries are
    untouched. *)
Theorem searchWikipedia_stale_dropped (query : string) (limit : option Z) (w : World)
  (data : list SearchResult) (timestamp : Z) :
  wp_searchCache w !! search_key query (default 5 limit) = Some (data, timestamp) ->
  24 * 60 * 60 * 1000 <= clock w - timestamp ->
  (arrived (network w (List.length (requests w))
              (search_url query (default 5 limit))) = None \/
   exists response,
     arrived (network w (List.length (requests w))
                (search_url query (default 5 limit))) = Some response /\
     ok response = false) ->
  fst (searchWikipedia query limit w) = Returned [] /\
  wp_searchCache (snd (searchWikipedia query limit w))
  = delete (search_key query (default 5 limit)) (wp_searchCache w).
Proof.
  intros Hentry Hge Hfail.
  rewrite (searchWikipedia_expired query limit w data timestamp Hentry Hge).
  rewrite searchWikipedia_miss by apply lookup_delete_eq. cbv zeta.
  cbn [network requests with_wp_searchCache].
  destruct Hfail as [-> | (response & -> & ->)]; cbn; auto.
Qed.

Lemma searchWikipedia_stale_dropped_witness :
  wp_searchCache (offline (searched_at (1020 + 86400000))) !! search_key "miku" 5
  = Some (three_results, 1020) /\
  fst (searchWikipedia "miku" None (offline (searched_at (1020 + 86400000))))
  = Returned [] /\
  wp_searchCache
    (snd (searchWikipedia "miku" None (offline (searched_at (1020 + 86400000)))))
  !! search_key "miku" 5 = None.
Proof.
  split; [reflexivity |].
  destruct (searchWikipedia_stale_dropped "miku" None
              (offline (searched_at (1020 + 86400000))) three_results 1020 eq_refl)
    as [Hres Hcache].
  - vm_compute. discriminate.
  - left. reflexivity.
  - split; [exact Hres |]. rewrite Hcache. apply lookup_delete_eq.
Defined.

End WikipediaMore.

(** ** Wikipedia recommendations: requests and items *)

Section RecommendationsMore.
Import Wikipedia JsString.

(** On a cold content cache every callback issues its request, in index
    order, and none of them touches the cache before it yields. *)
Lemma start_all_cold (topResults : list SearchResult) (w : World) :
  (forall result,
     In result topResults ->
     wp_contentCache w !! content_key (NumId (sr_pageid result)) = None) ->
  exists started w',
    mapM (fun result =>
            s <- getWikipediaContent_start (NumId (sr_pageid result)) ;;
            ret (result, s))
         topResults w = (Returned started, w') /\
    requests w'
    = (requests w
       ++ map (fun result => content_url (NumId (sr_pageid result))) topResults)%list /\
    wp_contentCache w' = wp_contentCache w.
Proof.
  revert w. induction topResults as [| r rs IH]; intros w Hcold.
  - exists [], w. cbn. now rewrite app_nil_r.
  - cbn [mapM]. unfold bind at 1. unfold bind at 1.
    rewrite getWikipediaContent_start_run. cbv zeta.
    rewrite (Hcold r (or_introl eq_refl)). cbn [ret].
    destruct (IH (with_requests
                    (requests w ++ [content_url (NumId (sr_pageid r))]) w))
      as (started & w' & E & Hreq & Hcache).
    { intros result Hin. cbn. apply Hcold. now right. }
    rewrite (bind_returned _ _ _ _ _ E). cbn [ret].
    eexists _, w'. split; [reflexivity |]. split; [| exact Hcache].
    rewrite Hreq. cbn [requests with_requests map]. now rewrite <- app_assoc.
Qed.

Lemma settle_all_keeps_requests (started : list (SearchResult * Started)) (w : World) :
  requests (snd (mapM (fun '(result, s) => settle (NumId (sr_pageid result)) s)
                   started w))
  = requests w.
Proof.
  revert w. induction started as [| [r s] rest IH]; intros w; [reflexivity |].
  cbn [mapM]. unfold bind at 1.
  assert (Hs : requests (snd (settle (NumId (sr_pageid r)) s w)) = requests w).
  { destruct s; [reflexivity | apply getWikipediaContent_resume_keeps_requests]. }
  destruct (settle (NumId (sr_pageid r)) s w) as [[c | e] w1]; cbn [snd] in *;
    [| exact Hs].
  unfold bind at 1. specialize (IH w1).
  destruct (mapM _ rest w1) as [[cs | e] w2]; unfold ret; cbn [snd] in *; congruence.
Qed.

(** X19.  With nothing about the pages in the content cache,
    [getWikipediaRecommendations] sends, after the search, one content
    request for every result of [searchResults.slice(0, limit)], in the
    order of the results, and nothing else: a page that shows twice among
    the results is requested twice. *)
Theorem getWikipediaRecommendations_requests (query : string) (limit : option Z)
  (w : World) searchResults w1 :
  searchWikipedia query limit w = (Returned searchResults, w1) ->
  searchResults <> [] ->
  (forall result,
     In result (slice0 (default 5 limit) searchResults) ->
     wp_contentCache w1 !! content_key (NumId (sr_pageid result)) = None) ->
  requests (snd (getWikipediaRecommendations query limit w))
  = (requests w1
     ++ map (fun result => content_url (NumId (sr_pageid result)))
            (slice0 (default 5 limit) searchResults))%list.
Proof.
  intros Hsearch Hne Hcold.
  destruct (contents_of_returns (slice0 (default 5 limit) searchResults) w1)
    as (contents & w2 & Hcontents).
  rewrite (getWikipediaRecommendations_run _ _ _ _ _ _ _ Hsearch Hne Hcontents).
  cbn [snd].
  destruct (start_all_cold _ w1 Hcold) as (started & w' & E & Hreq & _).
  unfold contents_of in Hcontents. rewrite (bind_returned _ _ _ _ _ E) in Hcontents.
  pose proof (settle_all_keeps_requests started w') as Hkeep.
  rewrite Hcontents in Hkeep. cbn [snd] in Hkeep. now rewrite Hkeep.
Qed.

Lemma getWikipediaRecommendations_requests_witness :
  requests (snd (getWikipediaRecommendations "miku" None twice_world))
  = [search_url "miku" 5; content_url (NumId 1); content_url (NumId 1)].
Proof.
  apply (getWikipediaRecommendations_requests "miku" None twice_world
           [ {| sr_pageid := 1; sr_title := "A" |};
             {| sr_pageid := 1; sr_title := "A" |} ] _ eq_refl).
  - discriminate.
  - intros result _. reflexivity.
Defined.

Lemma count_high_surrogate (b0 b1 b2 : ascii) :
  count_units 0 (high_surrogate b0 b1 b2) = 1%nat.
Proof. reflexivity. Qed.

(** [substring] never yields more code units than asked for. *)
Lemma take_units_count (n copy : nat) (s : string) :
  (count_units copy (take_units n copy s) <= n)%nat.
Proof.
  revert n copy. induction s as [| c s IH]; intros n copy; [cbn; lia |].
  destruct copy as [| k]; cbn [take_units].
  - destruct (utf8_width c) as [w u] eqn:Hw.
    destruct (Nat.leb_spec u n) as [Hle | Hgt].
    + cbn [count_units]. rewrite Hw. specialize (IH (n - u)%nat (w - 1)%nat). lia.
    + destruct n as [| n']; [cbn; lia |].
      destruct s as [| b1 [| b2 s2]]; try (cbn; lia).
      rewrite count_high_surrogate. lia.
  - cbn [count_units]. apply IH.
Qed.

(** A string that is short enough is kept whole. *)
Lemma take_units_all (n copy : nat) (s : string) :
  (count_units copy s <= n)%nat -> take_units n copy s = s.
Proof.
  revert n copy. induction s as [| c s IH]; intros n copy H; [reflexivity |].
  destruct copy as [| k]; cbn [take_units count_units] in *.
  - destruct (utf8_width c) as [w u] eqn:Hw.
    destruct (Nat.leb_spec u n) as [Hle | Hgt]; [| lia].
    f_equal. apply IH. lia.
  - f_equal. now apply IH.
Qed.

(** What [substring] keeps is a prefix of the string, followed by a high
    surrogate when the cut falls inside a character of two code units. *)
Lemma take_units_prefix (n copy : nat) (s : string) :
  exists pre rest,
    s = pre +:+ rest /\
    (take_units n copy s = pre \/
     exists b0 b1 b2 rest',
       rest = String b0 (String b1 (String b2 rest')) /\
       take_units n copy s = pre +:+ high_surrogate b0 b1 b2).
Proof.
  revert n copy. induction s as [| c s IH]; intros n copy.
  - exists "", "". split; [reflexivity | left; reflexivity].
  - destruct copy as [| k]; cbn [take_units].
    + destruct (utf8_width c) as [w u] eqn:Hw.
      destruct (Nat.leb_spec u n) as [Hle | Hgt].
      * destruct (IH (n - u)%nat (w - 1)%nat) as (pre & rest & E & H).
        exists (String c pre), rest. split; [now rewrite E |].
        destruct H as [-> | (b0 & b1 & b2 & rest' & Hr & ->)]; [now left |].
        right. exists b0, b1, b2, rest'. split; [exact Hr | reflexivity].
      * exists "", (String c s). split; [reflexivity |].
        destruct n as [| n']; [now left |].
        destruct s as [| b1 [| b2 s2]]; try (now left).
        right. exists c, b1, b2, s2. split; reflexivity.
    + destruct (IH n k) as (pre & rest & E & H).
      exists (String c pre), rest. split; [now rewrite E |].
      destruct H as [-> | (b0 & b1 & b2 & rest' & Hr & ->)]; [now left |].
      right. exists b0, b1, b2, rest'. split; [exact Hr | reflexivity].
Qed.

Lemma utf8_width_units (c : ascii) :
  snd (utf8_width c) = 1%nat \/ utf8_width c = (4, 2)%nat.
Proof.
  unfold utf8_width.
  destruct (code c <? 192)%N; [now left |].
  destruct (code c <? 224)%N; [now left |].
  destruct (code c <? 240)%N; [now left | now right].
Qed.

(** [substring] yields exactly the code units asked for when the string
    has that many. *)
Lemma take_units_exact (n copy : nat) (s : string) :
  utf8_complete copy s = true ->
  count_units copy (take_units n copy s) = Nat.min n (count_units copy s).
Proof.
  revert n copy. induction s as [| c s IH]; intros n copy Hs; [cbn; lia |].
  destruct copy as [| k]; cbn [take_units count_units utf8_complete] in *.
  - pose proof (utf8_width_units c) as Hu.
    destruct (utf8_width c) as [w u] eqn:Hw. cbn [fst snd] in *.
    destruct (Nat.leb_spec u n) as [Hle | Hgt].
    + cbn [count_units]. rewrite Hw, (IH _ _ Hs). lia.
    + destruct n as [| n']; [cbn; lia |].
      destruct Hu as [-> | [= -> ->]]; [lia |].
      destruct s as [| b1 [| b2 s2]]; try discriminate Hs.
      rewrite count_high_surrogate. lia.
  - apply IH, Hs.
Qed.

(** X20.  The item built from a Wikipedia page has exactly three
    features, the last two fixed.  The first is [extract.substring(0, 100)]
    followed by ["..."]: the first 100 UTF-16 code units of the extract,
    so the whole extract when it has no more than 100, exactly 100 code
    units when it has more, and in any case a prefix of it (closed by a
    high surrogate when the cut falls inside a surrogate pair); the dots
    are added even when the extract was kept whole.  Without an extract the first feature is a fixed sentence.  The
    official URL is the [curid] link of the page. *)
Theorem wikipedia_item_shape (query : string) (content : WikiPage) :
  name (to_item query content) = title content /\
  officialUrl (to_item query content)
  = "https://ja.wikipedia.org/?curid=" +:+ pretty (pageid content) /\
  exists first,
    features (to_item query content)
    = [first; "信頼性の高い情報源"; "幅広いトピックをカバー"] /\
    (forall e,
       extract content = Some e -> e <> "" ->
       exists kept,
         first = kept +:+ "..." /\
         (length16 kept <= 100)%nat /\
         ((length16 e <= 100)%nat -> kept = e) /\
         (utf8_complete 0 e = true ->
          length16 kept = Nat.min 100 (length16 e)) /\
         exists pre rest,
           e = pre +:+ rest /\
           (kept = pre \/
            exists b0 b1 b2 rest',
              rest = String b0 (String b1 (String b2 rest')) /\
              kept = pre +:+ high_surrogate b0 b1 b2)) /\
    (truthy (extract content) = false ->
     first = "詳細情報はWikipediaをご覧ください。").
Proof.
  split; [reflexivity |]. split; [reflexivity |].
  eexists. split; [reflexivity |]. split.
  - intros e He Hne. rewrite He. destruct e as [| c e]; [congruence |].
    exists (substring0 100 (String c e)). split; [reflexivity |].
    split; [apply take_units_count |].
    split; [apply take_units_all |].
    split; [apply take_units_exact |]. apply take_units_prefix.
  - intros Hnone. destruct (extract content) as [[| c e] |]; [reflexivity | | reflexivity].
    discriminate.
Qed.

Lemma wikipedia_item_shape_witness :
  features (to_item "q" page_ja)
  = ["初音ミクは、クリプトン・フューチャー・メディアから発売されている音声合成・デスクトップミュージック用のボーカル音源、およびそのキャラクターである。..."; "信頼性の高い情報源"; "幅広いトピックをカバー"].
Proof.
  destruct (wikipedia_item_shape "q" page_ja) as (_ & _ & first & Hf & He & _).
  destruct (He _ eq_refl ltac:(discriminate)) as (kept & -> & _ & Hall & _).
  rewrite Hf, (Hall ltac:(vm_compute; lia)). reflexivity.
Defined.

End RecommendationsMore.
